(** * Markdown to NDJSON converters: sections, shards and fine-tuning records

    A shallow embedding of the two converter scripts

      - [docs/technical/konva/convert_to_ndjson.py]            (module [Ndjson])
      - [docs/technical/konva/json/convert_minimax_guide.py]   (module [Minimax])

    and the properties of their section splitters, of their size-bounded
    shard writers and of the fine-tuning transformation.

    Python values are modelled as follows.
      - [str]   : a sequence of Unicode code points, [list N];
      - [int]   : [Z] (unbounded, as in Python);
      - [list]  : [list];
      - the dicts built by the scripts : records with the dict's keys;
      - the files written : a finite map from paths to the chunks written;
      - [json.dumps], [json.loads], [glob.glob] and [os.path.join] are
        library calls; they are parameters of the sections that use them. *)

From Stdlib Require Import ZArith NArith List Ascii String DecimalString Sorting.Sorted Sorting.Permutation.
From Stdlib Require DecimalZ.
From stdpp Require Import base decidable option list numbers countable sorting gmap.

Set Warnings "-register-all".

#[local] Open Scope Z_scope.

(* ===================================================================== *)
(** * Python strings                                                      *)
(* ===================================================================== *)

Module Str.

(** A Python [str]: its code points, in order. *)
Definition str : Type := list N.

(** Code point of an 8-bit character, and of a literal. *)
Definition code (a : ascii) : N := N_of_ascii a.
Definition u (s : string) : str := List.map code (list_ascii_of_string s).

Definition LF : N := 10.
Definition HASH : N := 35.
Definition SPACE : N := 32.

(** [c.isspace()] for a single code point; the same set is matched by
    the regular expression class [\s] and removed by [str.strip()]. *)
Definition isspace (c : N) : bool :=
  ((9 <=? c) && (c <=? 13) || (28 <=? c) && (c <=? 32)
   || (c =? 133) || (c =? 160) || (c =? 5760)
   || (8192 <=? c) && (c <=? 8202)
   || (c =? 8232) || (c =? 8233) || (c =? 8239) || (c =? 8287)
   || (c =? 12288))%N.

(** [s.startswith(p)] *)
Fixpoint startswith (p s : str) : bool :=
  match p, s with
  | [], _ => true
  | _ :: _, [] => false
  | a :: p', b :: s' => (a =? b)%N && startswith p' s'
  end.

(** [s.endswith(p)] *)
Definition endswith (p s : str) : bool := startswith (rev p) (rev s).

(** Longest prefix stripping, [dropwhile]. *)
Fixpoint dropwhile (f : N -> bool) (s : str) : str :=
  match s with
  | [] => []
  | c :: s' => if f c then dropwhile f s' else s
  end.

(** [c in chars] *)
Definition mem (chars : str) (c : N) : bool := existsb (N.eqb c) chars.

(** [s.lstrip(chars)]: removes every leading character that occurs in
    [chars] (a set of characters, not a prefix). *)
Definition lstrip_chars (chars s : str) : str := dropwhile (mem chars) s.

(** [s.lstrip()], [s.rstrip()], [s.strip()] *)
Definition lstrip (s : str) : str := dropwhile isspace s.
Definition rstrip (s : str) : str := rev (dropwhile isspace (rev s)).
Definition strip (s : str) : str := rstrip (lstrip s).

(** [s.split('\n')]: never empty, one more field than line feeds. *)
Fixpoint split_lines (s : str) : list str :=
  match s with
  | [] => [[]]
  | c :: s' =>
      if (c =? LF)%N then [] :: split_lines s'
      else match split_lines s' with
           | l :: ls => (c :: l) :: ls
           | [] => [[c]]
           end
  end.

(** ['\n'.join(lines)] *)
Fixpoint join_lines (lines : list str) : str :=
  match lines with
  | [] => []
  | [l] => l
  | l :: ls => l ++ LF :: join_lines ls
  end.

(** [s.replace(old, new)] for a non-empty [old]: occurrences are found
    left to right and do not overlap.  [skip] counts the characters of an
    occurrence that are still to be passed over. *)
Fixpoint replace_from (skip : nat) (old new s : str) : str :=
  match s with
  | [] => []
  | c :: s' =>
      match skip with
      | S k => replace_from k old new s'
      | O => if startswith old s
             then new ++ replace_from (Nat.pred (length old)) old new s'
             else c :: replace_from O old new s'
      end
  end.
Definition replace (old new s : str) : str := replace_from O old new s.

(** [len(s.encode('utf-8'))], for text that can be encoded (a text read
    from a UTF-8 file holds no surrogate). *)
Definition utf8_width (c : N) : Z :=
  if (c <? 128)%N then 1 else if (c <? 2048)%N then 2
  else if (c <? 65536)%N then 3 else 4.
Definition utf8_len (s : str) : Z := fold_right (fun c n => utf8_width c + n) 0 s.

(** [str(n)] for an [int]. *)
Definition str_of_int (n : Z) : str := u (NilEmpty.string_of_int (Z.to_int n)).

(** [format(n, '03d')] for a non-negative [int]: at least three digits. *)
Definition pad3 (n : Z) : str :=
  let d := str_of_int n in
  List.repeat 48%N (3 - length d)%nat ++ d.

(** Strict and non-strict lexicographic order on code points, the order
    of [<] and [<=] on [str]. *)
Fixpoint str_leb (a b : str) : bool :=
  match a, b with
  | [], _ => true
  | _ :: _, [] => false
  | x :: a', y :: b' => (x <? y)%N || (x =? y)%N && str_leb a' b'
  end.

(** [sorted(names)] on a list of [str].  The order is total, so every
    correct sort returns the same list; it is written as an insertion
    sort. *)
Fixpoint insert_sorted (x : str) (l : list str) : list str :=
  match l with
  | [] => [x]
  | y :: l' => if str_leb x y then x :: l else y :: insert_sorted x l'
  end.
Definition sorted (l : list str) : list str := fold_right insert_sorted [] l.

(** Truth value of a list or of a [str]: non-empty. *)
Definition truthy {A} (l : list A) : bool :=
  match l with [] => false | _ => true end.

End Str.
Import Str.

(* ===================================================================== *)
(** * Regular expressions, as far as the scripts use them                 *)
(* ===================================================================== *)

Module Re.

(** Character classes: a literal, [\s], and [.] (anything but a line
    feed). *)
Inductive cls : Type :=
| Lit (c : N)
| Space
| Dot.

Definition cls_match (k : cls) (c : N) : bool :=
  match k with
  | Lit d => (c =? d)%N
  | Space => isspace c
  | Dot => negb (c =? LF)%N
  end.

(** A greedy repetition [k{lo,hi}] of one class ([hi = None]: no upper
    bound); [grp] tells whether it is a capturing group. *)
Record item : Type := mkItem {
  cl : cls;
  lo : nat;
  hi : option nat;
  grp : bool
}.

(** How many leading characters of [s] the class accepts, at most [hi]. *)
Fixpoint span (k : cls) (hi : option nat) (s : str) : nat :=
  match s with
  | [] => O
  | c :: s' =>
      if cls_match k c then
        match hi with
        | Some O => O
        | Some (S h) => S (span k (Some h) s')
        | None => S (span k None s')
        end
      else O
  end.

(** Backtracking: the longest repetition is tried first, then shorter
    ones down to [lo]. *)
Fixpoint backtrack {A} (lo n : nat) (try : nat -> option A) : option A :=
  if (n <? lo)%nat then None
  else match try n with
       | Some r => Some r
       | None => match n with
                 | O => None
                 | S n' => backtrack lo n' try
                 end
       end.

(** [$]: at the end of the string, or before a line feed that ends it. *)
Definition at_end (s : str) : bool :=
  match s with
  | [] => true
  | [c] => (c =? LF)%N
  | _ => false
  end.

(** [re.match] of the sequence of [items] followed by [$] (the match is
    anchored at the start); the result is the list of captured groups. *)
Fixpoint match_items (items : list item) (s : str) : option (list str) :=
  match items with
  | [] => if at_end s then Some [] else None
  | it :: rest =>
      backtrack (lo it) (span (cl it) (hi it) s)
        (fun n =>
           match match_items rest (drop n s) with
           | Some gs => Some (if grp it then take n s :: gs else gs)
           | None => None
           end)
  end.

End Re.

(* ===================================================================== *)
(** * Records and files, common to both scripts                           *)
(* ===================================================================== *)

Module Rec.

(** The dict serialised on one NDJSON line; both scripts build it with
    the same seven keys. *)
Record record : Type := mkRecord {
  id : str;
  source_file : str;
  section_index : Z;
  heading_level : Z;
  title : str;
  content : str;
  content_length : Z
}.

End Rec.

Module File.

(** A file opened with mode ['w'] holds the chunks passed to [write], in
    order.  The files a run creates are a finite map from paths. *)
Definition chunks : Type := list str.

(** Size of the file on disk, in bytes (UTF-8, no newline translation). *)
Definition bytes (c : chunks) : Z := utf8_len (concat c).

(** [open(path, 'w')]: creates or truncates. *)
Definition open_w (path : str) (fs : gmap str chunks) : gmap str chunks :=
  <[path := []]> fs.

(** [f.write(chunk)] on the handle opened at [path]. *)
Definition write (path : str) (chunk : str) (fs : gmap str chunks)
  : gmap str chunks :=
  alter (fun c => c ++ [chunk]) path fs.

(** [for line in f] on a file opened for reading in text mode: newlines
    are translated ([\r\n] and [\r] become [\n]) and every line keeps its
    terminator. *)
Definition CR : N := 13.

Fixpoint universal_newlines (s : str) : str :=
  match s with
  | [] => []
  | c :: s' =>
      if (c =? CR)%N then
        LF :: match s' with
              | d :: s'' =>
                  if (d =? LF)%N then universal_newlines s''
                  else universal_newlines s'
              | [] => []
              end
      else c :: universal_newlines s'
  end.

Fixpoint iter_lines (s : str) : list str :=
  match s with
  | [] => []
  | c :: s' =>
      if (c =? LF)%N then [LF] :: iter_lines s'
      else match iter_lines s' with
           | l :: ls => (c :: l) :: ls
           | [] => [[c]]
           end
  end.

Definition read_lines (c : chunks) : list str :=
  iter_lines (universal_newlines (concat c)).

(** [f.write(chunk)] on a file opened with [encoding='utf-8'] encodes the
    chunk first; a surrogate code point (U+D800 to U+DFFF) cannot be
    encoded, and the call raises [UnicodeEncodeError] without writing
    anything of the chunk. *)
Definition is_surrogate (c : N) : bool := ((55296 <=? c) && (c <=? 57343))%N.

Definition encodable (chunk : str) : bool :=
  forallb (fun c => negb (is_surrogate c)) chunk.

End File.

(* ===================================================================== *)
(** * JSON values, as [json.loads] returns them                           *)
(* ===================================================================== *)

Module Json.

(** [None], [bool], [int], [float], [str], [list] and [dict].  A float is
    kept as the text of its literal; a dict keeps its items in order, each
    key once. *)
Inductive value : Type :=
| Null
| Bool (b : bool)
| Int (n : Z)
| Float (literal : str)
| String (s : str)
| Array (items : list value)
| Object (items : list (str * value)).

(** [d[key]] on the items of a dict. *)
Fixpoint lookup (key : str) (items : list (str * value)) : option value :=
  match items with
  | [] => None
  | (k, v) :: rest => if bool_decide (k = key) then Some v else lookup key rest
  end.

End Json.

(* ===================================================================== *)
(** * [convert_to_ndjson.py]                                              *)
(* ===================================================================== *)

Module Ndjson.

(** The dict [{'title': ..., 'level': ..., 'content': [...]}]. *)
Record section : Type := mkSection {
  title : str;
  level : Z;
  content : list str
}.

Definition Introduction : str := u "Introduction".

(** The test [current_section['content'] or
    current_section['title'] != 'Introduction']. *)
Definition content_or_titled (s : section) : bool :=
  truthy (content s) || negb (bool_decide (title s = Introduction)).

(** [sections.append(current_section)] under a condition. *)
Definition append_if (b : bool) (sections : list section) (s : section) :=
  if b then sections ++ [s] else sections.

(** One iteration of [for line in lines], on the pair
    [(sections, current_section)]. *)
Definition step (st : list section * section) (line : str)
  : list section * section :=
  let '(sections, current_section) := st in
  if startswith (u "# ") line then
    (append_if (content_or_titled current_section) sections current_section,
     {| title := strip (lstrip_chars (u "# ") line); level := 1; content := [] |})
  else if startswith (u "## ") line then
    (append_if (truthy (content current_section)) sections current_section,
     {| title := strip (lstrip_chars (u "## ") line); level := 2; content := [] |})
  else if startswith (u "### ") line then
    (append_if (truthy (content current_section)) sections current_section,
     {| title := strip (lstrip_chars (u "### ") line); level := 3; content := [] |})
  else
    (sections,
     {| title := title current_section; level := level current_section;
        content := content current_section ++ [line] |}).

Definition initial_section : section :=
  {| title := Introduction; level := 0; content := [] |}.

(** The loop, then the closing of the last section. *)
Definition split_lines_into_sections (lines : list str) : list section :=
  let '(sections, current_section) :=
    fold_left step lines ([], initial_section) in
  append_if (content_or_titled current_section) sections current_section.

Definition split_markdown_into_sections (content : str) : list section :=
  split_lines_into_sections (split_lines content).

(** ** The shard writer of [convert_markdown_to_ndjson] *)

Definition MAX_FILE_SIZE : Z := 512 * 1024 * 1024.

Section Writer.

(** [json.dumps(json_record, ensure_ascii=False)] and [os.path.join]. *)
Variable json_dumps : Rec.record -> str.
Variable path_join : str -> str -> str.

(** The reading of the file and [Path(md_file_path).stem] are taken as
    done: [file_name] is the stem. *)
Variables (output_dir file_name : str).

Definition json_record (idx : Z) (s : section) : Rec.record :=
  {| Rec.id := file_name ++ u "_section_" ++ str_of_int idx;
     Rec.source_file := file_name;
     Rec.section_index := idx;
     Rec.heading_level := level s;
     Rec.title := title s;
     Rec.content := join_lines (content s);
     Rec.content_length := Z.of_nat (length (join_lines (content s))) |}.

Record state : Type := mkState {
  current_file_size : Z;
  file_number : Z;
  output_records : list str;
  files : gmap str File.chunks
}.

Definition output_path (file_number : Z) : str :=
  path_join output_dir
    (file_name ++ u "_part_" ++ str_of_int file_number ++ u ".ndjson").

(** [with open(output_path, 'w') as f: for record in output_records:
    f.write(record + '\n')] *)
Definition write_records (path : str) (records : list str)
    (fs : gmap str File.chunks) : gmap str File.chunks :=
  fold_left (fun fs record => File.write path (record ++ [LF]) fs)
            records (File.open_w path fs).

(** The block under [if current_file_size + json_line_size >
    MAX_FILE_SIZE and output_records]. *)
Definition flush (st : state) : state :=
  {| current_file_size := 0;
     file_number := file_number st + 1;
     output_records := [];
     files := write_records (output_path (file_number st))
                            (output_records st) (files st) |}.

(** One iteration of [for idx, section in enumerate(sections)]. *)
Definition write_step (st : state) (idx : Z) (s : section) : state :=
  let json_line := json_dumps (json_record idx s) in
  let json_line_size := utf8_len json_line + 1 in
  let st :=
    if (MAX_FILE_SIZE <? current_file_size st + json_line_size)
       && truthy (output_records st)
    then flush st else st in
  {| current_file_size := current_file_size st + json_line_size;
     file_number := file_number st;
     output_records := output_records st ++ [json_line];
     files := files st |}.

Fixpoint write_loop (st : state) (idx : Z) (sections : list section)
  : state :=
  match sections with
  | [] => st
  | s :: rest => write_loop (write_step st idx s) (idx + 1) rest
  end.

(** [if output_records:] after the loop. *)
Definition write_final (st : state) : gmap str File.chunks :=
  if truthy (output_records st)
  then write_records (output_path (file_number st))
                     (output_records st) (files st)
  else files st.

(** The whole writing part, from the list of sections. *)
Definition write_sections (sections : list section)
  : gmap str File.chunks :=
  write_final
    (write_loop {| current_file_size := 0; file_number := 1;
                   output_records := []; files := ∅ |}
                0 sections).

(** The files created by a run over the text [content]. *)
Definition convert_markdown_to_ndjson (content : str)
  : gmap str File.chunks :=
  write_sections (split_markdown_into_sections content).

End Writer.

End Ndjson.

(* ===================================================================== *)
(** * [convert_minimax_guide.py]                                          *)
(* ===================================================================== *)

Module Minimax.

(** The dict built for a section; [content] is a [str] here. *)
Record section : Type := mkSection {
  section_index : Z;
  heading_level : Z;
  title : str;
  content : str;
  content_length : Z
}.

(** The pattern [^(#{1,3})\s+(.+)$]. *)
Definition heading_re : list Re.item :=
  [ Re.mkItem (Re.Lit HASH) 1 (Some 3%nat) true;
    Re.mkItem Re.Space 1 None false;
    Re.mkItem Re.Dot 1 None true ].

(** [re.match(r'^(#{1,3})\s+(.+)$', line)], as the pair
    [(group(1), group(2))]. *)
Definition heading_match (line : str) : option (str * str) :=
  match Re.match_items heading_re line with
  | Some [g1; g2] => Some (g1, g2)
  | _ => None
  end.

(** Loop state: [sections], [current_section] ([None] before the first
    heading) and [section_index]. *)
Definition state : Type := (list section * option section * Z)%type.

(** [if current_section and current_section['content'].strip():
    sections.append(current_section)]; the flag tells whether the
    section was appended. *)
Definition save (sections : list section) (current_section : option section)
  : list section * bool :=
  match current_section with
  | Some cur =>
      if truthy (strip (content cur)) then (sections ++ [cur], true)
      else (sections, false)
  | None => (sections, false)
  end.

(** One iteration of the [while] loop ([i] only walks the lines). *)
Definition step (st : state) (line : str) : state :=
  let '(sections, current_section, section_index) := st in
  match heading_match line with
  | Some (g1, g2) =>
      let '(sections, saved) := save sections current_section in
      let section_index :=
        if saved then section_index + 1 else section_index in
      (sections,
       Some {| section_index := section_index;
               heading_level := Z.of_nat (length g1);
               title := strip g2;
               content := [];
               content_length := 0 |},
       section_index)
  | None =>
      match current_section with
      | Some cur =>
          (sections,
           Some {| section_index := Minimax.section_index cur;
                   heading_level := heading_level cur;
                   title := title cur;
                   content := content cur ++ line ++ [LF];
                   content_length := content_length cur |},
           section_index)
      | None => st
      end
  end.

(** [section['content'] = section['content'].strip()] and the length. *)
Definition clean (s : section) : section :=
  {| section_index := section_index s;
     heading_level := heading_level s;
     title := title s;
     content := strip (content s);
     content_length := Z.of_nat (length (strip (content s))) |}.

Definition split_lines_into_sections (lines : list str) : list section :=
  let '(sections, current_section, _) :=
    fold_left step lines ([], None, 0) in
  let sections := fst (save sections current_section) in
  List.filter (fun s => 0 <? content_length s) (List.map clean sections).

Definition split_markdown_into_sections (content : str) : list section :=
  split_lines_into_sections (split_lines content).

(** ** The shard writer of [convert_markdown_to_ndjson] *)

Section Writer.

(** [json.dumps(record, ensure_ascii=False)]. *)
Variable json_dumps : Rec.record -> str.

Variables (output_file : str) (max_file_size : Z).

Definition record_of (s : section) : Rec.record :=
  {| Rec.id := u "konva-minimax-guide_" ++ pad3 (section_index s);
     Rec.source_file := u "comprehensive_konvajs_documentation_guide.md";
     Rec.section_index := section_index s;
     Rec.heading_level := heading_level s;
     Rec.title := title s;
     Rec.content := content s;
     Rec.content_length := content_length s |}.

(** [current_output] is the handle of the open part, named by its
    path. *)
Record wstate : Type := mkW {
  record_count : Z;
  current_file_size : Z;
  part_num : Z;
  current_output : option str;
  files : gmap str File.chunks
}.

Definition part_path (part_num : Z) : str :=
  replace (u ".ndjson") (u "_part_" ++ str_of_int part_num ++ u ".ndjson")
          output_file.

(** The block under [if current_file_size + line_size > max_file_size
    and current_output is not None]. *)
Definition close_part (st : wstate) : wstate :=
  {| record_count := record_count st;
     current_file_size := 0;
     part_num := part_num st + 1;
     current_output := None;
     files := files st |}.

(** The block under [if current_output is None]. *)
Definition open_part (st : wstate) : wstate :=
  {| record_count := record_count st;
     current_file_size := current_file_size st;
     part_num := part_num st;
     current_output := Some (part_path (part_num st));
     files := File.open_w (part_path (part_num st)) (files st) |}.

Definition is_open (st : wstate) : bool :=
  match current_output st with Some _ => true | None => false end.

(** One iteration of [for section in sections]. *)
Definition write_step (st : wstate) (s : section) : wstate :=
  let line := json_dumps (record_of s) ++ [LF] in
  let line_size := utf8_len line in
  let st :=
    if (max_file_size <? current_file_size st + line_size) && is_open st
    then close_part st else st in
  let st := if is_open st then st else open_part st in
  {| record_count := record_count st + 1;
     current_file_size := current_file_size st + line_size;
     part_num := part_num st;
     current_output := current_output st;
     files := match current_output st with
              | Some path => File.write path line (files st)
              | None => files st
              end |}.

(** The writing loop over the sections. *)
Definition write_sections (sections : list section) : wstate :=
  fold_left write_step sections
    {| record_count := 0; current_file_size := 0; part_num := 1;
       current_output := None; files := ∅ |}.

(** The files created by a run over the text [content]; closing the
    last part leaves them as they are. *)
Definition convert_markdown_to_ndjson (content : str)
  : gmap str File.chunks :=
  files (write_sections (split_markdown_into_sections content)).

End Writer.

(** ** [convert_ndjson_to_finetuning] *)

(** The exceptions the function can end with: those of [json.loads]
    ([JSONDecodeError] for a text that is not JSON, plain [ValueError]
    for an integer literal with too many digits, [RecursionError] for a
    nesting too deep), of the record access, of [json.dumps], of the
    write and of the opening of the input. *)
Inductive exn : Type :=
| JSONDecodeError
| ValueError
| RecursionError
| KeyError (key : str)
| TypeError
| UnicodeEncodeError
| FileNotFoundError (path : str).

(** What happens to the files, in order. *)
Inductive event : Type :=
| OpenRead (path : str)
| OpenWrite (path : str)
| Write (path : str) (chunk : str)
| CloseWrite (path : str)
| CloseRead (path : str).

Record world : Type := mkWorld {
  fs : gmap str File.chunks;
  trace : list event
}.

Definition finetuning_suffix : str := u "_finetuning.ndjson".
Definition acknowledgement : str :=
  u "This documentation has been reviewed and is ready for reference.".

Section FineTuning.

(** [json.loads] and [json.dumps(..., ensure_ascii=False)], each giving
    its result or the exception it raises; [glob.glob] (the matching
    paths, in the order the directory lists them) and the text [str()]
    gives for a float, a list or a dict. *)
Variable json_loads : str -> exn + Json.value.
Variable json_dumps : Json.value -> exn + str.
Variable glob : str -> list str.
Variable py_repr : Json.value -> str.

(** A replacement field of an f-string: [format(v, '')], that is
    [str(v)]. *)
Definition format_value (v : Json.value) : str :=
  match v with
  | Json.String s => s
  | Json.Int n => str_of_int n
  | Json.Null => u "None"
  | Json.Bool true => u "True"
  | Json.Bool false => u "False"
  | _ => py_repr v
  end.

(** [record[key]] *)
Definition getitem (record : Json.value) (key : str) : exn + Json.value :=
  match record with
  | Json.Object items =>
      match Json.lookup key items with
      | Some v => inr v
      | None => inl (KeyError key)
      end
  | _ => inl TypeError
  end.

Definition message (role : str) (content : Json.value) : Json.value :=
  Json.Object [(u "role", Json.String role); (u "content", content)].

(** The body of the loop after [json.loads]: [system_content] and
    [finetuning_record]. *)
Definition finetuning_record (record : Json.value) : exn + Json.value :=
  match getitem record (u "title") with
  | inl e => inl e
  | inr title =>
  match getitem record (u "heading_level") with
  | inl e => inl e
  | inr heading_level =>
  match getitem record (u "source_file") with
  | inl e => inl e
  | inr source_file =>
      let system_content :=
        u "Section: " ++ format_value title ++ LF ::
        u "Level: H" ++ format_value heading_level ++ LF ::
        u "Source: " ++ format_value source_file in
      match getitem record (u "content") with
      | inl e => inl e
      | inr content =>
          inr (Json.Object
                 [(u "messages",
                   Json.Array
                     [ message (u "system") (Json.String system_content);
                       message (u "user") content;
                       message (u "assistant")
                               (Json.String acknowledgement) ])])
      end
  end end end.

(** [for line in infile]: the chunks written to [outfile], and the
    exception that stopped the loop, if any.  Whatever [json.loads],
    the record access or [json.dumps] raises ends the loop, and so does
    the write of a chunk that cannot be encoded; the chunks written
    before stay written. *)
Fixpoint transform_lines (lines : list str) : list str * option exn :=
  match lines with
  | [] => ([], None)
  | line :: rest =>
      if negb (truthy (strip line)) then transform_lines rest
      else
        match json_loads (strip line) with
        | inl e => ([], Some e)
        | inr record =>
            match finetuning_record record with
            | inl e => ([], Some e)
            | inr fr =>
                match json_dumps fr with
                | inl e => ([], Some e)
                | inr text =>
                    if File.encodable (text ++ [LF]) then
                      let '(out, e) := transform_lines rest in
                      ((text ++ [LF]) :: out, e)
                    else ([], Some UnicodeEncodeError)
                end
            end
        end
  end.

Definition output_path_of (input_path : str) : str :=
  replace (u ".ndjson") finetuning_suffix input_path.

(** One iteration of [for input_path in input_files].  The input is
    opened first; opening the output truncates it before any line is
    read.  The file system is a map from paths to texts: a file that
    exists is read as the text it holds, and any path can be opened for
    writing. *)
Definition process_file (w : world) (input_path : str)
  : world * option exn :=
  let output_path := output_path_of input_path in
  match fs w !! input_path with
  | None => (w, Some (FileNotFoundError input_path))
  | Some _ =>
      let fs1 := File.open_w output_path (fs w) in
      let lines := File.read_lines (default [] (fs1 !! input_path)) in
      let '(out, e) := transform_lines lines in
      ({| fs := fold_left (fun fs c => File.write output_path c fs) out fs1;
          trace := trace w
                   ++ [OpenRead input_path; OpenWrite output_path]
                   ++ List.map (Write output_path) out
                   ++ [CloseWrite output_path; CloseRead input_path] |},
       e)
  end.

Fixpoint process_files (w : world) (input_files : list str)
  : world * option exn :=
  match input_files with
  | [] => (w, None)
  | input_path :: rest =>
      match process_file w input_path with
      | (w', None) => process_files w' rest
      | (w', Some e) => (w', Some e)
      end
  end.

(** [input_file.rsplit('.', 1)[0] if '.' in input_file else
    input_file] *)
Fixpoint before_last (c : N) (s : str) : option str :=
  match s with
  | [] => None
  | x :: s' =>
      match before_last c s' with
      | Some b => Some (x :: b)
      | None => if (x =? c)%N then Some [] else None
      end
  end.
Definition base_path (input_file : str) : str :=
  default input_file (before_last 46%N input_file).

Definition part_files (input_file : str) : list str :=
  List.filter (fun f => negb (endswith finetuning_suffix f))
    (sorted (glob (base_path input_file ++ u "_part_*.ndjson"))).

(** The list [input_files]; [None] when the function returns early
    ("Skipping already-finetuned file"). *)
Definition input_files (input_file : str) : option (list str) :=
  if negb (truthy (part_files input_file)) then
    if endswith finetuning_suffix input_file then None
    else Some [input_file]
  else Some (part_files input_file).

(** The second argument, [output_file], is not used by the function. *)
Definition convert_ndjson_to_finetuning (w : world)
    (input_file output_file : str) : world * option exn :=
  match input_files input_file with
  | None => (w, None)
  | Some files => process_files w files
  end.

End FineTuning.

End Minimax.

(* ===================================================================== *)
(** * What the specification calls a heading                              *)
(* ===================================================================== *)

(** "One to three [#] characters followed by a space": [k] hashes, then
    a space, then anything. *)
Definition hash_heading (k : nat) (line : str) : Prop :=
  (1 <= k <= 3)%nat /\ exists rest, line = repeat HASH k ++ SPACE :: rest.

(** The three tests of the first script's [if]/[elif] chain. *)
Definition is_heading1 (line : str) : bool :=
  startswith (u "# ") line || startswith (u "## ") line
  || startswith (u "### ") line.

(** The test of the second script. *)
Definition is_heading2 (line : str) : bool :=
  match Minimax.heading_match line with Some _ => true | None => false end.

(** Putting heading lines back: the lines of [doc] that are headings are
    kept where they are, every other position takes the next line of
    [body]. *)
Fixpoint reassemble (is_heading : str -> bool) (doc body : list str)
  : list str :=
  match doc with
  | [] => []
  | l :: doc' =>
      if is_heading l then l :: reassemble is_heading doc' body
      else match body with
           | b :: body' => b :: reassemble is_heading doc' body'
           | [] => []
           end
  end.

(** ** What a pattern means

    A text matches a sequence of repetitions followed by [$] when it
    splits into one piece per repetition, each piece made of characters
    of the class and of an allowed length, with the end of the text (or
    its final line feed) after the last piece.  The captured groups are
    the pieces of the capturing repetitions. *)
Definition within (hi : option nat) (n : nat) : Prop :=
  match hi with
  | Some h => (n <= h)%nat
  | None => True
  end.

Inductive matches : list Re.item -> str -> list str -> Prop :=
| matches_end (s : str) :
    Re.at_end s = true -> matches [] s []
| matches_item (it : Re.item) (rest : list Re.item) (p s : str)
               (gs : list str) :
    Forall (fun c => Re.cls_match (Re.cl it) c = true) p ->
    (Re.lo it <= length p)%nat ->
    within (Re.hi it) (length p) ->
    matches rest s gs ->
    matches (it :: rest) (p ++ s) (if Re.grp it then p :: gs else gs).

(** The second script's pattern read this way: [k] hashes, one or more
    whitespace characters, one or more characters other than a line feed,
    and nothing more but possibly one final line feed. *)
Definition regex_heading (k : nat) (line : str) : Prop :=
  (1 <= k <= 3)%nat /\
  exists ws body tl,
    ws <> [] /\ Forall (fun c => isspace c = true) ws /\
    body <> [] /\ Forall (fun c => c <> LF) body /\
    (tl = [] \/ tl = [LF]) /\
    line = repeat HASH k ++ ws ++ body ++ tl.

(** The first script's current section with one more line, the section a
    heading line opens there, and its closing test by the level of the
    incoming heading. *)
Definition add_line (cur : Ndjson.section) (line : str) : Ndjson.section :=
  {| Ndjson.title := Ndjson.title cur; Ndjson.level := Ndjson.level cur;
     Ndjson.content := Ndjson.content cur ++ [line] |}.

Definition opened (k : nat) (line : str) : Ndjson.section :=
  {| Ndjson.title := strip (lstrip_chars (u "# ") line);
     Ndjson.level := Z.of_nat k; Ndjson.content := [] |}.

Definition closes (k : nat) (cur : Ndjson.section) : bool :=
  match k with
  | 1%nat => Ndjson.content_or_titled cur
  | _ => truthy (Ndjson.content cur)
  end.

(** The second script's current section with one more line, and the
    section a heading of level [k] opens there. *)
Definition add_line2 (cur : Minimax.section) (line : str) : Minimax.section :=
  {| Minimax.section_index := Minimax.section_index cur;
     Minimax.heading_level := Minimax.heading_level cur;
     Minimax.title := Minimax.title cur;
     Minimax.content := Minimax.content cur ++ line ++ [LF];
     Minimax.content_length := Minimax.content_length cur |}.

Definition opened2 (index : Z) (k : nat) (line : str) : Minimax.section :=
  {| Minimax.section_index := index;
     Minimax.heading_level := Z.of_nat k;
     Minimax.title := strip (drop k line);
     Minimax.content := [];
     Minimax.content_length := 0 |}.

(** ** Shapes the splitters keep

    First script: levels are 0 to 3, only the first section can have
    level 0, a level-0 section carries the sentinel title, and titles
    have no whitespace around them. *)
Definition shape1 (secs : list Ndjson.section) : Prop :=
  Forall (fun s => 0 <= Ndjson.level s <= 3) secs
  /\ Forall (fun s => 1 <= Ndjson.level s) (tail secs)
  /\ Forall (fun s => Ndjson.level s = 0 ->
                      Ndjson.title s = Ndjson.Introduction) secs
  /\ Forall (fun s => strip (Ndjson.title s) = Ndjson.title s) secs.

(** The state of the first script's loop: the closed sections have that
    shape, and the current section is the leading one (nothing closed
    yet) or was opened by a heading. *)
Definition inv_split1 (st : list Ndjson.section * Ndjson.section) : Prop :=
  shape1 (fst st)
  /\ strip (Ndjson.title (snd st)) = Ndjson.title (snd st)
  /\ ((Ndjson.level (snd st) = 0
       /\ Ndjson.title (snd st) = Ndjson.Introduction /\ fst st = [])
      \/ 1 <= Ndjson.level (snd st) <= 3).

(** Second script: what holds of a section while it is accumulated, and
    of a section once it is returned. *)
Definition open2_ok (index : Z) (s : Minimax.section) : Prop :=
  Minimax.section_index s = index
  /\ 1 <= Minimax.heading_level s <= 3
  /\ strip (Minimax.title s) = Minimax.title s.

Definition final2_ok (s : Minimax.section) : Prop :=
  1 <= Minimax.heading_level s <= 3
  /\ strip (Minimax.title s) = Minimax.title s
  /\ Minimax.content s <> []
  /\ strip (Minimax.content s) = Minimax.content s
  /\ Minimax.content_length s = Z.of_nat (length (Minimax.content s)).

(** The indices 0, 1, ..., n-1. *)
Definition indices (n : nat) : list Z := List.map Z.of_nat (seq 0 n).

(** The state of the second script's loop: the saved sections are
    numbered from 0 without gap and have text, [section_index] is their
    number, and the open section carries it. *)
Definition inv_split2 (st : Minimax.state) : Prop :=
  let '(secs, cur, index) := st in
  index = Z.of_nat (length secs)
  /\ List.map Minimax.section_index secs = indices (length secs)
  /\ Forall (fun s => 1 <= Minimax.heading_level s <= 3
                      /\ strip (Minimax.title s) = Minimax.title s
                      /\ strip (Minimax.content s) <> []) secs
  /\ match cur with
     | Some c => open2_ok index c
     | None => True
     end.

(** ** Occurrences and shard contents

    [old in s]: the text [old] occurs somewhere in [s]. *)
Fixpoint occurs (old s : str) : bool :=
  startswith old s
  || match s with
     | [] => false
     | _ :: s' => occurs old s'
     end.

(** The lines [json_line] the first script serialises, from index [idx]
    on, and the lines the second script writes. *)
Fixpoint records1 (json_dumps : Rec.record -> str) (file_name : str)
    (idx : Z) (sections : list Ndjson.section) : list str :=
  match sections with
  | [] => []
  | s :: rest =>
      json_dumps (Ndjson.json_record file_name idx s)
      :: records1 json_dumps file_name (idx + 1) rest
  end.

Definition lines2 (json_dumps : Rec.record -> str)
    (sections : list Minimax.section) : list str :=
  List.map (fun s => json_dumps (Minimax.record_of s) ++ [LF]) sections.

(** What parts 1 to [n] hold, read one after the other ([path_of] names
    part [k]; a part that does not exist counts for nothing). *)
Definition shard_contents (path_of : Z -> str)
    (files : gmap str File.chunks) (n : nat) : list str :=
  flat_map (fun k => default [] (files !! path_of (Z.of_nat k)
                                 : option File.chunks))
           (seq 1 n).

(** ** Shards

    A shard respects the budget [S] when its size in bytes is at most [S],
    or when it holds exactly one serialised record (a line with its
    terminator) that is larger than [S] by itself. *)
Definition shard_ok (S : Z) (c : File.chunks) : Prop :=
  File.bytes c <= S \/ exists line, c = [line] /\ S < utf8_len line.

(** What the first script's [output_records] become on disk. *)
Definition pending (st : Ndjson.state) : File.chunks :=
  List.map (fun r => r ++ [LF]) (Ndjson.output_records st).

(** The invariant of the first script's writing loop: the files written
    so far respect the budget, the counter is the size the pending
    records will have on disk, and they respect the budget too. *)
Definition inv1 (st : Ndjson.state) : Prop :=
  map_Forall (fun _ c => shard_ok Ndjson.MAX_FILE_SIZE c) (Ndjson.files st)
  /\ Ndjson.current_file_size st = File.bytes (pending st)
  /\ shard_ok Ndjson.MAX_FILE_SIZE (pending st).

(** The invariant of the second script's writing loop: every file
    respects the budget, and the counter is the size of the open part
    (zero when no part is open). *)
Definition inv2 (max_file_size : Z) (st : Minimax.wstate) : Prop :=
  map_Forall (fun _ c => shard_ok max_file_size c) (Minimax.files st)
  /\ match Minimax.current_output st with
     | Some path =>
         exists c, Minimax.files st !! path = Some c
                   /\ Minimax.current_file_size st = File.bytes c
     | None => Minimax.current_file_size st = 0
     end.

(** The parts written so far, for the second script: before the first
    record nothing exists; afterwards part [m + 1] is open, the parts 1
    to [m] followed by the open part hold the lines [done] written so
    far, the files are exactly the parts 1 to [m + 1], and none is
    empty. *)
Definition inv_parts2 (path_of : Z -> str) (st : Minimax.wstate)
    (done : list str) : Prop :=
  match Minimax.current_output st with
  | None =>
      Minimax.part_num st = 1 /\ Minimax.files st = ∅ /\ done = []
  | Some p =>
      exists (m : nat) (c : File.chunks),
        Minimax.part_num st = Z.of_nat (S m)
        /\ p = path_of (Z.of_nat (S m))
        /\ Minimax.files st !! p = Some c
        /\ shard_contents path_of (Minimax.files st) m ++ c = done
        /\ (forall q, is_Some (Minimax.files st !! q)
                      <-> exists k, (1 <= k <= S m)%nat
                                    /\ q = path_of (Z.of_nat k))
        /\ map_Forall (fun _ c => c <> []) (Minimax.files st)
  end.

(** The same for the first script, whose current part is still in
    memory: the parts 1 to [m] are written, part [m + 1] is pending. *)
Definition inv_parts1 (path_of : Z -> str) (st : Ndjson.state)
    (done : list str) : Prop :=
  exists m : nat,
    Ndjson.file_number st = Z.of_nat (S m)
    /\ shard_contents path_of (Ndjson.files st) m ++ pending st = done
    /\ (forall q, is_Some (Ndjson.files st !! q)
                  <-> exists k, (1 <= k <= m)%nat /\ q = path_of (Z.of_nat k))
    /\ map_Forall (fun _ c => c <> []) (Ndjson.files st).

(** The state of the second script's writer when every part has the
    same path [p]: the only file is [p]; it holds [cur], the lines of
    the open part, which are the last of the lines [done] written so far
    ([lost], the lines of the parts before, are no longer in any file). *)
Definition inv_same_path (max_file_size : Z) (p : str)
    (st : Minimax.wstate) (done : list str) : Prop :=
  match Minimax.current_output st with
  | None =>
      Minimax.files st = ∅ /\ done = [] /\ Minimax.current_file_size st = 0
  | Some q =>
      q = p
      /\ exists lost cur : list str,
           done = lost ++ cur /\ cur <> []
           /\ Minimax.files st = <[p := cur]> ∅
           /\ Minimax.current_file_size st = File.bytes cur
           /\ (lost = [] \/ max_file_size < File.bytes done)
  end.

(** The second script's writer fills its parts: with [m] closed parts
    and part [m + 1] open, the open part is not empty and its size is
    [current_file_size]; only the parts 1 to [m + 1] exist; and every
    closed part could not take the first line of the part after it. *)
Definition inv_filled2 (path_of : Z -> str) (max_file_size : Z)
    (st : Minimax.wstate) : Prop :=
  match Minimax.current_output st with
  | None =>
      Minimax.part_num st = 1 /\ Minimax.files st = ∅
      /\ Minimax.current_file_size st = 0
  | Some p =>
      exists (m : nat) (c : File.chunks),
        Minimax.part_num st = Z.of_nat (S m)
        /\ p = path_of (Z.of_nat (S m))
        /\ Minimax.files st !! p = Some c
        /\ c <> []
        /\ Minimax.current_file_size st = File.bytes c
        /\ (forall q, is_Some (Minimax.files st !! q) ->
                      exists k, (1 <= k <= S m)%nat /\ q = path_of (Z.of_nat k))
        /\ (forall k, (1 <= k <= m)%nat ->
              exists (ck : File.chunks) (first : str) (rest : File.chunks),
                Minimax.files st !! path_of (Z.of_nat k) = Some ck
                /\ Minimax.files st !! path_of (Z.of_nat (S k))
                   = Some (first :: rest)
                /\ max_file_size < File.bytes ck + utf8_len first)
  end.

(** ** Documents as blocks

    A block is a heading line with the lines that follow it, up to the
    next heading line.  [block_text b] is the text of the lines [b] of a block,
    each with its line feed, and [body2 b] what the second script keeps
    of it; [sections_of_blocks2] lists the sections of
    the blocks whose text is not blank, numbered from [index]. *)
Definition block_text (b : list str) : str :=
  concat (List.map (fun l => l ++ [LF]) b).

Definition body2 (b : list str) : str := strip (block_text b).

Fixpoint sections_of_blocks2 (index : Z) (blocks : list (str * list str))
  : list Minimax.section :=
  match blocks with
  | [] => []
  | (h, b) :: rest =>
      match Minimax.heading_match h with
      | Some (g1, g2) =>
          if truthy (body2 b)
          then {| Minimax.section_index := index;
                  Minimax.heading_level := Z.of_nat (length g1);
                  Minimax.title := strip g2;
                  Minimax.content := body2 b;
                  Minimax.content_length := Z.of_nat (length (body2 b)) |}
               :: sections_of_blocks2 (index + 1) rest
          else sections_of_blocks2 index rest
      | None => sections_of_blocks2 index rest
      end
  end.

Definition lines_of_blocks (blocks : list (str * list str)) : list str :=
  flat_map (fun hb => fst hb :: snd hb) blocks.

(** The same for the first script.  A block carries the level [k] of its
    heading line [h]; [cur] is the section of the lines before the first
    block.  A section is closed by the heading of the next block, or by
    the end of the document, which closes as a level-1 heading does. *)
Fixpoint sections_of_blocks1 (cur : Ndjson.section)
    (blocks : list (nat * str * list str)) : list Ndjson.section :=
  match blocks with
  | [] => Ndjson.append_if (Ndjson.content_or_titled cur) [] cur
  | (k, h, b) :: rest =>
      Ndjson.append_if (closes k cur) [] cur
      ++ sections_of_blocks1
           {| Ndjson.title := strip (lstrip_chars (u "# ") h);
              Ndjson.level := Z.of_nat k;
              Ndjson.content := b |} rest
  end.

Definition lines_of_blocks1 (blocks : list (nat * str * list str))
  : list str :=
  flat_map (fun khb => snd (fst khb) :: snd khb) blocks.

(** What the loop makes of one non-blank line.  [converts line chunk]:
    the line is parsed, the fine-tuning record is built and serialized,
    and [chunk], its text with a line feed, is written.  [fails line e]:
    one of these four steps raises [e]. *)
Definition converts (json_loads : str -> Minimax.exn + Json.value)
    (json_dumps : Json.value -> Minimax.exn + str)
    (py_repr : Json.value -> str) (line chunk : str) : Prop :=
  exists record fr text,
    json_loads (strip line) = inr record
    /\ Minimax.finetuning_record py_repr record = inr fr
    /\ json_dumps fr = inr text
    /\ File.encodable (text ++ [LF]) = true
    /\ chunk = text ++ [LF].

Definition fails (json_loads : str -> Minimax.exn + Json.value)
    (json_dumps : Json.value -> Minimax.exn + str)
    (py_repr : Json.value -> str) (line : str) (e : Minimax.exn) : Prop :=
  json_loads (strip line) = inl e
  \/ (exists record,
        json_loads (strip line) = inr record
        /\ Minimax.finetuning_record py_repr record = inl e)
  \/ (exists record fr,
        json_loads (strip line) = inr record
        /\ Minimax.finetuning_record py_repr record = inr fr
        /\ json_dumps fr = inl e)
  \/ (exists record fr text,
        json_loads (strip line) = inr record
        /\ Minimax.finetuning_record py_repr record = inr fr
        /\ json_dumps fr = inr text
        /\ File.encodable (text ++ [LF]) = false
        /\ e = Minimax.UnicodeEncodeError).

(** A line [r] of a part file, without its line feed, that the
    transformer converts: it holds no line break, is not blank, and the
    loop writes a chunk for it. *)
Definition record_line (json_loads : str -> Minimax.exn + Json.value)
    (json_dumps : Json.value -> Minimax.exn + str)
    (py_repr : Json.value -> str) (r : str) : Prop :=
  Forall (fun c => c <> LF /\ c <> File.CR) r
  /\ strip (r ++ [LF]) <> []
  /\ exists chunk, converts json_loads json_dumps py_repr (r ++ [LF]) chunk.

(** The example of the specification: the shard line, the record
    [json.loads] returns for it, and the text [json.dumps(...,
    ensure_ascii=False)] returns for its fine-tuning record.
    [messages_text system user] is the text of a fine-tuning record whose
    system and user contents are written [system] and [user] between
    their quotes. *)
Definition quoted (s : str) : str := 34%N :: s ++ [34%N].

Definition example_record : Json.value :=
  Json.Object [(u "title", Json.String (u "Intro"));
               (u "heading_level", Json.Int 1);
               (u "source_file", Json.String (u "doc"));
               (u "content", Json.String (u "Hi"))].

Definition example_line : str :=
  u "{" ++ quoted (u "title") ++ u ":" ++ quoted (u "Intro") ++ u ","
  ++ quoted (u "heading_level") ++ u ":1,"
  ++ quoted (u "source_file") ++ u ":" ++ quoted (u "doc") ++ u ","
  ++ quoted (u "content") ++ u ":" ++ quoted (u "Hi") ++ u "}".

Definition messages_text (system user : str) : str :=
  u "{" ++ quoted (u "messages") ++ u ": [{"
  ++ quoted (u "role") ++ u ": " ++ quoted (u "system") ++ u ", "
  ++ quoted (u "content") ++ u ": " ++ quoted system ++ u "}, {"
  ++ quoted (u "role") ++ u ": " ++ quoted (u "user") ++ u ", "
  ++ quoted (u "content") ++ u ": " ++ quoted user ++ u "}, {"
  ++ quoted (u "role") ++ u ": " ++ quoted (u "assistant") ++ u ", "
  ++ quoted (u "content") ++ u ": " ++ quoted Minimax.acknowledgement
  ++ u "}]}".

Definition example_text : str :=
  messages_text (u "Section: Intro\nLevel: H1\nSource: doc") (u "Hi").

(** [json.loads] and [json.dumps] as far as the example needs them: the
    example line is parsed to its record, any other text is not JSON,
    and the text of the example's fine-tuning record is returned. *)
Definition example_loads : str -> Minimax.exn + Json.value :=
  fun s => if bool_decide (s = example_line) then inr example_record
           else inl Minimax.JSONDecodeError.
Definition example_dumps : Json.value -> Minimax.exn + str :=
  fun _ => inr example_text.

(** A shard line whose title is the escaped lone surrogate U+D83D, which
    [json.loads] accepts: the line, the record it is parsed to, and the
    text of its fine-tuning record, in which [json.dumps(...,
    ensure_ascii=False)] leaves the surrogate as it is. *)
Definition surrogate_record : Json.value :=
  Json.Object [(u "title", Json.String [55357%N]);
               (u "heading_level", Json.Int 1);
               (u "source_file", Json.String (u "doc"));
               (u "content", Json.String (u "Hi"))].

Definition surrogate_line : str :=
  u "{" ++ quoted (u "title") ++ u ":" ++ quoted (u "\ud83d") ++ u ","
  ++ quoted (u "heading_level") ++ u ":1,"
  ++ quoted (u "source_file") ++ u ":" ++ quoted (u "doc") ++ u ","
  ++ quoted (u "content") ++ u ":" ++ quoted (u "Hi") ++ u "}".

Definition surrogate_text : str :=
  messages_text (u "Section: " ++ [55357%N] ++ u "\nLevel: H1\nSource: doc")
                (u "Hi").

Definition surrogate_loads : str -> Minimax.exn + Json.value :=
  fun s => if bool_decide (s = surrogate_line) then inr surrogate_record
           else inl Minimax.JSONDecodeError.
Definition surrogate_dumps : Json.value -> Minimax.exn + str :=
  fun _ => inr surrogate_text.

(** Stand-ins for [json.loads] and [json.dumps] in the examples where no
    line is parsed. *)
Definition loads_nothing : str -> Minimax.exn + Json.value :=
  fun _ => inl Minimax.JSONDecodeError.
Definition dumps_nothing : Json.value -> Minimax.exn + str :=
  fun _ => inr [].

(** ** Fine-tuning

    The order of [<=] on [str]; the name of shard [k] of a base name; the
    events of one input file processed from its opening to its closing;
    and the paths a trace opens for reading, in order. *)
Definition str_le (a b : str) : Prop := str_leb a b = true.

Definition part_name (base : str) (k : nat) : str :=
  base ++ u "_part_" ++ str_of_int (Z.of_nat k) ++ u ".ndjson".

Definition block (input_path : str) (out : list str) : list Minimax.event :=
  [Minimax.OpenRead input_path;
   Minimax.OpenWrite (Minimax.output_path_of input_path)]
  ++ List.map (Minimax.Write (Minimax.output_path_of input_path)) out
  ++ [Minimax.CloseWrite (Minimax.output_path_of input_path);
      Minimax.CloseRead input_path].

Fixpoint blocks (input_paths : list str) (outs : list (list str))
  : list Minimax.event :=
  match input_paths, outs with
  | p :: ps, o :: os => block p o ++ blocks ps os
  | _, _ => []
  end.

Fixpoint reads (t : list Minimax.event) : list str :=
  match t with
  | [] => []
  | Minimax.OpenRead p :: t' => p :: reads t'
  | _ :: t' => reads t'
  end.

(** The document of the specification's example. *)
Definition example_doc : str :=
  u "# Title" ++ LF :: u "Hello" ++ LF :: u "World" ++ LF ::
  u "## Sub" ++ LF :: u "Foo" ++ [LF].

(* ===================================================================== *)
(** * Strings                                                             *)
(* ===================================================================== *)

Section StrFacts.

Lemma startswith_spec (p s : str) :
  startswith p s = true <-> exists rest, s = p ++ rest.
Proof.
  revert s; induction p as [|a p IH]; intros s; simpl.
  - split; [eauto | done].
  - destruct s as [|b s]; simpl.
    + split; [done | intros [? ?]; done].
    + rewrite andb_true_iff, N.eqb_eq, IH. split.
      * intros [-> [rest ->]]. eauto.
      * intros [rest [= -> ->]]. eauto.
Qed.

Lemma startswith_app (p rest : str) : startswith p (p ++ rest) = true.
Proof. apply startswith_spec; eauto. Qed.

Lemma dropwhile_ext (f g : N -> bool) (s : str) :
  (forall c, f c = g c) -> dropwhile f s = dropwhile g s.
Proof.
  intros E; induction s as [|c s IH]; simpl; [done|].
  rewrite E, IH. done.
Qed.

Lemma lstrip_chars_hashes2 (s : str) :
  lstrip_chars (u "## ") s = lstrip_chars (u "# ") s.
Proof.
  apply dropwhile_ext; intros c.
  change (mem (u "## ") c)
    with ((c =? 35) || ((c =? 35) || ((c =? 32) || false)))%N.
  change (mem (u "# ") c) with ((c =? 35) || ((c =? 32) || false))%N.
  destruct (c =? 35)%N, (c =? 32)%N; done.
Qed.

Lemma lstrip_chars_hashes3 (s : str) :
  lstrip_chars (u "### ") s = lstrip_chars (u "# ") s.
Proof.
  apply dropwhile_ext; intros c.
  change (mem (u "### ") c)
    with ((c =? 35) || ((c =? 35) || ((c =? 35) || ((c =? 32) || false))))%N.
  change (mem (u "# ") c) with ((c =? 35) || ((c =? 32) || false))%N.
  destruct (c =? 35)%N, (c =? 32)%N; done.
Qed.

Lemma split_lines_nonempty (s : str) : split_lines s <> [].
Proof.
  destruct s as [|c s]; simpl; [done|].
  destruct (c =? LF)%N; [done|]. destruct (split_lines s); done.
Qed.

End StrFacts.

(* ===================================================================== *)
(** * The section splitter of [convert_to_ndjson.py]                      *)
(* ===================================================================== *)

Section Splitter1.

Import Ndjson.

Lemma is_heading1_spec (line : str) :
  is_heading1 line = true <-> exists k, hash_heading k line.
Proof.
  unfold is_heading1, hash_heading.
  rewrite !orb_true_iff, !startswith_spec. split.
  - intros [[[rest ->]|[rest ->]]|[rest ->]];
      [exists 1%nat | exists 2%nat | exists 3%nat]; (split; [lia | by exists rest]).
  - intros [k [Hk [rest ->]]].
    assert (k = 1 \/ k = 2 \/ k = 3)%nat as [->|[->| ->]] by lia; eauto.
Qed.

Lemma hash_heading_level (k j : nat) (line : str) :
  hash_heading k line -> hash_heading j line -> k = j.
Proof.
  intros [Hk [r1 ->]] [Hj [r2 E]].
  assert (k = 1 \/ k = 2 \/ k = 3)%nat as Ck by lia.
  assert (j = 1 \/ j = 2 \/ j = 3)%nat as Cj by lia.
  destruct Ck as [->|[->| ->]], Cj as [->|[->| ->]]; simpl in E; try done;
    by inversion E.
Qed.

(** A heading line closes the current section by the rule of its level
    and opens a section with no content. *)
Lemma step_heading (k : nat) secs cur line :
  hash_heading k line ->
  step (secs, cur) line = (append_if (closes k cur) secs cur, opened k line).
Proof.
  intros [Hk [rest ->]].
  assert (k = 1 \/ k = 2 \/ k = 3)%nat as [->|[->| ->]] by lia;
    unfold step, opened.
  - change (repeat HASH 1 ++ SPACE :: rest) with (u "# " ++ rest).
    by rewrite startswith_app.
  - assert (startswith (u "# ") (repeat HASH 2 ++ SPACE :: rest) = false)
      as -> by reflexivity.
    change (repeat HASH 2 ++ SPACE :: rest) with (u "## " ++ rest).
    by rewrite startswith_app, lstrip_chars_hashes2.
  - assert (startswith (u "# ") (repeat HASH 3 ++ SPACE :: rest) = false)
      as -> by reflexivity.
    assert (startswith (u "## ") (repeat HASH 3 ++ SPACE :: rest) = false)
      as -> by reflexivity.
    change (repeat HASH 3 ++ SPACE :: rest) with (u "### " ++ rest).
    by rewrite startswith_app, lstrip_chars_hashes3.
Qed.

(** Any other line is appended to the current section, nothing else
    changes. *)
Lemma step_content secs cur line :
  is_heading1 line = false -> step (secs, cur) line = (secs, add_line cur line).
Proof.
  unfold is_heading1; rewrite !orb_false_iff; intros [[H1 H2] H3].
  unfold step. by rewrite H1, H2, H3.
Qed.

Lemma step_cases secs cur line :
  (is_heading1 line = false /\ step (secs, cur) line = (secs, add_line cur line))
  \/ (exists k, hash_heading k line /\ is_heading1 line = true /\
       step (secs, cur) line = (append_if (closes k cur) secs cur, opened k line)).
Proof.
  destruct (is_heading1 line) eqn:E.
  - right. apply is_heading1_spec in E as [k Hk].
    exists k. eauto using step_heading.
  - left. eauto using step_content.
Qed.

Lemma closes_false (k : nat) cur : closes k cur = false -> content cur = [].
Proof.
  assert (truthy (content cur) = false -> content cur = []) as T
    by (by destruct (content cur)).
  destruct k as [|[|k]]; simpl; auto.
  unfold content_or_titled. rewrite orb_false_iff. intros [? _]; auto.
Qed.

Lemma flat_append_if (b : bool) secs cur :
  (b = false -> content cur = []) ->
  flat_map content (append_if b secs cur) = flat_map content secs ++ content cur.
Proof.
  destruct b; simpl; intros H.
  - rewrite flat_map_app; simpl. by rewrite app_nil_r.
  - rewrite H by done. by rewrite app_nil_r.
Qed.

(** The loop never loses or reorders content: the lines held by the
    closed sections and by the current one are the non-heading lines
    seen so far. *)
Lemma fold_step_contents lines : forall secs cur secs' cur',
  fold_left step lines (secs, cur) = (secs', cur') ->
  flat_map content secs' ++ content cur'
  = (flat_map content secs ++ content cur)
    ++ List.filter (fun l => negb (is_heading1 l)) lines.
Proof.
  induction lines as [|line lines IH]; intros secs cur secs' cur' H;
    cbn [fold_left List.filter] in *.
  - inversion H; subst. by rewrite app_nil_r.
  - destruct (step_cases secs cur line) as [[E S]|[k [Hk [E S]]]];
      rewrite S in H; apply IH in H; rewrite H, E; cbn [negb].
    + unfold add_line; cbn [content]. by rewrite <- !app_assoc.
    + rewrite flat_append_if by apply closes_false.
      unfold opened; cbn [content]. by rewrite app_nil_r.
Qed.

(** Lines that are not headings only grow the current section. *)
Lemma fold_step_no_heading lines : forall secs cur,
  Forall (fun l => is_heading1 l = false) lines ->
  fold_left step lines (secs, cur)
  = (secs, {| title := title cur; level := level cur;
              content := content cur ++ lines |}).
Proof.
  induction lines as [|line lines IH]; intros secs cur H; cbn [fold_left].
  - rewrite app_nil_r. by destruct cur.
  - inversion H as [|? ? E H']; subst.
    rewrite step_content, IH by done. cbn. by rewrite <- app_assoc.
Qed.

Lemma reassemble_filter (h : str -> bool) (doc : list str) :
  reassemble h doc (List.filter (fun l => negb (h l)) doc) = doc.
Proof.
  induction doc as [|l doc IH]; simpl; [done|].
  destruct (h l); simpl; by rewrite IH.
Qed.

Lemma split1_contents (lines : list str) :
  flat_map content (split_lines_into_sections lines)
  = List.filter (fun l => negb (is_heading1 l)) lines.
Proof.
  unfold split_lines_into_sections.
  destruct (fold_left step lines ([], initial_section)) as [secs cur] eqn:F.
  apply fold_step_contents in F. simpl in F. rewrite <- F.
  apply flat_append_if. apply (closes_false 1).
Qed.

End Splitter1.

(* ===================================================================== *)
(** * The backtracking matcher finds exactly the matches                  *)
(* ===================================================================== *)

Section ReFacts.

Import Re.

Lemma span_sound (k : cls) (s : str) : forall hi n,
  (n <= span k hi s)%nat ->
  (n <= length s)%nat /\ within hi n /\
  Forall (fun c => cls_match k c = true) (take n s).
Proof.
  induction s as [|c s IH]; intros hi n Hn; simpl in Hn.
  - assert (n = 0%nat) as -> by lia.
    split; [simpl; lia | split; [destruct hi; simpl; lia | constructor]].
  - destruct n as [|n].
    { split; [simpl; lia | split; [destruct hi; simpl; lia | constructor]]. }
    destruct (cls_match k c) eqn:E; [|lia].
    destruct hi as [[|h]|]; [lia| |].
    + destruct (IH (Some h) n) as (L & W & F); [lia|].
      split; [simpl; lia | split; [simpl in *; lia | by constructor]].
    + destruct (IH None n) as (L & W & F); [lia|].
      split; [simpl; lia | split; [done | by constructor]].
Qed.

Lemma span_complete (k : cls) (p s : str) : forall hi,
  Forall (fun c => cls_match k c = true) p ->
  within hi (length p) ->
  (length p <= span k hi (p ++ s))%nat.
Proof.
  induction p as [|c p IH]; intros hi F W; simpl; [lia|].
  inversion F as [|? ? E F']; subst. rewrite E.
  destruct hi as [[|h]|]; simpl in W.
  - lia.
  - specialize (IH (Some h) F'). simpl in IH. lia.
  - specialize (IH None F'). simpl in IH. lia.
Qed.

Lemma backtrack_sound {A} (lo : nat) (try : nat -> option A) (r : A) :
  forall n, backtrack lo n try = Some r ->
  exists m, (lo <= m <= n)%nat /\ try m = Some r.
Proof.
  induction n as [|n IH]; simpl; intros H.
  - destruct (0 <? lo)%nat eqn:L; [done|].
    apply Nat.ltb_ge in L. destruct (try 0%nat) eqn:T; [|done].
    exists 0%nat. split; [lia | congruence].
  - destruct (S n <? lo)%nat eqn:L; [done|].
    apply Nat.ltb_ge in L. destruct (try (S n)) eqn:T.
    + exists (S n). split; [lia | congruence].
    + destruct (n <? lo)%nat eqn:L'.
      * destruct n; simpl in H; rewrite L' in H; done.
      * destruct (IH H) as [m [Hm Tm]]. exists m. split; [lia | done].
Qed.

Lemma backtrack_complete {A} (lo : nat) (try : nat -> option A) :
  forall n m, (lo <= m <= n)%nat -> is_Some (try m) ->
  is_Some (backtrack lo n try).
Proof.
  induction n as [|n IH]; intros m Hm [r T]; simpl.
  - assert (m = 0%nat) as -> by lia.
    assert ((0 <? lo)%nat = false) as -> by (apply Nat.ltb_ge; lia).
    rewrite T. eauto.
  - assert ((S n <? lo)%nat = false) as -> by (apply Nat.ltb_ge; lia).
    destruct (try (S n)) eqn:T'; [eauto|].
    apply (IH m); [|eauto].
    assert (m <> S n) by congruence. lia.
Qed.

(** Every result of the matcher is a match. *)
Lemma match_items_sound (items : list item) : forall s gs,
  match_items items s = Some gs -> matches items s gs.
Proof.
  induction items as [|it rest IH]; intros s gs H; simpl in H.
  - destruct (at_end s) eqn:E; [|done].
    inversion H; subst. by constructor.
  - apply backtrack_sound in H as [m [Hm T]].
    destruct (match_items rest (drop m s)) as [gs'|] eqn:M; [|done].
    inversion T; subst.
    destruct (span_sound (cl it) s (hi it) m) as (L & W & F); [lia|].
    rewrite <- (take_drop m s) at 1.
    constructor; rewrite ?length_take; try lia.
    + done.
    + by replace (m `min` length s)%nat with m by lia.
    + by apply IH.
Qed.

(** Whenever the text matches, the matcher returns a result. *)
Lemma match_items_complete (items : list item) (s : str) (gs : list str) :
  matches items s gs -> is_Some (match_items items s).
Proof.
  induction 1 as [s E | it rest p s gs F L W M IH]; simpl.
  - rewrite E. eauto.
  - apply (backtrack_complete _ _ _ (length p)).
    + split; [done|]. by apply span_complete.
    + rewrite drop_app_length. destruct IH as [gs' ->]. eauto.
Qed.

End ReFacts.

(* ===================================================================== *)
(** * The section splitter of [convert_minimax_guide.py]                  *)
(* ===================================================================== *)

Section Splitter2.

Import Minimax.

Lemma matches_nil_inv s gs :
  matches [] s gs -> gs = [] /\ Re.at_end s = true.
Proof. by inversion 1. Qed.

Lemma matches_cons_inv it rest s gs :
  matches (it :: rest) s gs ->
  exists p s' gs',
    s = p ++ s' /\ gs = (if Re.grp it then p :: gs' else gs') /\
    Forall (fun c => Re.cls_match (Re.cl it) c = true) p /\
    (Re.lo it <= length p)%nat /\ within (Re.hi it) (length p) /\
    matches rest s' gs'.
Proof. inversion 1; subst. eauto 10. Qed.

Lemma all_hash (p : str) :
  Forall (fun c => (c =? HASH)%N = true) p -> p = repeat HASH (length p).
Proof.
  induction 1 as [|c p E _ IH]; simpl; [done|].
  apply N.eqb_eq in E. by rewrite E, <- IH.
Qed.

Lemma at_end_inv (s : str) : Re.at_end s = true <-> s = [] \/ s = [LF].
Proof.
  destruct s as [|c [|d s]]; simpl.
  - split; [by left | done].
  - rewrite N.eqb_eq. split; [intros ->; by right | intros [|[= ->]]; done].
  - split; [done | intros [|]; done].
Qed.

(** Hashes followed by another character: the count is determined. *)
Lemma repeat_hash_inj (k : nat) : forall j w w' (x x' : str),
  repeat HASH k ++ w :: x = repeat HASH j ++ w' :: x' ->
  w <> HASH -> w' <> HASH -> k = j.
Proof.
  induction k as [|k IH]; intros [|j] w w' x x' E Hw Hw'; simpl in E.
  - done.
  - inversion E; subst. done.
  - inversion E; subst. done.
  - inversion E. f_equal. eauto.
Qed.

(** After [n] hashes, a shorter run of hashes is followed by a hash. *)
Lemma repeat_hash_more (k : nat) : forall n w (x rest : str),
  repeat HASH n ++ rest = repeat HASH k ++ w :: x ->
  (k < n)%nat -> w = HASH.
Proof.
  induction k as [|k IH]; intros [|n] w x rest E L; simpl in E; try lia.
  - by inversion E.
  - inversion E. eapply IH; [done | lia].
Qed.

Lemma isspace_not_hash (w : N) : isspace w = true -> w <> HASH.
Proof. intros H ->. done. Qed.

Lemma regex_heading_level (k j : nat) (line : str) :
  regex_heading k line -> regex_heading j line -> k = j.
Proof.
  intros (_ & ws & b & t & Hws & Fws & _ & _ & _ & ->).
  intros (_ & ws' & b' & t' & Hws' & Fws' & _ & _ & _ & E).
  destruct ws as [|w ws]; [done|]. destruct ws' as [|w' ws']; [done|].
  inversion Fws; inversion Fws'; subst.
  simpl in E. eapply repeat_hash_inj; eauto using isspace_not_hash.
Qed.

(** What a successful match says about the line and its two groups. *)
Lemma heading_match_sound (line g1 g2 : str) :
  heading_match line = Some (g1, g2) ->
  exists k ws tl,
    (1 <= k <= 3)%nat /\ g1 = repeat HASH k /\
    ws <> [] /\ Forall (fun c => isspace c = true) ws /\
    g2 <> [] /\ Forall (fun c => c <> LF) g2 /\
    (tl = [] \/ tl = [LF]) /\
    line = repeat HASH k ++ ws ++ g2 ++ tl.
Proof.
  unfold heading_match.
  destruct (Re.match_items heading_re line) as [gs|] eqn:M; [|done].
  apply match_items_sound in M. unfold heading_re in M.
  apply matches_cons_inv in M
    as (p1 & s1 & gs1 & -> & -> & F1 & L1 & W1 & M).
  apply matches_cons_inv in M
    as (p2 & s2 & gs2 & -> & -> & F2 & L2 & W2 & M).
  apply matches_cons_inv in M
    as (p3 & s3 & gs3 & -> & -> & F3 & L3 & W3 & M).
  apply matches_nil_inv in M as [-> E]. simpl in *.
  intros [= <- <-]. apply all_hash in F1.
  exists (length p1), p2, s3.
  split; [lia|]. split; [done|].
  split; [by destruct p2; simpl in *; [lia|] |].
  split; [done|].
  split; [by destruct p3; simpl in *; [lia|] |].
  split.
  { eapply Forall_impl; [exact F3|]. simpl. intros c Hc ->. done. }
  split; [by apply at_end_inv|]. by rewrite <- F1.
Qed.

(** A line of that shape is matched. *)
Lemma heading_match_complete (k : nat) (line : str) :
  regex_heading k line -> is_Some (heading_match line).
Proof.
  intros (Hk & ws & body & tl & Hws & Fws & Hb & Fb & Htl & ->).
  assert (matches heading_re (repeat HASH k ++ ws ++ body ++ tl)
            [repeat HASH k; body]) as M.
  { unfold heading_re.
    apply (matches_item (Re.mkItem (Re.Lit HASH) 1 (Some 3%nat) true)); simpl.
    - clear. induction k; simpl; constructor; [by apply N.eqb_eq | done].
    - rewrite repeat_length. lia.
    - rewrite repeat_length. lia.
    - apply (matches_item (Re.mkItem Re.Space 1 None false) _ ws _ [body]);
        simpl; [done | destruct ws; simpl; [done|lia] | done |].
      rewrite <- (app_nil_r [body]) at 1.
      apply (matches_item (Re.mkItem Re.Dot 1 None true) [] body tl []);
        simpl; [| destruct body; simpl; [done|lia] | done |].
      + eapply Forall_impl; [exact Fb|]. simpl. intros c Hc.
        apply negb_true_iff, N.eqb_neq. done.
      + constructor. by apply at_end_inv. }
  destruct (match_items_complete _ _ _ M) as [gs E].
  unfold heading_match. rewrite E.
  apply match_items_sound in E. unfold heading_re in E.
  apply matches_cons_inv in E as (? & ? & ? & _ & -> & _ & _ & _ & E).
  apply matches_cons_inv in E as (? & ? & ? & _ & -> & _ & _ & _ & E).
  apply matches_cons_inv in E as (? & ? & ? & _ & -> & _ & _ & _ & E).
  apply matches_nil_inv in E as [-> _]. simpl. eauto.
Qed.

Lemma is_heading2_spec (line : str) :
  is_heading2 line = true <-> exists k, regex_heading k line.
Proof.
  unfold is_heading2. split.
  - destruct (heading_match line) as [[g1 g2]|] eqn:E; [intros _|done].
    apply heading_match_sound in E
      as (k & ws & tl & Hk & _ & ? & ? & ? & ? & ? & ?).
    exists k. split; [done|]. exists ws, g2, tl. done.
  - intros [k [g E]%heading_match_complete]. by rewrite E.
Qed.

Lemma dropwhile_all (f : N -> bool) (ws x : str) :
  Forall (fun c => f c = true) ws -> dropwhile f (ws ++ x) = dropwhile f x.
Proof. induction 1 as [|c ws E _ IH]; simpl; [done|]. by rewrite E. Qed.

Lemma dropwhile_app (f : N -> bool) (a b : str) :
  dropwhile f (a ++ b)
  = match dropwhile f a with
    | [] => dropwhile f b
    | _ => dropwhile f a ++ b
    end.
Proof.
  induction a as [|c a IH]; simpl; [done|].
  destruct (f c); [done|]. done.
Qed.

Lemma rstrip_app_space (x tl : str) :
  Forall (fun c => isspace c = true) tl -> rstrip (x ++ tl) = rstrip x.
Proof.
  intros F. unfold rstrip. rewrite rev_app_distr, dropwhile_all; [done|].
  by apply Forall_rev.
Qed.

(** Whitespace around a text does not change what [strip] returns. *)
Lemma strip_around (ws g tl : str) :
  Forall (fun c => isspace c = true) ws ->
  Forall (fun c => isspace c = true) tl ->
  strip (ws ++ g ++ tl) = strip g.
Proof.
  intros Fw Ft. unfold strip, lstrip.
  rewrite dropwhile_all, dropwhile_app by done.
  destruct (dropwhile isspace g) as [|c r] eqn:E.
  - rewrite <- (app_nil_r tl), dropwhile_all; done.
  - by rewrite rstrip_app_space.
Qed.

(** The title of a heading line: what follows the hashes, stripped. *)
Lemma heading_match_title (line g1 g2 : str) :
  heading_match line = Some (g1, g2) ->
  strip g2 = strip (drop (length g1) line).
Proof.
  intros (k & ws & tl & Hk & -> & _ & Fw & _ & _ & Htl & ->)%heading_match_sound.
  rewrite drop_app_length. symmetry. apply strip_around; [done|].
  destruct Htl as [-> | ->]; repeat constructor.
Qed.

(** A heading line closes the current section when it has text and
    opens a section with no content. *)
Lemma step2_heading (k : nat) secs cur index line :
  regex_heading k line ->
  step (secs, cur, index) line
  = (let index' := if snd (save secs cur) then index + 1 else index in
     (fst (save secs cur), Some (opened2 index' k line), index')).
Proof.
  intros H. destruct (heading_match_complete _ _ H) as [[g1 g2] E].
  pose proof (heading_match_title _ _ _ E) as T.
  pose proof (heading_match_sound _ _ _ E)
    as (j & ws & tl & Hj & -> & ? & ? & ? & ? & ? & EQ).
  assert (k = j) as <-.
  { apply (regex_heading_level _ _ line); [done|].
    split; [done|]. exists ws, g2, tl. done. }
  unfold step. rewrite E. rewrite repeat_length in *.
  destruct (save secs cur) as [secs' saved]. simpl.
  unfold opened2. by rewrite T.
Qed.

(** Any other line is appended to the open section, or skipped when no
    heading has been seen yet. *)
Lemma step2_content secs cur index line :
  is_heading2 line = false ->
  step (secs, cur, index) line
  = (secs, match cur with
           | Some c => Some (add_line2 c line)
           | None => None
           end, index).
Proof.
  unfold is_heading2, step.
  destruct (heading_match line); [done|]. by destruct cur.
Qed.

(** Before the first heading nothing is recorded. *)
Lemma fold_step2_preamble (lines : list str) : forall secs index,
  Forall (fun l => is_heading2 l = false) lines ->
  fold_left step lines (secs, None, index) = (secs, None, index).
Proof.
  induction lines as [|l lines IH]; intros secs index F;
    cbn [fold_left]; [done|].
  inversion F; subst. rewrite step2_content by done. by apply IH.
Qed.

(** Four or more leading hashes: no heading, in either script. *)
Lemma four_hashes_no_hash_heading (n : nat) (rest : str) (k : nat) :
  (4 <= n)%nat -> ~ hash_heading k (repeat HASH n ++ rest).
Proof.
  intros Hn [Hk [x E]].
  apply repeat_hash_more in E; [done | lia].
Qed.

Lemma four_hashes_no_regex_heading (n : nat) (rest : str) (k : nat) :
  (4 <= n)%nat -> ~ regex_heading k (repeat HASH n ++ rest).
Proof.
  intros Hn (Hk & ws & b & t & Hws & Fws & _ & _ & _ & E).
  destruct ws as [|w ws]; [done|]. inversion Fws; subst.
  simpl in E. apply repeat_hash_more in E; [|lia].
  by eapply isspace_not_hash.
Qed.

End Splitter2.

(* ===================================================================== *)
(** * Properties of the section splitters                                 *)
(* ===================================================================== *)

Section SplitterClaims.

(** C2 (amended).  A document none of whose lines is a heading: the
    first script returns exactly one section, with level 0, the title
    "Introduction" and every line of the document as content; the
    second script, which skips the lines before the first heading,
    returns no section. *)
Theorem C2_document_without_headings (content : str) :
  ((forall line k, In line (split_lines content) -> ~ hash_heading k line) ->
   Ndjson.split_markdown_into_sections content
   = [ {| Ndjson.title := u "Introduction"; Ndjson.level := 0;
          Ndjson.content := split_lines content |} ])
  /\
  ((forall line k, In line (split_lines content) -> ~ regex_heading k line) ->
   Minimax.split_markdown_into_sections content = []).
Proof.
  split; intros H.
  - unfold Ndjson.split_markdown_into_sections,
      Ndjson.split_lines_into_sections.
    rewrite fold_step_no_heading.
    + pose proof (split_lines_nonempty content) as NE.
      unfold Ndjson.content_or_titled; simpl.
      destruct (split_lines content); [done|]. done.
    + apply List.Forall_forall. intros line Hin.
      destruct (is_heading1 line) eqn:E; [|done].
      apply is_heading1_spec in E as [k Hk]. by destruct (H line k).
  - unfold Minimax.split_markdown_into_sections,
      Minimax.split_lines_into_sections.
    rewrite fold_step2_preamble; [done|].
    apply List.Forall_forall. intros line Hin.
    destruct (is_heading2 line) eqn:E; [|done].
    apply is_heading2_spec in E as [k Hk]. by destruct (H line k).
Qed.

Lemma C2_witness :
  Ndjson.split_markdown_into_sections (u "Hello" ++ LF :: u "World")
  = [ {| Ndjson.title := u "Introduction"; Ndjson.level := 0;
         Ndjson.content := [u "Hello"; u "World"] |} ]
  /\ Minimax.split_markdown_into_sections (u "Hello" ++ LF :: u "World") = [].
Proof.
  split.
  - apply (proj1 (C2_document_without_headings (u "Hello" ++ LF :: u "World"))).
    intros line k Hin Hk.
    assert (is_heading1 line = true) as E by (apply is_heading1_spec; eauto).
    destruct Hin as [<-|[<-|[]]]; vm_compute in E; discriminate E.
  - apply (proj2 (C2_document_without_headings (u "Hello" ++ LF :: u "World"))).
    intros line k Hin Hk.
    assert (is_heading2 line = true) as E by (apply is_heading2_spec; eauto).
    destruct Hin as [<-|[<-|[]]]; vm_compute in E; discriminate E.
Defined.

(** The second script on a document without headings: no section at
    all, where C2 asks for one. *)
Lemma C2_counterexample :
  Minimax.split_markdown_into_sections (u "Hello" ++ LF :: u "World") = []
  /\ is_heading2 (u "Hello") = false /\ is_heading2 (u "World") = false.
Proof. by vm_compute. Qed.

(** C3 (amended).  In the first script a line is a heading exactly when
    it starts with one to three [#] followed by a space: such a line
    opens a new section of that level, any other line is appended to
    the current section.  In the second script a line is a heading
    exactly when it is one to three [#], then one or more whitespace
    characters, then one or more other characters.  In both, a line
    with four or more leading [#] is ordinary content. *)
Theorem C3_heading_detection :
  (forall secs cur line,
      (forall k, hash_heading k line ->
                 Ndjson.step (secs, cur) line
                 = (Ndjson.append_if (closes k cur) secs cur, opened k line))
      /\ ((forall k, ~ hash_heading k line) ->
          Ndjson.step (secs, cur) line = (secs, add_line cur line)))
  /\
  (forall secs cur index line,
      (forall k, regex_heading k line ->
                 Minimax.step (secs, cur, index) line
                 = (let index' :=
                      if snd (Minimax.save secs cur) then index + 1
                      else index in
                    (fst (Minimax.save secs cur),
                     Some (opened2 index' k line), index')))
      /\ ((forall k, ~ regex_heading k line) ->
          Minimax.step (secs, cur, index) line
          = (secs, option_map (fun c => add_line2 c line) cur, index)))
  /\
  (forall (n : nat) (rest : str), (4 <= n)%nat ->
      (forall secs cur,
          Ndjson.step (secs, cur) (repeat HASH n ++ rest)
          = (secs, add_line cur (repeat HASH n ++ rest)))
      /\ (forall secs cur index,
          Minimax.step (secs, cur, index) (repeat HASH n ++ rest)
          = (secs,
             option_map (fun c => add_line2 c (repeat HASH n ++ rest)) cur,
             index))).
Proof.
  assert (forall line, (forall k, ~ hash_heading k line) ->
                       is_heading1 line = false) as N1.
  { intros line H. destruct (is_heading1 line) eqn:E; [|done].
    apply is_heading1_spec in E as [k Hk]. by destruct (H k). }
  assert (forall line, (forall k, ~ regex_heading k line) ->
                       is_heading2 line = false) as N2.
  { intros line H. destruct (is_heading2 line) eqn:E; [|done].
    apply is_heading2_spec in E as [k Hk]. by destruct (H k). }
  assert (forall secs cur index line, is_heading2 line = false ->
            Minimax.step (secs, cur, index) line
            = (secs, option_map (fun c => add_line2 c line) cur, index)) as S2.
  { intros. rewrite step2_content by done. by destruct cur. }
  split; [|split].
  - intros secs cur line. split.
    + intros k Hk. by apply step_heading.
    + intros H. apply step_content. auto.
  - intros secs cur index line. split.
    + intros k Hk. by apply step2_heading.
    + intros H. apply S2. auto.
  - intros n rest Hn. split.
    + intros secs cur. apply step_content, N1.
      intros k. by apply four_hashes_no_hash_heading.
    + intros secs cur index. apply S2, N2.
      intros k. by apply four_hashes_no_regex_heading.
Qed.

Lemma C3_witness :
  Ndjson.step ([], Ndjson.initial_section) (u "## Sub")
  = ([], opened 2 (u "## Sub"))
  /\ Minimax.step ([], None, 0) (u "####    deep")
     = ([], None, 0).
Proof.
  split.
  - apply (proj1 (proj1 C3_heading_detection [] Ndjson.initial_section
                        (u "## Sub")) 2%nat).
    split; [lia | by exists (u "Sub")].
  - apply (proj2 (proj2 (proj2 C3_heading_detection) 4%nat (u "    deep")
                        ltac:(lia)) [] None 0).
Defined.

(** The second script does not follow the rule of C3: ["# "] starts
    with a hash and a space and is content there, and a hash followed
    by a tab is a heading. *)
Lemma C3_counterexample :
  (hash_heading 1 (u "# ") /\ is_heading2 (u "# ") = false)
  /\ ((forall k, ~ hash_heading k [HASH; 9%N; 120%N])
      /\ is_heading2 [HASH; 9%N; 120%N] = true).
Proof.
  split; [split|split].
  - split; [lia | by exists []].
  - by vm_compute.
  - intros k Hk.
    assert (is_heading1 [HASH; 9%N; 120%N] = true) as E
        by (apply is_heading1_spec; eauto).
    by vm_compute in E.
  - by vm_compute.
Qed.

(** C4 (amended).  In the first script the contents of the sections,
    concatenated in order, are exactly the lines of the document that
    are not headings, in their order; putting the heading lines back at
    their positions gives the document again.  The second script drops
    the lines that come before the first heading. *)
Theorem C4_content_round_trip :
  (forall content : str,
      flat_map Ndjson.content (Ndjson.split_markdown_into_sections content)
      = List.filter (fun l => negb (is_heading1 l)) (split_lines content)
      /\ reassemble is_heading1 (split_lines content)
           (flat_map Ndjson.content
                     (Ndjson.split_markdown_into_sections content))
         = split_lines content)
  /\
  (forall preamble rest : list str,
      (forall line k, In line preamble -> ~ regex_heading k line) ->
      Minimax.split_lines_into_sections (preamble ++ rest)
      = Minimax.split_lines_into_sections rest).
Proof.
  split.
  - intros content. unfold Ndjson.split_markdown_into_sections.
    rewrite split1_contents. split; [done|]. apply reassemble_filter.
  - intros preamble rest H. unfold Minimax.split_lines_into_sections.
    rewrite fold_left_app, fold_step2_preamble; [done|].
    apply List.Forall_forall. intros line Hin.
    destruct (is_heading2 line) eqn:E; [|done].
    apply is_heading2_spec in E as [k Hk]. by destruct (H line k).
Qed.

Lemma C4_witness :
  Minimax.split_lines_into_sections ([u "intro"] ++ [u "# T"; u "body"])
  = Minimax.split_lines_into_sections [u "# T"; u "body"].
Proof.
  apply (proj2 C4_content_round_trip [u "intro"] [u "# T"; u "body"]).
  intros line k Hin Hk.
  assert (is_heading2 line = true) as E by (apply is_heading2_spec; eauto).
  destruct Hin as [<-|[]]; vm_compute in E; discriminate E.
Defined.

(** The second script loses a line: of the two content lines "intro"
    and "body" only "body" is in a section, and putting the heading
    back does not give the document. *)
Lemma C4_counterexample :
  flat_map (fun s => split_lines (Minimax.content s))
    (Minimax.split_markdown_into_sections
       (u "intro" ++ LF :: u "# T" ++ LF :: u "body"))
  = [u "body"]
  /\ List.filter (fun l => negb (is_heading2 l))
       (split_lines (u "intro" ++ LF :: u "# T" ++ LF :: u "body"))
     = [u "intro"; u "body"]
  /\ reassemble is_heading2
       (split_lines (u "intro" ++ LF :: u "# T" ++ LF :: u "body"))
       [u "body"]
     <> split_lines (u "intro" ++ LF :: u "# T" ++ LF :: u "body").
Proof. split; [|split]; by vm_compute. Qed.

(** C5 (the first script departs from it).  On the heading line
    ["# #tag"] the heading text is ["#tag"]: the second script gives
    that title, the first script gives ["tag"], because
    [lstrip('# ')] removes every leading hash and space. *)
Theorem C5_title_of_hash_text :
  Ndjson.split_markdown_into_sections (u "# #tag" ++ LF :: u "body")
  = [ {| Ndjson.title := u "tag"; Ndjson.level := 1;
         Ndjson.content := [u "body"] |} ]
  /\ Minimax.split_markdown_into_sections (u "# #tag" ++ LF :: u "body")
     = [ {| Minimax.section_index := 0; Minimax.heading_level := 1;
            Minimax.title := u "#tag"; Minimax.content := u "body";
            Minimax.content_length := 4 |} ].
Proof. split; by vm_compute. Qed.

(** C6 (amended).  On the example document the first script returns
    the sections "Title" (level 1, lines "Hello" and "World") and "Sub"
    (level 2, lines "Foo" and the empty line that follows the final
    line feed); the second script returns "Title" with the text
    "Hello\nWorld" and "Sub" with the text "Foo". *)
Theorem C6_example_document :
  Ndjson.split_markdown_into_sections example_doc
  = [ {| Ndjson.title := u "Title"; Ndjson.level := 1;
         Ndjson.content := [u "Hello"; u "World"] |};
      {| Ndjson.title := u "Sub"; Ndjson.level := 2;
         Ndjson.content := [u "Foo"; []] |} ]
  /\ Minimax.split_markdown_into_sections example_doc
     = [ {| Minimax.section_index := 0; Minimax.heading_level := 1;
            Minimax.title := u "Title";
            Minimax.content := u "Hello" ++ LF :: u "World";
            Minimax.content_length := 11 |};
         {| Minimax.section_index := 1; Minimax.heading_level := 2;
            Minimax.title := u "Sub"; Minimax.content := u "Foo";
            Minimax.content_length := 3 |} ].
Proof. split; by vm_compute. Qed.

(** The first script's second section has two lines, not the single
    line "Foo". *)
Lemma C6_counterexample :
  Ndjson.split_markdown_into_sections example_doc
  <> [ {| Ndjson.title := u "Title"; Ndjson.level := 1;
          Ndjson.content := [u "Hello"; u "World"] |};
       {| Ndjson.title := u "Sub"; Ndjson.level := 2;
          Ndjson.content := [u "Foo"] |} ].
Proof. by vm_compute. Qed.

(** C10 (amended).  In the first script a level-1 heading, and the end
    of the input, emit the current section when it has content or its
    title is not "Introduction"; a level-2 or level-3 heading emits it
    only when it has content.  So a section opened by a heading and
    directly followed by a level-2 or level-3 heading is dropped; when
    it is directly followed by a level-1 heading it is emitted with
    empty content, unless its title is "Introduction", in which case it
    is dropped as well. *)
Theorem C10_closing_rules :
  (forall secs cur line,
      (hash_heading 1 line ->
       fst (Ndjson.step (secs, cur) line)
       = if truthy (Ndjson.content cur)
            || negb (bool_decide (Ndjson.title cur = u "Introduction"))
         then secs ++ [cur] else secs)
      /\ (hash_heading 2 line \/ hash_heading 3 line ->
          fst (Ndjson.step (secs, cur) line)
          = if truthy (Ndjson.content cur) then secs ++ [cur] else secs))
  /\
  (forall lines secs cur,
      fold_left Ndjson.step lines ([], Ndjson.initial_section) = (secs, cur) ->
      Ndjson.split_lines_into_sections lines
      = if truthy (Ndjson.content cur)
           || negb (bool_decide (Ndjson.title cur = u "Introduction"))
        then secs ++ [cur] else secs)
  /\
  (forall st k heading next,
      hash_heading k heading ->
      snd (Ndjson.step st heading) = opened k heading
      /\ (hash_heading 2 next \/ hash_heading 3 next ->
          fst (Ndjson.step (Ndjson.step st heading) next)
          = fst (Ndjson.step st heading))
      /\ (hash_heading 1 next ->
          Ndjson.title (opened k heading) <> u "Introduction" ->
          fst (Ndjson.step (Ndjson.step st heading) next)
          = fst (Ndjson.step st heading) ++ [opened k heading])
      /\ (hash_heading 1 next ->
          Ndjson.title (opened k heading) = u "Introduction" ->
          fst (Ndjson.step (Ndjson.step st heading) next)
          = fst (Ndjson.step st heading))).
Proof.
  split; [|split].
  - intros secs cur line. split.
    + intros H. by rewrite (step_heading 1).
    + intros [H|H]; [rewrite (step_heading 2) | rewrite (step_heading 3)];
        done.
  - intros lines secs cur F. unfold Ndjson.split_lines_into_sections.
    by rewrite F.
  - intros [secs cur] k heading next Hk.
    rewrite (step_heading k) by done. cbn [fst snd].
    split; [done|]. split; [|split].
    + intros [H|H]; [rewrite (step_heading 2) | rewrite (step_heading 3)];
        done.
    + intros H T. rewrite (step_heading 1) by done.
      cbn [fst closes]. unfold Ndjson.content_or_titled.
      rewrite bool_decide_eq_false_2 by done. done.
    + intros H T. rewrite (step_heading 1) by done.
      cbn [fst closes]. unfold Ndjson.content_or_titled.
      rewrite bool_decide_eq_true_2 by done. done.
Qed.

Lemma C10_witness :
  fst (Ndjson.step (Ndjson.step ([], Ndjson.initial_section) (u "# A"))
                   (u "## B")) = []
  /\ fst (Ndjson.step (Ndjson.step ([], Ndjson.initial_section) (u "# A"))
                      (u "# B")) = [opened 1 (u "# A")].
Proof.
  assert (hash_heading 1 (u "# A")) as HA by (split; [lia | by exists (u "A")]).
  destruct (proj2 (proj2 C10_closing_rules)
              ([], Ndjson.initial_section) 1%nat (u "# A") (u "## B") HA)
    as (_ & D & _).
  destruct (proj2 (proj2 C10_closing_rules)
              ([], Ndjson.initial_section) 1%nat (u "# A") (u "# B") HA)
    as (_ & _ & E & _).
  split.
  - rewrite D; [by vm_compute|].
    left. split; [lia | by exists (u "B")].
  - rewrite E; [by vm_compute | | by vm_compute].
    split; [lia | by exists (u "B")].
Defined.

(** A section opened by the heading "## Introduction" and directly
    followed by a level-1 heading is not emitted. *)
Lemma C10_counterexample :
  hash_heading 2 (u "## Introduction") /\ hash_heading 1 (u "# Next")
  /\ fst (Ndjson.step
            (Ndjson.step ([], Ndjson.initial_section) (u "## Introduction"))
            (u "# Next")) = []
  /\ Ndjson.split_markdown_into_sections
       (u "## Introduction" ++ LF :: u "# Next")
     = [ {| Ndjson.title := u "Next"; Ndjson.level := 1;
            Ndjson.content := [] |} ].
Proof.
  split; [|split; [|split]].
  - split; [lia | by exists (u "Introduction")].
  - split; [lia | by exists (u "Next")].
  - by vm_compute.
  - by vm_compute.
Qed.

End SplitterClaims.

(* ===================================================================== *)
(** * The shard writers                                                   *)
(* ===================================================================== *)

Section FileFacts.

Lemma utf8_len_app (a b : str) : utf8_len (a ++ b) = utf8_len a + utf8_len b.
Proof. induction a as [|c a IH]; simpl; [done|]. rewrite IH. lia. Qed.

Lemma utf8_len_LF : utf8_len [LF] = 1.
Proof. done. Qed.

Lemma bytes_nil : File.bytes [] = 0.
Proof. done. Qed.

Lemma bytes_snoc (c : File.chunks) (x : str) :
  File.bytes (c ++ [x]) = File.bytes c + utf8_len x.
Proof.
  unfold File.bytes. rewrite concat_app, utf8_len_app. simpl.
  by rewrite app_nil_r.
Qed.

Lemma bytes_single (x : str) : File.bytes [x] = utf8_len x.
Proof. unfold File.bytes; simpl. by rewrite app_nil_r. Qed.

(** A shard of one record respects every budget. *)
Lemma shard_ok_single (S : Z) (x : str) : shard_ok S [x].
Proof.
  destruct (Z_le_gt_dec (utf8_len x) S).
  - left. by rewrite bytes_single.
  - right. exists x. split; [done | lia].
Qed.

Lemma write_insert (path : str) (x : str) (c : File.chunks)
      (fs : gmap str File.chunks) :
  File.write path x (<[path := c]> fs) = <[path := c ++ [x]]> fs.
Proof. unfold File.write. by rewrite alter_insert_eq. Qed.

Lemma write_lookup (path : str) (x : str) (c : File.chunks)
      (fs : gmap str File.chunks) :
  fs !! path = Some c -> File.write path x fs = <[path := c ++ [x]]> fs.
Proof.
  intros H. rewrite <- (insert_id fs path c) at 1 by done.
  apply write_insert.
Qed.

End FileFacts.

Section Writer1.

Import Ndjson.

Variable json_dumps : Rec.record -> str.
Variable path_join : str -> str -> str.
Variables (output_dir file_name : str).

Abbreviation state := Ndjson.state.
Abbreviation write_step := (write_step json_dumps path_join output_dir file_name).
Abbreviation write_loop := (write_loop json_dumps path_join output_dir file_name).
Abbreviation flush := (flush path_join output_dir file_name).
Abbreviation write_final := (write_final path_join output_dir file_name).

Lemma fold_write_insert (path : str) (records : list str) :
  forall (c : File.chunks) (fs : gmap str File.chunks),
  fold_left (fun fs record => File.write path (record ++ [LF]) fs)
            records (<[path := c]> fs)
  = <[path := c ++ List.map (fun r => r ++ [LF]) records]> fs.
Proof.
  induction records as [|r records IH]; intros c fs;
    cbn [fold_left List.map].
  - by rewrite app_nil_r.
  - rewrite write_insert, IH. by rewrite <- app_assoc.
Qed.

Lemma write_records_insert (path : str) (records : list str)
      (fs : gmap str File.chunks) :
  write_records path records fs
  = <[path := List.map (fun r => r ++ [LF]) records]> fs.
Proof. unfold write_records, File.open_w. by rewrite fold_write_insert. Qed.

Lemma inv1_flush (st : state) : inv1 st -> inv1 (flush st).
Proof.
  intros (F & C & P). unfold inv1, Ndjson.flush, pending.
  cbn [files current_file_size output_records List.map].
  rewrite write_records_insert. split; [|split].
  - by apply map_Forall_insert_2.
  - done.
  - left. by vm_compute.
Qed.

Lemma inv1_step (st : state) (idx : Z) (s : section) :
  inv1 st -> inv1 (write_step st idx s).
Proof.
  intros I. unfold Ndjson.write_step.
  set (line := json_dumps (json_record file_name idx s)).
  destruct ((MAX_FILE_SIZE <? current_file_size st + (utf8_len line + 1))
            && truthy (output_records st)) eqn:E.
  - apply inv1_flush in I. destruct I as (F & C & P).
    unfold inv1, pending, Ndjson.flush in *.
    cbn [files current_file_size output_records List.map app] in *.
    split; [done|]. split.
    + rewrite bytes_single, utf8_len_app, utf8_len_LF. lia.
    + apply shard_ok_single.
  - destruct I as (F & C & P).
    unfold inv1, pending in *.
    cbn [files current_file_size output_records].
    rewrite map_app; cbn [List.map].
    assert (File.bytes
              (List.map (fun r => r ++ [LF]) (output_records st)
               ++ [line ++ [LF]])
            = current_file_size st + (utf8_len line + 1)) as B.
    { by rewrite bytes_snoc, utf8_len_app, utf8_len_LF, <- C. }
    split; [done|]. split; [done|].
    apply andb_false_iff in E as [E|E].
    + left. apply Z.ltb_ge in E.
      etransitivity; [apply Z.eq_le_incl; exact B | exact E].
    + destruct (output_records st); [|done]. apply shard_ok_single.
Qed.

Lemma inv1_loop (sections : list section) : forall st idx,
  inv1 st -> inv1 (write_loop st idx sections).
Proof.
  induction sections as [|s rest IH]; intros st idx I; simpl; [done|].
  by apply IH, inv1_step.
Qed.

Lemma inv1_final (st : state) :
  inv1 st -> map_Forall (fun _ c => shard_ok MAX_FILE_SIZE c) (write_final st).
Proof.
  intros (F & C & P). unfold Ndjson.write_final.
  destruct (truthy (output_records st)); [|done].
  rewrite write_records_insert. by apply map_Forall_insert_2.
Qed.

Lemma write_sections_ok (sections : list section) :
  map_Forall (fun _ c => shard_ok MAX_FILE_SIZE c)
    (write_sections json_dumps path_join output_dir file_name sections).
Proof.
  apply inv1_final, inv1_loop.
  split; [apply map_Forall_empty|]. split; [done|].
  left. by vm_compute.
Qed.

End Writer1.

Section Writer2.

Import Minimax.

Variable json_dumps : Rec.record -> str.
Variables (output_file : str) (max_file_size : Z).

Abbreviation write_step2 := (write_step json_dumps output_file max_file_size).

Abbreviation inv2 := (inv2 max_file_size).

(** Writing the first line of a part that has just been opened. *)
Lemma inv2_fresh (st : wstate) (line : str) (n count : Z) :
  map_Forall (fun _ c => shard_ok max_file_size c) (files st) ->
  let path := part_path output_file n in
  inv2 {| record_count := count;
          current_file_size := 0 + utf8_len line;
          part_num := n;
          current_output := Some path;
          files := File.write path line (File.open_w path (files st)) |}.
Proof.
  intros F path. unfold inv2, File.open_w.
  cbn [files current_output current_file_size].
  rewrite write_insert. split.
  - apply map_Forall_insert_2; [apply shard_ok_single | done].
  - exists [line]. rewrite lookup_insert_eq, bytes_single. split; [done|lia].
Qed.

Lemma inv2_step (st : wstate) (s : section) :
  inv2 st -> inv2 (write_step2 st s).
Proof.
  intros (F & C). unfold Minimax.write_step, is_open.
  set (line := json_dumps (record_of s) ++ [LF]).
  destruct (current_output st) as [path|] eqn:O.
  - destruct C as (c & L & C).
    destruct (max_file_size <? current_file_size st + utf8_len line) eqn:E;
      cbn [andb].
    + unfold close_part, open_part;
        cbn [current_output files current_file_size part_num record_count].
      by apply inv2_fresh.
    + rewrite O. unfold inv2.
      cbn [current_output files current_file_size].
      rewrite O, (write_lookup _ _ c) by done.
      apply Z.ltb_ge in E. split.
      * apply map_Forall_insert_2; [|done].
        left. rewrite bytes_snoc. lia.
      * exists (c ++ [line]).
        rewrite lookup_insert_eq, bytes_snoc. split; [done|lia].
  - rewrite andb_false_r, O.
    unfold open_part;
      cbn [current_output files current_file_size part_num record_count].
    rewrite C. by apply inv2_fresh.
Qed.

Lemma inv2_fold (sections : list section) : forall st,
  inv2 st -> inv2 (fold_left write_step2 sections st).
Proof.
  induction sections as [|s rest IH]; intros st I; simpl; [done|].
  by apply IH, inv2_step.
Qed.

Lemma write_sections2_ok (sections : list section) :
  map_Forall (fun _ c => shard_ok max_file_size c)
    (files (write_sections json_dumps output_file max_file_size sections)).
Proof.
  unfold write_sections.
  apply inv2_fold. split; [apply map_Forall_empty | done].
Qed.

End Writer2.

(** C1.  Whatever the records and the budget, every shard file the
    writers produce has at most as many bytes (line terminators
    included) as the budget allows, unless it holds exactly one record
    whose own line, with its terminator, is larger than the budget.  The
    first script's budget is its constant [MAX_FILE_SIZE], the second
    script's is the argument [max_file_size]. *)
Theorem C1_shard_size_bound :
  (forall (json_dumps : Rec.record -> str) (path_join : str -> str -> str)
          (output_dir file_name : str) (sections : list Ndjson.section),
      map_Forall (fun _ c => shard_ok Ndjson.MAX_FILE_SIZE c)
        (Ndjson.write_sections json_dumps path_join output_dir file_name
                               sections))
  /\
  (forall (json_dumps : Rec.record -> str) (output_file : str)
          (max_file_size : Z) (sections : list Minimax.section),
      map_Forall (fun _ c => shard_ok max_file_size c)
        (Minimax.files
           (Minimax.write_sections json_dumps output_file max_file_size
                                   sections))).
Proof.
  split.
  - intros. apply write_sections_ok.
  - intros. apply write_sections2_ok.
Qed.

(* ===================================================================== *)
(** * Sorting file names                                                  *)
(* ===================================================================== *)

Section Sorting.

Lemma str_leb_refl (a : str) : str_leb a a = true.
Proof.
  induction a as [|x a IH]; simpl; [done|].
  by rewrite N.eqb_refl, IH, orb_true_r.
Qed.

Lemma str_leb_total (a : str) : forall b,
  str_leb a b = true \/ str_leb b a = true.
Proof.
  induction a as [|x a IH]; intros [|y b]; simpl; auto.
  destruct (N.lt_trichotomy x y) as [L|[->|L]].
  - left. apply N.ltb_lt in L. by rewrite L.
  - rewrite N.eqb_refl, N.ltb_irrefl. simpl. apply IH.
  - right. apply N.ltb_lt in L. by rewrite L.
Qed.

Lemma str_leb_antisym (a : str) : forall b,
  str_leb a b = true -> str_leb b a = true -> a = b.
Proof.
  induction a as [|x a IH]; intros [|y b]; simpl; try done.
  rewrite !orb_true_iff, !andb_true_iff, !N.ltb_lt, !N.eqb_eq.
  intros [L|[-> H1]] [L'|[E H2]]; try lia.
  f_equal. by apply IH.
Qed.

Lemma str_leb_trans (a : str) : forall b c,
  str_leb a b = true -> str_leb b c = true -> str_leb a c = true.
Proof.
  induction a as [|x a IH]; intros [|y b] [|z c]; simpl; try done.
  rewrite !orb_true_iff, !andb_true_iff, !N.ltb_lt, !N.eqb_eq.
  intros [L|[-> H1]] [L'|[-> H2]].
  - left. lia.
  - left. lia.
  - left. lia.
  - right. split; [done|]. by eapply IH.
Qed.

(** A common prefix plays no role in the comparison. *)
Lemma str_leb_app_l (p a b : str) : str_leb (p ++ a) (p ++ b) = str_leb a b.
Proof.
  induction p as [|x p IH]; simpl; [done|].
  by rewrite N.ltb_irrefl, N.eqb_refl, IH.
Qed.

#[local] Instance str_le_trans : Transitive str_le.
Proof. intros a b c. apply str_leb_trans. Qed.

#[local] Instance str_le_antisym : AntiSymm (=) str_le.
Proof. intros a b. apply str_leb_antisym. Qed.

Lemma insert_sorted_perm (x : str) (l : list str) :
  insert_sorted x l ≡ₚ x :: l.
Proof.
  induction l as [|y l IH]; simpl; [done|].
  destruct (str_leb x y); [done|].
  rewrite IH. apply Permutation_swap.
Qed.

Lemma sorted_perm (l : list str) : sorted l ≡ₚ l.
Proof.
  induction l as [|x l IH]; simpl; [done|].
  by rewrite insert_sorted_perm, IH.
Qed.

Lemma insert_sorted_Sorted (x : str) (l : list str) :
  Sorted str_le l -> Sorted str_le (insert_sorted x l).
Proof.
  induction 1 as [|y l S IH H]; simpl.
  - repeat constructor.
  - destruct (str_leb x y) eqn:E.
    + constructor; [by constructor | by constructor].
    + constructor; [done|].
      assert (str_le y x) as Hyx
          by (destruct (str_leb_total x y) as [T|T]; [congruence | done]).
      destruct H as [|z l Hz]; simpl.
      * by constructor.
      * destruct (str_leb x z); by constructor.
Qed.

(** [sorted] returns its argument in ascending order. *)
Lemma sorted_StronglySorted (l : list str) : StronglySorted str_le (sorted l).
Proof.
  apply Sorted_StronglySorted; [apply str_le_trans|].
  induction l as [|x l IH]; simpl; [constructor|].
  by apply insert_sorted_Sorted.
Qed.

Lemma filter_StronglySorted (f : str -> bool) (l : list str) :
  StronglySorted str_le l -> StronglySorted str_le (List.filter f l).
Proof.
  induction 1 as [|x l S IH H]; simpl; [constructor|].
  destruct (f x); [|done]. constructor; [done|].
  apply List.Forall_forall. intros y Hy%filter_In.
  rewrite List.Forall_forall in H. apply H. tauto.
Qed.

(** Sorting any arrangement of an ascending list gives that list. *)
Lemma sorted_of_perm (l l' : list str) :
  l ≡ₚ l' -> StronglySorted str_le l' -> sorted l = l'.
Proof.
  intros P S. apply (StronglySorted_unique str_le); [|done|].
  - apply sorted_StronglySorted.
  - by rewrite sorted_perm.
Qed.

End Sorting.

(* ===================================================================== *)
(** * The fine-tuning transformation                                      *)
(* ===================================================================== *)

Section FineTuningFacts.

Import Minimax.

Variable json_loads : str -> Minimax.exn + Json.value.
Variable json_dumps : Json.value -> Minimax.exn + str.
Variable glob : str -> list str.
Variable py_repr : Json.value -> str.

Abbreviation process_file' := (process_file json_loads json_dumps py_repr).
Abbreviation process_files' := (process_files json_loads json_dumps py_repr).

Lemma reads_app (t1 t2 : list event) : reads (t1 ++ t2) = reads t1 ++ reads t2.
Proof.
  induction t1 as [|e t1 IH]; simpl; [done|].
  destruct e; simpl; by rewrite IH.
Qed.

Lemma reads_writes (path : str) (out : list str) :
  reads (List.map (Write path) out) = [].
Proof. induction out; simpl; done. Qed.

Lemma reads_block (p : str) (out : list str) : reads (block p out) = [p].
Proof.
  unfold block. rewrite !reads_app, reads_writes. done.
Qed.

Lemma reads_blocks (ps : list str) : forall outs,
  length outs = length ps -> reads (blocks ps outs) = ps.
Proof.
  induction ps as [|p ps IH]; intros [|o outs] L; simpl in L; try done.
  cbn [blocks]. rewrite reads_app, reads_block, IH by lia. done.
Qed.

(** One input file: either it cannot be opened and nothing happens, or
    its whole block of events is added to the trace. *)
Lemma process_file_trace (w : world) (p : str) :
  (fs w !! p = None /\ process_file' w p = (w, Some (FileNotFoundError p)))
  \/ exists out, trace (fst (process_file' w p)) = trace w ++ block p out.
Proof.
  unfold process_file. destruct (fs w !! p) as [c|]; [right | by left].
  destruct (transform_lines _ _ _ _) as [out e]. exists out. done.
Qed.

Lemma process_files_trace (files : list str) : forall w,
  exists ps outs,
    ps `prefix_of` files /\ length outs = length ps
    /\ trace (fst (process_files' w files)) = trace w ++ blocks ps outs
    /\ (snd (process_files' w files) = None -> ps = files).
Proof.
  induction files as [|p files IH]; intros w; cbn [process_files].
  - exists [], []. simpl. by rewrite app_nil_r.
  - destruct (process_file_trace w p) as [[_ E]|[out T]].
    + rewrite E. exists [], []. simpl. rewrite app_nil_r.
      split; [apply prefix_nil|]. done.
    + destruct (process_file' w p) as [w' [e|]] eqn:P; cbn [fst snd] in *.
      * exists [p], [out]. simpl. rewrite app_nil_r.
        split; [by apply prefix_cons, prefix_nil|]. done.
      * destruct (IH w') as (ps & outs & Pre & L & T' & N).
        exists (p :: ps), (out :: outs). simpl.
        split; [by apply prefix_cons|]. split; [lia|]. split.
        -- by rewrite T', T, <- app_assoc.
        -- intros H. by rewrite N.
Qed.

Lemma part_files_not_finetuned (input_file : str) :
  Forall (fun f => endswith finetuning_suffix f = false)
         (part_files glob input_file).
Proof.
  unfold part_files. apply List.Forall_forall.
  intros f [_ H]%filter_In. by apply negb_true_iff.
Qed.

Lemma input_files_not_finetuned (input_file : str) (files : list str) :
  input_files glob input_file = Some files ->
  Forall (fun f => endswith finetuning_suffix f = false) files.
Proof.
  unfold input_files.
  destruct (truthy (part_files glob input_file)); simpl.
  - intros [= <-]. apply part_files_not_finetuned.
  - destruct (endswith finetuning_suffix input_file) eqn:E; [done|].
    intros [= <-]. by constructor.
Qed.

End FineTuningFacts.

(** C9.  No file whose name ends with "_finetuning.ndjson" is ever an
    input: the list of input files holds none, a run opens none for
    reading, and a run on such a file for which no part file is found
    does nothing at all. *)
Theorem C9_finetuned_files_are_not_inputs
    (json_loads : str -> Minimax.exn + Json.value)
    (json_dumps : Json.value -> Minimax.exn + str)
    (glob : str -> list str) (py_repr : Json.value -> str)
    (w : Minimax.world) (input_file output_file : str) :
  (forall files, Minimax.input_files glob input_file = Some files ->
                 Forall (fun f => endswith (u "_finetuning.ndjson") f = false)
                        files)
  /\ (exists t,
         Minimax.trace
           (fst (Minimax.convert_ndjson_to_finetuning
                   json_loads json_dumps glob py_repr w input_file output_file))
         = Minimax.trace w ++ t
         /\ Forall (fun f => endswith (u "_finetuning.ndjson") f = false)
                   (reads t))
  /\ (endswith (u "_finetuning.ndjson") input_file = true ->
      Minimax.part_files glob input_file = [] ->
      Minimax.convert_ndjson_to_finetuning
        json_loads json_dumps glob py_repr w input_file output_file
      = (w, None)).
Proof.
  split; [|split].
  - intros files. apply input_files_not_finetuned.
  - unfold Minimax.convert_ndjson_to_finetuning.
    destruct (Minimax.input_files glob input_file) as [files|] eqn:I.
    + apply input_files_not_finetuned in I.
      destruct (process_files_trace json_loads json_dumps py_repr files w)
        as (ps & outs & [k ->] & L & T & _).
      exists (blocks ps outs). split; [done|].
      rewrite reads_blocks by done.
      by apply Forall_app in I as [I _].
    + exists []. simpl. rewrite app_nil_r. split; [done | constructor].
  - intros E P. unfold Minimax.convert_ndjson_to_finetuning, Minimax.input_files.
    rewrite P. simpl.
    change Minimax.finetuning_suffix with (u "_finetuning.ndjson").
    by rewrite E.
Qed.

Lemma C9_witness :
  Minimax.convert_ndjson_to_finetuning
    loads_nothing dumps_nothing (fun _ => []) (fun _ => [])
    {| Minimax.fs := ∅; Minimax.trace := [] |}
    (u "guide_part_1_finetuning.ndjson") (u "out.ndjson")
  = ({| Minimax.fs := ∅; Minimax.trace := [] |}, None).
Proof.
  apply (proj2 (proj2 (C9_finetuned_files_are_not_inputs
                         loads_nothing dumps_nothing (fun _ => [])
                         (fun _ => [])
                         {| Minimax.fs := ∅; Minimax.trace := [] |}
                         (u "guide_part_1_finetuning.ndjson")
                         (u "out.ndjson"))));
    reflexivity.
Defined.

Section ShardOrder.

(** The names of shards 1 to [n], for [n] up to nine, are in ascending
    order as strings. *)
Lemma part_names_sorted (base : str) (n : nat) :
  (n <= 9)%nat ->
  StronglySorted str_le (List.map (part_name base) (seq 1 n)).
Proof.
  intros Hn.
  do 10 (destruct n as [|n];
         [ cbn [seq List.map]; repeat constructor;
           unfold str_le, part_name; rewrite str_leb_app_l; reflexivity
         | ]).
  lia.
Qed.

Lemma filter_all (f : str -> bool) (l : list str) :
  Forall (fun x => f x = true) l -> List.filter f l = l.
Proof. induction 1 as [|x l E _ IH]; simpl; [done|]. by rewrite E, IH. Qed.

End ShardOrder.

(* ===================================================================== *)
(** * Further properties of the section splitters                         *)
(* ===================================================================== *)

Section SplitterShapes.

Lemma dropwhile_idem (f : N -> bool) (s : str) :
  dropwhile f (dropwhile f s) = dropwhile f s.
Proof.
  induction s as [|c s IH]; simpl; [done|].
  destruct (f c) eqn:E; [done|]. simpl. by rewrite E.
Qed.

Lemma rstrip_cons_nonspace (c : N) (t : str) :
  isspace c = false -> exists t', rstrip (c :: t) = c :: t'.
Proof.
  intros E. unfold rstrip. simpl. rewrite dropwhile_app.
  destruct (dropwhile isspace (rev t)) as [|x r].
  - simpl. rewrite E. by exists [].
  - rewrite rev_app_distr. simpl. eauto.
Qed.

(** [strip] twice is [strip] once. *)
Lemma strip_idem (s : str) : strip (strip s) = strip s.
Proof.
  unfold strip, lstrip.
  destruct (dropwhile isspace s) as [|c t] eqn:D.
  - reflexivity.
  - assert (isspace c = false) as E.
    { clear -D. induction s as [|x s IH]; simpl in D; [done|].
      destruct (isspace x) eqn:X; [auto | by inversion D; subst]. }
    destruct (rstrip_cons_nonspace c t E) as [t' R].
    rewrite R. simpl. rewrite E.
    rewrite <- R. unfold rstrip. by rewrite rev_involutive, dropwhile_idem.
Qed.

Lemma shape1_snoc (secs : list Ndjson.section) (cur : Ndjson.section) :
  inv_split1 (secs, cur) -> shape1 (secs ++ [cur]).
Proof.
  intros ((L & T & I & S) & Sc & D). cbn [fst snd] in *.
  assert (0 <= Ndjson.level cur <= 3) as Lc by (destruct D as [(-> & _)|]; lia).
  split; [|split; [|split]].
  - apply Forall_app. split; [done|]. by apply Forall_singleton.
  - destruct secs as [|s secs]; [constructor|]. cbn [tail app] in *.
    apply Forall_app. split; [done|]. apply Forall_singleton.
    destruct D as [(_ & _ & ?)|]; [done|lia].
  - apply Forall_app. split; [done|]. apply Forall_singleton.
    intros Z0. destruct D as [(_ & ? & _)|]; [done|lia].
  - apply Forall_app. split; [done|]. by apply Forall_singleton.
Qed.

Lemma inv_split1_append (b : bool) secs cur :
  inv_split1 (secs, cur) -> shape1 (Ndjson.append_if b secs cur).
Proof.
  intros H. destruct b; simpl; [by apply shape1_snoc | apply H].
Qed.

Lemma inv_split1_step (st : list Ndjson.section * Ndjson.section) line :
  inv_split1 st -> inv_split1 (Ndjson.step st line).
Proof.
  destruct st as [secs cur]. intros H.
  destruct (step_cases secs cur line) as [[_ ->]|(k & Hk & _ & ->)].
  - destruct H as (Sh & St & D). split; [done|]. split; [done|]. done.
  - split; [by apply inv_split1_append|]. cbn [fst snd opened Ndjson.title Ndjson.level].
    split; [apply strip_idem|]. right. destruct Hk as [Hk _]. lia.
Qed.

Lemma inv_split1_fold (lines : list str) : forall st,
  inv_split1 st -> inv_split1 (fold_left Ndjson.step lines st).
Proof.
  induction lines as [|l lines IH]; intros st H; simpl; [done|].
  by apply IH, inv_split1_step.
Qed.

Lemma split1_shape (lines : list str) :
  shape1 (Ndjson.split_lines_into_sections lines).
Proof.
  unfold Ndjson.split_lines_into_sections.
  pose proof (inv_split1_fold lines ([], Ndjson.initial_section)) as H.
  destruct (fold_left Ndjson.step lines ([], Ndjson.initial_section))
    as [secs cur].
  apply inv_split1_append, H.
  split; [by repeat constructor|]. split; [by vm_compute|]. left. done.
Qed.

End SplitterShapes.

(** X1.  In the first script every section has a level from 0 to 3, only the
    first section of the result can have level 0, and a section of level
    0 is titled "Introduction". *)
Theorem X_levels_of_sections (content : str) :
  Forall (fun s => 0 <= Ndjson.level s <= 3)
         (Ndjson.split_markdown_into_sections content)
  /\ Forall (fun s => 1 <= Ndjson.level s)
            (tail (Ndjson.split_markdown_into_sections content))
  /\ Forall (fun s => Ndjson.level s = 0 ->
                      Ndjson.title s = u "Introduction")
            (Ndjson.split_markdown_into_sections content).
Proof.
  destruct (split1_shape (split_lines content)) as (L & T & I & _).
  done.
Qed.

(** X2.  In the first script no title has whitespace at its start or at its
    end. *)
Theorem X_titles_are_stripped (content : str) :
  Forall (fun s => strip (Ndjson.title s) = Ndjson.title s)
         (Ndjson.split_markdown_into_sections content).
Proof. by destruct (split1_shape (split_lines content)) as (_ & _ & _ & S). Qed.

Section Splitter2Shapes.

Import Minimax.

Lemma indices_S (n : nat) : indices (S n) = indices n ++ [Z.of_nat n].
Proof. unfold indices. by rewrite seq_S, map_app. Qed.

Lemma heading_match_level (line g1 g2 : str) :
  heading_match line = Some (g1, g2) -> 1 <= Z.of_nat (length g1) <= 3.
Proof.
  intros (k & ws & tl & Hk & -> & _)%heading_match_sound.
  rewrite repeat_length. lia.
Qed.

(** Saving keeps the numbering: the saved section takes the next index. *)
Lemma inv_split2_save secs cur index :
  inv_split2 (secs, cur, index) ->
  inv_split2 (fst (save secs cur), None,
              if snd (save secs cur) then index + 1 else index).
Proof.
  intros (I & M & F & C). unfold save.
  destruct cur as [c|]; [|done].
  destruct (truthy (strip (content c))) eqn:T; cbn [fst snd]; [|done].
  destruct C as (Ci & Cl & Ct).
  split; [rewrite length_app; simpl; lia|]. split; [|split; [|done]].
  - rewrite map_app, length_app, M. simpl.
    replace (length secs + 1)%nat with (S (length secs)) by lia.
    rewrite indices_S. by rewrite Ci, I.
  - apply Forall_app. split; [done|]. apply Forall_singleton.
    split; [done|]. split; [done|]. by destruct (strip (content c)).
Qed.

Lemma inv_split2_step (st : state) (line : str) :
  inv_split2 st -> inv_split2 (step st line).
Proof.
  destruct st as [[secs cur] index]. intros H. unfold step.
  destruct (heading_match line) as [[g1 g2]|] eqn:E.
  - apply inv_split2_save in H.
    destruct (save secs cur) as [secs' saved]. cbn [fst snd] in H.
    destruct H as (I & M & F & _).
    split; [done|]. split; [done|]. split; [done|].
    split; [done|]. split; [by eapply heading_match_level | apply strip_idem].
  - destruct cur as [c|]; [|done].
    destruct H as (I & M & F & C). done.
Qed.

Lemma inv_split2_fold (lines : list str) : forall st,
  inv_split2 st -> inv_split2 (fold_left step lines st).
Proof.
  induction lines as [|l lines IH]; intros st H; simpl; [done|].
  by apply IH, inv_split2_step.
Qed.

(** The last filter of the function removes nothing: every saved section
    has text. *)
Lemma filter_clean (secs : list section) :
  Forall (fun s => strip (content s) <> []) secs ->
  List.filter (fun s => 0 <? content_length s) (List.map clean secs)
  = List.map clean secs.
Proof.
  induction 1 as [|s secs H _ IH]; simpl; [done|].
  rewrite IH. destruct (strip (content s)) as [|c r] eqn:S; [done|].
  assert ((0 <? Z.of_nat (length (c :: r))) = true) as ->
      by (apply Z.ltb_lt; simpl; lia).
  done.
Qed.

Lemma split2_result (lines : list str) :
  exists secs,
    split_lines_into_sections lines = List.map clean secs
    /\ List.map section_index secs = indices (length secs)
    /\ Forall (fun s => 1 <= heading_level s <= 3
                        /\ strip (title s) = title s
                        /\ strip (content s) <> []) secs.
Proof.
  unfold split_lines_into_sections.
  pose proof (inv_split2_fold lines ([], None, 0)) as H.
  destruct (fold_left step lines ([], None, 0)) as [[secs cur] index].
  assert (inv_split2 ([], None, 0)) as H0 by (by repeat split).
  apply H, inv_split2_save in H0. destruct H0 as (_ & M & F & _).
  exists (fst (save secs cur)). split; [|done].
  apply filter_clean. eapply Forall_impl; [exact F|]. simpl. tauto.
Qed.

End Splitter2Shapes.

(** X3.  In the second script the sections of the result carry the indices
    0, 1, 2, ... in this order, without gap. *)
Theorem X_section_indices_count_from_zero (content : str) :
  List.map Minimax.section_index (Minimax.split_markdown_into_sections content)
  = List.map Z.of_nat
      (seq 0 (length (Minimax.split_markdown_into_sections content))).
Proof.
  unfold Minimax.split_markdown_into_sections.
  destruct (split2_result (split_lines content)) as (secs & -> & M & _).
  rewrite length_map, map_map. exact M.
Qed.

(** X4.  In the second script every section of the result has a level from 1
    to 3, a title and a content without whitespace around them, a content
    that is not empty, and a [content_length] equal to the length of its
    content. *)
Theorem X_sections_have_text (content : str) :
  Forall (fun s =>
            1 <= Minimax.heading_level s <= 3
            /\ strip (Minimax.title s) = Minimax.title s
            /\ Minimax.content s <> []
            /\ strip (Minimax.content s) = Minimax.content s
            /\ Minimax.content_length s
               = Z.of_nat (length (Minimax.content s)))
         (Minimax.split_markdown_into_sections content).
Proof.
  unfold Minimax.split_markdown_into_sections.
  destruct (split2_result (split_lines content)) as (secs & -> & _ & F).
  apply Forall_fmap. eapply Forall_impl; [exact F|].
  intros s (L & T & C). cbn.
  split; [done|]. split; [done|]. split; [done|].
  split; [apply strip_idem | done].
Qed.

Section TwoSplitters.

Lemma split_lines_no_LF (s : str) :
  Forall (fun line => Forall (fun c => c <> LF) line) (split_lines s).
Proof.
  induction s as [|c s IH]; simpl.
  - by repeat constructor.
  - destruct (c =? LF)%N eqn:E.
    + constructor; [constructor | done].
    + apply N.eqb_neq in E.
      destruct (split_lines s) as [|l ls]; [by repeat constructor|].
      inversion IH; subst. constructor; [by constructor | done].
Qed.

(** Splitting at line feeds and joining with line feeds gives the text
    again. *)
Lemma join_split_lines (s : str) : join_lines (split_lines s) = s.
Proof.
  induction s as [|c s IH]; simpl; [done|].
  pose proof (split_lines_nonempty s) as NE.
  destruct (c =? LF)%N eqn:E.
  - apply N.eqb_eq in E as ->.
    destruct (split_lines s) as [|l ls]; [done|]. simpl in *. by rewrite IH.
  - destruct (split_lines s) as [|l ls]; [done|].
    rewrite <- IH. by destruct ls.
Qed.

End TwoSplitters.

(** X5.  On a line without line feed the two scripts agree in one case only:
    a line that the first script takes as a heading of level [k] and that
    has something after the space is a heading of level [k] for the
    second script, and a heading of the second script whose hashes are
    followed by a space is a heading of that level for the first. *)
Theorem X_heading_tests_agree (k : nat) (line : str) :
  Forall (fun c => c <> LF) line ->
  (hash_heading k line /\ (k + 1 < length line)%nat)
  <-> (regex_heading k line /\ line !! k = Some SPACE).
Proof.
  intros NL. split.
  - intros [[Hk [rest ->]] Len].
    rewrite length_app, repeat_length in Len. simpl in Len.
    apply Forall_app in NL as [_ NL]. inversion NL as [|? ? _ NR]; subst.
    split.
    + split; [done|]. exists [SPACE], rest, [].
      split; [done|]. split; [by repeat constructor|].
      split; [destruct rest; simpl in *; [lia | done]|].
      split; [done|]. split; [by left|]. by rewrite app_nil_r.
    + apply list_lookup_middle. by rewrite repeat_length.
  - intros [(Hk & ws & body & tl & Hws & Fws & Hb & Fb & Htl & ->) L].
    destruct ws as [|w ws]; [done|].
    pose proof (list_lookup_middle (repeat HASH k) (ws ++ body ++ tl) w k
                  (eq_sym (repeat_length HASH k))) as M.
    assert (Some w = Some SPACE) as [= ->] by exact (eq_trans (eq_sym M) L).
    clear M L. split.
    + split; [done|]. by exists (ws ++ body ++ tl).
    + rewrite !length_app, repeat_length. simpl.
      destruct body; simpl; [done|lia].
Qed.

Lemma X_heading_tests_agree_witness :
  (hash_heading 2 (u "## Sub") /\ (2 + 1 < length (u "## Sub"))%nat)
  <-> (regex_heading 2 (u "## Sub") /\ u "## Sub" !! 2%nat = Some SPACE).
Proof.
  apply (X_heading_tests_agree 2 (u "## Sub")).
  repeat constructor; by vm_compute.
Defined.

(** X6.  First script, document without heading lines: the content of the
    record built for its only section is the text of the document,
    unchanged, and [content_length] is the length of that text. *)
Theorem X_record_of_plain_document (file_name content : str) :
  (forall line k, In line (split_lines content) -> ~ hash_heading k line) ->
  List.map (Ndjson.json_record file_name 0)
           (Ndjson.split_markdown_into_sections content)
  = [ {| Rec.id := file_name ++ u "_section_0";
         Rec.source_file := file_name;
         Rec.section_index := 0;
         Rec.heading_level := 0;
         Rec.title := u "Introduction";
         Rec.content := content;
         Rec.content_length := Z.of_nat (length content) |} ].
Proof.
  intros H.
  assert (Ndjson.split_markdown_into_sections content
          = [ {| Ndjson.title := u "Introduction"; Ndjson.level := 0;
                 Ndjson.content := split_lines content |} ]) as ->.
  { unfold Ndjson.split_markdown_into_sections,
      Ndjson.split_lines_into_sections.
    rewrite fold_step_no_heading.
    - pose proof (split_lines_nonempty content) as NE.
      unfold Ndjson.content_or_titled; simpl.
      by destruct (split_lines content).
    - apply List.Forall_forall. intros line Hin.
      destruct (is_heading1 line) eqn:E; [|done].
      apply is_heading1_spec in E as [k Hk]. by destruct (H line k). }
  unfold Ndjson.json_record. simpl. by rewrite join_split_lines.
Qed.

Lemma X_record_of_plain_document_witness :
  List.map (Ndjson.json_record (u "doc") 0)
           (Ndjson.split_markdown_into_sections (u "Hello" ++ LF :: u "World"))
  = [ {| Rec.id := u "doc_section_0";
         Rec.source_file := u "doc";
         Rec.section_index := 0;
         Rec.heading_level := 0;
         Rec.title := u "Introduction";
         Rec.content := u "Hello" ++ LF :: u "World";
         Rec.content_length := 11 |} ].
Proof.
  apply (X_record_of_plain_document (u "doc") (u "Hello" ++ LF :: u "World")).
  intros line k Hin Hk.
  assert (is_heading1 line = true) as E by (apply is_heading1_spec; eauto).
  destruct Hin as [<-|[<-|[]]]; vm_compute in E; discriminate E.
Defined.

(* ===================================================================== *)
(** * Replacing [.ndjson], and decimal numbers                            *)
(* ===================================================================== *)

Section ReplaceFacts.

Lemma u_inj (a b : string) : u a = u b -> a = b.
Proof.
  unfold u. intros H.
  rewrite <- (string_of_list_ascii_of_string a),
          <- (string_of_list_ascii_of_string b).
  f_equal. revert H. generalize (list_ascii_of_string a) as x.
  generalize (list_ascii_of_string b) as y.
  intros y x; revert y; induction x as [|c x IH]; intros [|d y] H;
    simpl in H; try done.
  inversion H as [[E T]]. f_equal; [|by apply IH].
  unfold code in E.
  by rewrite <- (ascii_N_embedding c), <- (ascii_N_embedding d), E.
Qed.

(** [str(n)] tells the integers apart. *)
Lemma str_of_int_inj (a b : Z) : str_of_int a = str_of_int b -> a = b.
Proof.
  unfold str_of_int. intros H%u_inj.
  apply DecimalZ.to_int_inj.
  assert (Some (Z.to_int a) = Some (Z.to_int b)) as [= E]; [|done].
  by rewrite <- !NilEmpty.isi, H.
Qed.

Lemma replace_from_drop (old new : str) (s : str) : forall skip,
  replace_from skip old new s = replace_from 0 old new (drop skip s).
Proof.
  induction s as [|c s IH]; intros [|k]; simpl; done.
Qed.

Lemma startswith_length (p s : str) :
  startswith p s = true -> (length p <= length s)%nat.
Proof.
  intros [rest ->]%startswith_spec. rewrite length_app. lia.
Qed.

(** An occurrence at the start is replaced, and the search goes on after
    it. *)
Lemma replace_here (old new t : str) :
  old <> [] -> replace old new (old ++ t) = new ++ replace old new t.
Proof.
  intros NE. destruct old as [|c old]; [done|].
  unfold replace. cbn [app replace_from].
  change (c :: old ++ t) with ((c :: old) ++ t). rewrite startswith_app.
  f_equal. rewrite replace_from_drop. cbn [length Nat.pred].
  by rewrite drop_app_length.
Qed.

(** No occurrence at the start: the first character is kept. *)
Lemma replace_next (old new : str) (c : N) (s : str) :
  startswith old (c :: s) = false ->
  replace old new (c :: s) = c :: replace old new s.
Proof. intros H. unfold replace. cbn [replace_from]. by rewrite H. Qed.

(** Without any occurrence nothing changes. *)
Lemma replace_absent (old new s : str) :
  old <> [] -> occurs old s = false -> replace old new s = s.
Proof.
  intros NE. induction s as [|c s IH]; [done|].
  cbn [occurs]. intros [H1 H2]%orb_false_iff.
  rewrite replace_next by done. by rewrite IH.
Qed.

Lemma startswith_app_l (p a t : str) :
  (length p <= length a)%nat -> startswith p (a ++ t) = startswith p a.
Proof.
  revert a. induction p as [|x p IH]; intros [|y a] L; simpl in *;
    try done; try lia.
  rewrite IH by lia. done.
Qed.

(** [.ndjson] does not overlap itself: an occurrence cannot start less
    than seven characters before another one. *)
Lemma ndjson_no_overlap (x t : str) :
  x <> [] -> (length x < 7)%nat ->
  startswith (u ".ndjson") (x ++ u ".ndjson" ++ t) = false.
Proof.
  intros NE L.
  destruct x as [|x1 [|x2 [|x3 [|x4 [|x5 [|x6 [|x7 x]]]]]]];
    [done| | | | | | | simpl in L; lia];
    cbn [app u List.map list_ascii_of_string startswith];
    repeat match goal with
           | |- context [(?a =? ?b)%N] =>
               lazymatch b with
               | N_of_ascii _ => fail
               | code _ => fail
               | _ => destruct (a =? b)%N
               end
           end; reflexivity.
Qed.

End ReplaceFacts.

(* ===================================================================== *)
(** * Further properties of the shard writers                             *)
(* ===================================================================== *)

Section SizeFacts.

Lemma utf8_len_nonneg (s : str) : 0 <= utf8_len s.
Proof.
  induction s as [|c s IH]; simpl; [lia|].
  unfold utf8_width. repeat case_match; lia.
Qed.

Lemma bytes_app (a b : File.chunks) :
  File.bytes (a ++ b) = File.bytes a + File.bytes b.
Proof. unfold File.bytes. by rewrite concat_app, utf8_len_app. Qed.

Lemma bytes_nonneg (c : File.chunks) : 0 <= File.bytes c.
Proof. apply utf8_len_nonneg. Qed.

End SizeFacts.

Section WriterMore1.

Import Ndjson.

Variable json_dumps : Rec.record -> str.
Variable path_join : str -> str -> str.
Variables (output_dir file_name : str).

Abbreviation step1 := (write_step json_dumps path_join output_dir file_name).
Abbreviation loop1 := (write_loop json_dumps path_join output_dir file_name).
Abbreviation path1 := (output_path path_join output_dir file_name).
Abbreviation recs1 := (records1 json_dumps file_name).
Abbreviation chunk := (fun r : str => r ++ [LF]).

Lemma step1_nonempty (st : state) (idx : Z) (s : section) :
  output_records (step1 st idx s) <> [].
Proof.
  unfold write_step. cbn [output_records]. intros H.
  by apply app_eq_nil in H as [_ H].
Qed.

Lemma loop1_nonempty (rest : list section) : forall st idx,
  output_records st <> [] -> output_records (loop1 st idx rest) <> [].
Proof.
  induction rest as [|s rest IH]; intros st idx H; simpl; [done|].
  apply IH, step1_nonempty.
Qed.

(** While everything fits in the budget nothing is flushed. *)
Lemma loop1_under_budget (rest : list section) : forall recs idx,
  File.bytes (List.map chunk (recs ++ recs1 idx rest)) <= MAX_FILE_SIZE ->
  loop1 {| current_file_size := File.bytes (List.map chunk recs);
           file_number := 1; output_records := recs; files := ∅ |}
        idx rest
  = {| current_file_size :=
         File.bytes (List.map chunk (recs ++ recs1 idx rest));
       file_number := 1;
       output_records := recs ++ recs1 idx rest;
       files := ∅ |}.
Proof.
  induction rest as [|s rest IH]; intros recs idx B; cbn [write_loop records1].
  - by rewrite app_nil_r.
  - cbn [records1] in B.
    set (line := json_dumps (json_record file_name idx s)) in *.
    assert (File.bytes (List.map chunk (recs ++ [line]))
            = File.bytes (List.map chunk recs) + (utf8_len line + 1)) as E.
    { rewrite map_app, bytes_app. cbn [List.map].
      by rewrite bytes_single, utf8_len_app, utf8_len_LF. }
    assert (step1 {| current_file_size := File.bytes (List.map chunk recs);
                     file_number := 1; output_records := recs; files := ∅ |}
                  idx s
            = {| current_file_size :=
                   File.bytes (List.map chunk (recs ++ [line]));
                 file_number := 1; output_records := recs ++ [line];
                 files := ∅ |}) as ->.
    { unfold write_step. fold line.
      cbn [current_file_size output_records].
      assert ((MAX_FILE_SIZE
               <? File.bytes (List.map chunk recs) + (utf8_len line + 1))
              = false) as ->.
      { apply Z.ltb_ge. rewrite <- E.
        replace (recs ++ line :: recs1 (idx + 1) rest)
          with ((recs ++ [line]) ++ recs1 (idx + 1) rest) in B
          by (by rewrite <- app_assoc).
        rewrite map_app, bytes_app in B.
        pose proof (bytes_nonneg (List.map chunk (recs1 (idx + 1) rest))).
        lia. }
      cbn [andb]. cbn [current_file_size file_number output_records files].
      by rewrite E. }
    rewrite IH; rewrite <- app_assoc; done.
Qed.

End WriterMore1.

Section WriterMore2.

Import Minimax.

Variable json_dumps : Rec.record -> str.
Variables (output_file : str) (max_file_size : Z).

Abbreviation step2 := (write_step json_dumps output_file max_file_size).
Abbreviation path2 := (part_path output_file).
Abbreviation line2 := (fun s => json_dumps (record_of s) ++ [LF]).

(** After a step a part is open. *)
Lemma step2_open (st : wstate) (s : section) : is_open (step2 st s) = true.
Proof.
  unfold write_step, is_open, close_part, open_part.
  destruct (current_output st) as [p|] eqn:O;
    destruct (max_file_size <? _);
    cbn [andb current_output]; rewrite ?O; reflexivity.
Qed.

Lemma fold2_open (rest : list section) : forall st,
  is_open st = true -> is_open (fold_left step2 rest st) = true.
Proof.
  induction rest as [|s rest IH]; intros st H; simpl; [done|].
  apply IH, step2_open.
Qed.

(** While everything fits in the budget the first part stays open. *)
Lemma fold2_under_budget (rest : list section) : forall done count,
  File.bytes (done ++ lines2 json_dumps rest) <= max_file_size ->
  exists count',
    fold_left step2 rest
      {| record_count := count; current_file_size := File.bytes done;
         part_num := 1; current_output := Some (path2 1);
         files := <[path2 1 := done]> ∅ |}
    = {| record_count := count';
         current_file_size := File.bytes (done ++ lines2 json_dumps rest);
         part_num := 1; current_output := Some (path2 1);
         files := <[path2 1 := done ++ lines2 json_dumps rest]> ∅ |}.
Proof.
  induction rest as [|s rest IH]; intros done count B;
    cbn [fold_left lines2 List.map].
  - exists count. by rewrite app_nil_r.
  - unfold lines2 in B. cbn [List.map] in B. fold (lines2 json_dumps rest) in B.
    set (line := json_dumps (record_of s) ++ [LF]) in *.
    assert (step2 {| record_count := count;
                     current_file_size := File.bytes done;
                     part_num := 1; current_output := Some (path2 1);
                     files := <[path2 1 := done]> ∅ |} s
            = {| record_count := count + 1;
                 current_file_size := File.bytes (done ++ [line]);
                 part_num := 1; current_output := Some (path2 1);
                 files := <[path2 1 := done ++ [line]]> ∅ |}) as ->.
    { unfold write_step, is_open. fold line.
      cbn [current_file_size current_output].
      assert ((max_file_size <? File.bytes done + utf8_len line) = false)
        as ->.
      { apply Z.ltb_ge.
        replace (done ++ line :: lines2 json_dumps rest)
          with ((done ++ [line]) ++ lines2 json_dumps rest) in B
          by (by rewrite <- app_assoc).
        rewrite bytes_app, bytes_snoc in B.
        pose proof (bytes_nonneg (lines2 json_dumps rest)). lia. }
      cbn [andb current_output record_count current_file_size part_num files].
      by rewrite write_insert, bytes_snoc. }
    destruct (IH (done ++ [line]) (count + 1)) as [count' E].
    + by rewrite <- app_assoc.
    + exists count'. rewrite E. by rewrite <- !app_assoc.
Qed.

End WriterMore2.

(** X7.  A shard file is produced exactly when there is at least one record:
    no section, no file; one section or more, at least one file. *)
Theorem X_files_iff_records :
  (forall (json_dumps : Rec.record -> str) (path_join : str -> str -> str)
          (output_dir file_name : str) (sections : list Ndjson.section),
      Ndjson.write_sections json_dumps path_join output_dir file_name sections
      = ∅ <-> sections = [])
  /\
  (forall (json_dumps : Rec.record -> str) (output_file : str)
          (max_file_size : Z) (sections : list Minimax.section),
      Minimax.files
        (Minimax.write_sections json_dumps output_file max_file_size sections)
      = ∅ <-> sections = []).
Proof.
  split.
  - intros json_dumps path_join output_dir file_name sections. split.
    + destruct sections as [|s rest]; [done|]. intros H. exfalso.
      unfold Ndjson.write_sections, Ndjson.write_final in H.
      cbn [Ndjson.write_loop] in H.
      pose proof (loop1_nonempty json_dumps path_join output_dir file_name
                    rest _ 1 (step1_nonempty json_dumps path_join output_dir
                                file_name
                                {| Ndjson.current_file_size := 0;
                                   Ndjson.file_number := 1;
                                   Ndjson.output_records := [];
                                   Ndjson.files := ∅ |} 0 s)) as NE.
      cbn in NE.
      destruct (Ndjson.output_records _) as [|r recs] eqn:O in H; [done|].
      cbn [truthy] in H. rewrite write_records_insert in H.
      by apply insert_non_empty in H.
    + by intros ->.
  - intros json_dumps output_file max_file_size sections. split.
    + destruct sections as [|s rest]; [done|]. intros H. exfalso.
      unfold Minimax.write_sections in H. cbn [fold_left] in H.
      set (st0 := {| Minimax.record_count := 0;
                     Minimax.current_file_size := 0;
                     Minimax.part_num := 1;
                     Minimax.current_output := None;
                     Minimax.files := ∅ |}) in H.
      pose proof (fold2_open json_dumps output_file max_file_size rest _
                    (step2_open json_dumps output_file max_file_size st0 s))
        as O.
      assert (inv2 max_file_size st0) as I0
          by (split; [apply map_Forall_empty | done]).
      apply (inv2_step json_dumps output_file max_file_size st0 s) in I0.
      apply (inv2_fold json_dumps output_file max_file_size rest) in I0.
      destruct I0 as [_ C]. unfold Minimax.is_open in O.
      destruct (Minimax.current_output _) as [p|]; [|done].
      destruct C as (c & L & _). rewrite H in L. by rewrite lookup_empty in L.
    + by intros ->.
Qed.

(** X8.  When all the lines together fit in the budget, a run with at least
    one record writes exactly one file, part 1, and it holds every line
    in order. *)
Theorem X_one_part_under_budget :
  (forall (json_dumps : Rec.record -> str) (path_join : str -> str -> str)
          (output_dir file_name : str) (sections : list Ndjson.section),
      sections <> [] ->
      File.bytes (List.map (fun r => r ++ [LF])
                           (records1 json_dumps file_name 0 sections))
      <= Ndjson.MAX_FILE_SIZE ->
      Ndjson.write_sections json_dumps path_join output_dir file_name sections
      = {[ Ndjson.output_path path_join output_dir file_name 1
           := List.map (fun r => r ++ [LF])
                       (records1 json_dumps file_name 0 sections) ]})
  /\
  (forall (json_dumps : Rec.record -> str) (output_file : str)
          (max_file_size : Z) (sections : list Minimax.section),
      sections <> [] ->
      File.bytes (lines2 json_dumps sections) <= max_file_size ->
      Minimax.files
        (Minimax.write_sections json_dumps output_file max_file_size sections)
      = {[ Minimax.part_path output_file 1 := lines2 json_dumps sections ]}).
Proof.
  split.
  - intros json_dumps path_join output_dir file_name sections NE B.
    unfold Ndjson.write_sections.
    pose proof (loop1_under_budget json_dumps path_join output_dir file_name
                  sections [] 0) as L.
    cbn [app List.map] in L. change (File.bytes []) with 0 in L.
    rewrite L by done.
    unfold Ndjson.write_final.
    cbn [Ndjson.output_records Ndjson.files Ndjson.file_number].
    destruct sections as [|s rest]; [done|]. cbn [records1 truthy].
    rewrite write_records_insert. by rewrite insert_empty.
  - intros json_dumps output_file max_file_size sections NE B.
    destruct sections as [|s rest]; [done|].
    unfold Minimax.write_sections. cbn [fold_left].
    set (line := json_dumps (Minimax.record_of s) ++ [LF]).
    assert (Minimax.write_step json_dumps output_file max_file_size
              {| Minimax.record_count := 0; Minimax.current_file_size := 0;
                 Minimax.part_num := 1; Minimax.current_output := None;
                 Minimax.files := ∅ |} s
            = {| Minimax.record_count := 0 + 1;
                 Minimax.current_file_size := File.bytes [line];
                 Minimax.part_num := 1;
                 Minimax.current_output :=
                   Some (Minimax.part_path output_file 1);
                 Minimax.files :=
                   <[Minimax.part_path output_file 1 := [line]]> ∅ |}) as ->.
    { unfold Minimax.write_step, Minimax.is_open, Minimax.open_part.
      fold line. cbn [Minimax.current_output]. rewrite andb_false_r.
      cbn [Minimax.current_output Minimax.record_count
           Minimax.current_file_size Minimax.part_num Minimax.files].
      unfold File.open_w. by rewrite write_insert, bytes_single. }
    destruct (fold2_under_budget json_dumps output_file max_file_size rest
                [line] (0 + 1)) as [count' E]; [done|].
    refine (eq_trans (f_equal Minimax.files E) _).
    cbn [Minimax.files]. by rewrite insert_empty.
Qed.

Lemma X_one_part_under_budget_witness :
  Minimax.files
    (Minimax.write_sections (fun r => Rec.title r) (u "out.ndjson") 100
       [ {| Minimax.section_index := 0; Minimax.heading_level := 1;
            Minimax.title := u "A"; Minimax.content := u "x";
            Minimax.content_length := 1 |};
         {| Minimax.section_index := 1; Minimax.heading_level := 2;
            Minimax.title := u "B"; Minimax.content := u "y";
            Minimax.content_length := 1 |} ])
  = {[ Minimax.part_path (u "out.ndjson") 1
       := lines2 (fun r => Rec.title r)
            [ {| Minimax.section_index := 0; Minimax.heading_level := 1;
                 Minimax.title := u "A"; Minimax.content := u "x";
                 Minimax.content_length := 1 |};
              {| Minimax.section_index := 1; Minimax.heading_level := 2;
                 Minimax.title := u "B"; Minimax.content := u "y";
                 Minimax.content_length := 1 |} ] ]}.
Proof.
  apply (proj2 X_one_part_under_budget); [done | by vm_compute].
Defined.

Section PartsFacts.

Lemma shard_contents_S (f : Z -> str) (files : gmap str File.chunks) (m : nat) :
  shard_contents f files (S m)
  = shard_contents f files m
    ++ default [] (files !! f (Z.of_nat (S m)) : option File.chunks).
Proof.
  unfold shard_contents. rewrite seq_S, flat_map_app. simpl.
  by rewrite app_nil_r.
Qed.

Lemma shard_contents_ext (f : Z -> str) (files files' : gmap str File.chunks)
      (m : nat) :
  (forall k, (1 <= k <= m)%nat ->
             files !! f (Z.of_nat k) = files' !! f (Z.of_nat k)) ->
  shard_contents f files m = shard_contents f files' m.
Proof.
  induction m as [|m IH]; intros H; [done|].
  rewrite !shard_contents_S, IH, H; [done | lia |].
  intros k Hk. apply H. lia.
Qed.

(** Writing a part with a new number leaves the earlier parts alone, as
    long as different numbers give different names. *)
Lemma shard_contents_insert (f : Z -> str) (files : gmap str File.chunks)
      (m n : nat) (c : File.chunks) :
  (forall a b, f a = f b -> a = b) -> (m < n)%nat ->
  shard_contents f (<[f (Z.of_nat n) := c]> files) m
  = shard_contents f files m.
Proof.
  intros Inj L. apply shard_contents_ext. intros k Hk.
  apply lookup_insert_ne. intros E%Inj. lia.
Qed.

End PartsFacts.

Section PartsWriter2.

Import Minimax.

Variable json_dumps : Rec.record -> str.
Variables (output_file : str) (max_file_size : Z).
Hypothesis names_differ :
  forall a b, part_path output_file a = part_path output_file b -> a = b.

Abbreviation step2' := (write_step json_dumps output_file max_file_size).
Abbreviation path2' := (part_path output_file).

(** Opening part [n] and writing its first line. *)
Lemma inv_parts2_fresh (fs : gmap str File.chunks) (n : nat) (line : str)
      (done : list str) (count size : Z) :
  shard_contents path2' fs n = done ->
  (forall q, is_Some (fs !! q)
             <-> exists k, (1 <= k <= n)%nat /\ q = path2' (Z.of_nat k)) ->
  map_Forall (fun _ c => c <> []) fs ->
  inv_parts2 path2'
    {| record_count := count; current_file_size := size;
       part_num := Z.of_nat (S n);
       current_output := Some (path2' (Z.of_nat (S n)));
       files := File.write (path2' (Z.of_nat (S n))) line
                  (File.open_w (path2' (Z.of_nat (S n))) fs) |}
    (done ++ [line]).
Proof.
  intros C D NE. unfold inv_parts2, File.open_w.
  cbn [current_output files part_num]. rewrite write_insert.
  exists n, [line]. split; [done|]. split; [done|].
  split; [apply lookup_insert_eq|]. split; [|split].
  - rewrite shard_contents_insert by (done || lia). by rewrite C.
  - intros q. rewrite lookup_insert_is_Some, D. split.
    + intros [<-|[_ (k & Hk & ->)]]; [exists (S n) | exists k];
        (split; [lia | done]).
    + intros (k & Hk & ->).
      destruct (decide (k = S n)) as [->|]; [by left|]. right. split.
      * intros E%names_differ. lia.
      * exists k. split; [lia | done].
  - apply map_Forall_insert_2; done.
Qed.

Lemma inv_parts2_step (st : wstate) (s : section) (done : list str) :
  inv_parts2 path2' st done ->
  inv_parts2 path2' (step2' st s) (done ++ [json_dumps (record_of s) ++ [LF]]).
Proof.
  intros I. unfold inv_parts2 in I. unfold write_step, is_open.
  set (line := json_dumps (record_of s) ++ [LF]).
  destruct (current_output st) as [p|] eqn:O.
  - destruct I as (m & c & N & -> & L & C & D & NE).
    destruct (max_file_size <? current_file_size st + utf8_len line);
      cbn [andb].
    + unfold close_part, open_part;
        cbn [current_output files current_file_size part_num record_count].
      rewrite N.
      replace (Z.of_nat (S m) + 1) with (Z.of_nat (S (S m))) by lia.
      apply inv_parts2_fresh; [|done|done].
      rewrite shard_contents_S, L. done.
    + rewrite O. unfold inv_parts2.
      cbn [current_output files current_file_size part_num].
      rewrite O, (write_lookup _ _ c) by done.
      exists m, (c ++ [line]). split; [done|]. split; [done|].
      split; [apply lookup_insert_eq|]. split; [|split].
      * rewrite shard_contents_insert by (done || lia).
        rewrite app_assoc. by rewrite C.
      * intros q. rewrite lookup_insert_is_Some, <- D. split.
        -- intros [<-|[_ ?]]; [by rewrite L | done].
        -- intros H. destruct (decide (path2' (Z.of_nat (S m)) = q)); auto.
      * apply map_Forall_insert_2; [|done].
        intros E. by apply app_eq_nil in E as [_ E].
  - destruct I as (N & E & ->). rewrite andb_false_r, O.
    unfold open_part;
      cbn [current_output files current_file_size part_num record_count].
    rewrite N, E. change 1 with (Z.of_nat 1).
    apply (inv_parts2_fresh ∅ 0 line []); [done| |apply map_Forall_empty].
    intros q. rewrite lookup_empty. split; [by intros [? ?]|].
    intros (k & Hk & _). lia.
Qed.

Lemma inv_parts2_fold (rest : list section) : forall st done,
  inv_parts2 path2' st done ->
  inv_parts2 path2' (fold_left step2' rest st)
             (done ++ lines2 json_dumps rest).
Proof.
  induction rest as [|s rest IH]; intros st done I; cbn [fold_left lines2 List.map].
  - by rewrite app_nil_r.
  - apply (inv_parts2_step st s) in I. apply IH in I.
    by rewrite <- app_assoc in I.
Qed.

Lemma parts2_result (sections : list section) :
  exists n : nat,
    shard_contents path2'
      (files (write_sections json_dumps output_file max_file_size sections)) n
    = lines2 json_dumps sections
    /\ (forall q,
          is_Some (files (write_sections json_dumps output_file max_file_size
                            sections) !! q)
          <-> exists k, (1 <= k <= n)%nat /\ q = path2' (Z.of_nat k))
    /\ map_Forall (fun _ c => c <> [])
         (files (write_sections json_dumps output_file max_file_size sections)).
Proof.
  unfold write_sections.
  set (st0 := {| record_count := 0; current_file_size := 0; part_num := 1;
                 current_output := None; files := ∅ |}).
  assert (inv_parts2 path2' st0 []) as I by done.
  apply (inv_parts2_fold sections) in I. cbn [app] in I.
  unfold inv_parts2 in I.
  destruct (current_output (fold_left step2' sections st0)) as [p|].
  - destruct I as (m & c & N & -> & L & C & D & NE).
    exists (S m). rewrite shard_contents_S, L. done.
  - destruct I as (_ & -> & E). exists 0%nat. rewrite E.
    split; [done|]. split; [|apply map_Forall_empty].
    intros q. rewrite lookup_empty. split; [by intros [? ?]|].
    intros (k & Hk & _). lia.
Qed.

End PartsWriter2.

Section NdjsonNames.

(** A name [base.ndjson] whose [base] does not contain [.ndjson]: only
    the extension is replaced. *)
Lemma replace_extension (new base : str) :
  occurs (u ".ndjson") base = false ->
  replace (u ".ndjson") new (base ++ u ".ndjson") = base ++ new.
Proof.
  induction base as [|c base IH]; intros H.
  - cbn [app]. rewrite <- (app_nil_r (u ".ndjson")) at 2.
    rewrite replace_here by done. by rewrite app_nil_r.
  - cbn [occurs] in H. apply orb_false_iff in H as [H1 H2].
    cbn [app]. rewrite replace_next; [by rewrite IH|].
    destruct (le_lt_dec 7 (length (c :: base))) as [L|L].
    + change (c :: base ++ u ".ndjson") with ((c :: base) ++ u ".ndjson").
      by rewrite startswith_app_l.
    + rewrite <- (app_nil_r (u ".ndjson")) at 2.
      by apply (ndjson_no_overlap (c :: base) []).
Qed.

(** Such an output file gives every part a name of its own, the name
    [base_part_<k>.ndjson]. *)
Lemma part_path_extension (base : str) (k : Z) :
  occurs (u ".ndjson") base = false ->
  Minimax.part_path (base ++ u ".ndjson") k
  = base ++ u "_part_" ++ str_of_int k ++ u ".ndjson".
Proof. intros H. unfold Minimax.part_path. by rewrite replace_extension. Qed.

Lemma part_path_inj (base : str) (a b : Z) :
  occurs (u ".ndjson") base = false ->
  Minimax.part_path (base ++ u ".ndjson") a
  = Minimax.part_path (base ++ u ".ndjson") b ->
  a = b.
Proof.
  intros H. rewrite !part_path_extension by done.
  intros E%app_inv_head%app_inv_head%app_inv_tail.
  by apply str_of_int_inj.
Qed.

End NdjsonNames.

(** X9.  Second script, when different part numbers give different file
    names: the files written are exactly the parts 1 to [n] for some [n],
    none of them is empty, and read one after the other in the order of
    their numbers they hold every serialised record once, in the order of
    the sections. *)
Theorem X_parts_hold_every_record
    (json_dumps : Rec.record -> str) (output_file : str) (max_file_size : Z)
    (sections : list Minimax.section) :
  (forall a b, Minimax.part_path output_file a = Minimax.part_path output_file b
               -> a = b) ->
  exists n : nat,
    shard_contents (Minimax.part_path output_file)
      (Minimax.files
         (Minimax.write_sections json_dumps output_file max_file_size sections))
      n
    = List.map (fun s => json_dumps (Minimax.record_of s) ++ [LF]) sections
    /\ (forall q,
          is_Some (Minimax.files
                     (Minimax.write_sections json_dumps output_file
                        max_file_size sections) !! q)
          <-> exists k, (1 <= k <= n)%nat
                        /\ q = Minimax.part_path output_file (Z.of_nat k))
    /\ map_Forall (fun _ c => c <> [])
         (Minimax.files
            (Minimax.write_sections json_dumps output_file max_file_size
                                    sections)).
Proof. intros H. by apply parts2_result. Qed.

Lemma X_parts_hold_every_record_witness :
  exists n : nat,
    shard_contents (Minimax.part_path (u "out.ndjson"))
      (Minimax.files
         (Minimax.write_sections (fun r => Rec.title r) (u "out.ndjson") 3
            [ Minimax.mkSection 0 1 (u "A") (u "x") 1;
              Minimax.mkSection 1 2 (u "B") (u "y") 1 ]))
      n
    = List.map (fun s => Rec.title (Minimax.record_of s) ++ [LF])
        [ Minimax.mkSection 0 1 (u "A") (u "x") 1;
          Minimax.mkSection 1 2 (u "B") (u "y") 1 ]
    /\ (forall q,
          is_Some (Minimax.files
                     (Minimax.write_sections (fun r => Rec.title r)
                        (u "out.ndjson") 3
                        [ Minimax.mkSection 0 1 (u "A") (u "x") 1;
                          Minimax.mkSection 1 2 (u "B") (u "y") 1 ]) !! q)
          <-> exists k, (1 <= k <= n)%nat
                        /\ q = Minimax.part_path (u "out.ndjson") (Z.of_nat k))
    /\ map_Forall (fun _ c => c <> [])
         (Minimax.files
            (Minimax.write_sections (fun r => Rec.title r) (u "out.ndjson") 3
               [ Minimax.mkSection 0 1 (u "A") (u "x") 1;
                 Minimax.mkSection 1 2 (u "B") (u "y") 1 ])).
Proof.
  apply (X_parts_hold_every_record (fun r => Rec.title r) (u "out.ndjson") 3).
  intros a b. apply (part_path_inj (u "out")). reflexivity.
Defined.

Section PartsWriter1.

Import Ndjson.

Variable json_dumps : Rec.record -> str.
Variable path_join : str -> str -> str.
Variables (output_dir file_name : str).
Hypothesis names_differ :
  forall a b, output_path path_join output_dir file_name a
              = output_path path_join output_dir file_name b -> a = b.

Abbreviation step1' := (write_step json_dumps path_join output_dir file_name).
Abbreviation loop1' := (write_loop json_dumps path_join output_dir file_name).
Abbreviation path1' := (output_path path_join output_dir file_name).

Lemma inv_parts1_step (st : state) (idx : Z) (s : section) (done : list str) :
  inv_parts1 path1' st done ->
  inv_parts1 path1' (step1' st idx s)
    (done ++ [json_dumps (json_record file_name idx s) ++ [LF]]).
Proof.
  intros (m & N & C & D & NE). unfold write_step.
  set (line := json_dumps (json_record file_name idx s)).
  destruct ((MAX_FILE_SIZE <? current_file_size st + (utf8_len line + 1))
            && truthy (output_records st)) eqn:E.
  - apply andb_true_iff in E as [_ T].
    assert (pending st <> []) as P
        by (unfold pending; destruct (output_records st); done).
    unfold flush, inv_parts1, pending in *.
    cbn [files file_number output_records List.map app].
    rewrite write_records_insert, N.
    exists (S m). split; [lia|]. split; [|split].
    + rewrite shard_contents_S, lookup_insert_eq.
      rewrite shard_contents_insert by (done || lia).
      cbn [default]. f_equal. exact C.
    + intros q. rewrite lookup_insert_is_Some, D. split.
      * intros [<-|[_ (k & Hk & ->)]]; [exists (S m) | exists k];
          (split; [lia | done]).
      * intros (k & Hk & ->).
        destruct (decide (k = S m)) as [->|]; [by left|]. right. split.
        -- intros H%names_differ. lia.
        -- exists k. split; [lia | done].
    + by apply map_Forall_insert_2.
  - exists m. unfold pending in *.
    cbn [files file_number output_records].
    split; [done|]. split; [|done].
    rewrite map_app. cbn [List.map]. rewrite app_assoc. f_equal. exact C.
Qed.

Lemma inv_parts1_loop (rest : list section) : forall st idx done,
  inv_parts1 path1' st done ->
  inv_parts1 path1' (loop1' st idx rest)
    (done ++ List.map (fun r => r ++ [LF])
                      (records1 json_dumps file_name idx rest)).
Proof.
  induction rest as [|s rest IH]; intros st idx done I;
    cbn [write_loop records1 List.map].
  - by rewrite app_nil_r.
  - apply (inv_parts1_step st idx s) in I. apply (IH _ (idx + 1)) in I.
    by rewrite <- app_assoc in I.
Qed.

Lemma parts1_result (sections : list section) :
  exists n : nat,
    shard_contents path1'
      (write_sections json_dumps path_join output_dir file_name sections) n
    = List.map (fun r => r ++ [LF]) (records1 json_dumps file_name 0 sections)
    /\ (forall q,
          is_Some (write_sections json_dumps path_join output_dir file_name
                                  sections !! q)
          <-> exists k, (1 <= k <= n)%nat /\ q = path1' (Z.of_nat k))
    /\ map_Forall (fun _ c => c <> [])
         (write_sections json_dumps path_join output_dir file_name sections).
Proof.
  unfold write_sections.
  set (st0 := {| current_file_size := 0; file_number := 1;
                 output_records := []; files := ∅ |}).
  assert (inv_parts1 path1' st0 []) as I.
  { exists 0%nat. split; [done|]. split; [done|].
    split; [|apply map_Forall_empty].
    intros q. unfold st0; cbn [files]. rewrite lookup_empty.
    split; [by intros [? ?]|]. intros (k & Hk & _). lia. }
  apply (inv_parts1_loop sections _ 0) in I. cbn [app] in I.
  destruct I as (m & N & C & D & NE). unfold write_final.
  unfold pending in C.
  destruct (output_records (loop1' st0 0 sections)) as [|r recs] eqn:O;
    cbn [truthy].
  - exists m. cbn [List.map] in C. rewrite app_nil_r in C. done.
  - rewrite write_records_insert, N. exists (S m). split; [|split].
    + rewrite shard_contents_S, lookup_insert_eq.
      by rewrite shard_contents_insert by (done || lia).
    + intros q. rewrite lookup_insert_is_Some, D. split.
      * intros [<-|[_ (k & Hk & ->)]]; [exists (S m) | exists k];
          (split; [lia | done]).
      * intros (k & Hk & ->).
        destruct (decide (k = S m)) as [->|]; [by left|]. right. split.
        -- intros H%names_differ. lia.
        -- exists k. split; [lia | done].
    + by apply map_Forall_insert_2.
Qed.

End PartsWriter1.

(** X10.  First script, when different part numbers give different file
    names: the files written are exactly the parts 1 to [n] for some [n], none
    of them is empty, and read one after the other in the order of their
    numbers they hold every serialised record once, each followed by a
    line feed, in the order of the sections. *)
Theorem X_parts_hold_every_record1
    (json_dumps : Rec.record -> str) (path_join : str -> str -> str)
    (output_dir file_name : str) (sections : list Ndjson.section) :
  (forall a b, Ndjson.output_path path_join output_dir file_name a
               = Ndjson.output_path path_join output_dir file_name b -> a = b) ->
  exists n : nat,
    shard_contents (Ndjson.output_path path_join output_dir file_name)
      (Ndjson.write_sections json_dumps path_join output_dir file_name sections)
      n
    = List.map (fun r => r ++ [LF]) (records1 json_dumps file_name 0 sections)
    /\ (forall q,
          is_Some (Ndjson.write_sections json_dumps path_join output_dir
                     file_name sections !! q)
          <-> exists k, (1 <= k <= n)%nat
                        /\ q = Ndjson.output_path path_join output_dir
                                 file_name (Z.of_nat k))
    /\ map_Forall (fun _ c => c <> [])
         (Ndjson.write_sections json_dumps path_join output_dir file_name
                                sections).
Proof. intros H. by apply parts1_result. Qed.

Lemma X_parts_hold_every_record1_witness :
  exists n : nat,
    shard_contents
      (Ndjson.output_path (fun d f => d ++ u "/" ++ f) (u "json") (u "doc"))
      (Ndjson.write_sections (fun r => Rec.title r)
         (fun d f => d ++ u "/" ++ f) (u "json") (u "doc")
         [ Ndjson.mkSection (u "A") 1 [u "x"];
           Ndjson.mkSection (u "B") 2 [u "y"] ])
      n
    = List.map (fun r => r ++ [LF])
        (records1 (fun r => Rec.title r) (u "doc") 0
           [ Ndjson.mkSection (u "A") 1 [u "x"];
             Ndjson.mkSection (u "B") 2 [u "y"] ])
    /\ (forall q,
          is_Some (Ndjson.write_sections (fun r => Rec.title r)
                     (fun d f => d ++ u "/" ++ f) (u "json") (u "doc")
                     [ Ndjson.mkSection (u "A") 1 [u "x"];
                       Ndjson.mkSection (u "B") 2 [u "y"] ] !! q)
          <-> exists k, (1 <= k <= n)%nat
                        /\ q = Ndjson.output_path (fun d f => d ++ u "/" ++ f)
                                 (u "json") (u "doc") (Z.of_nat k))
    /\ map_Forall (fun _ c => c <> [])
         (Ndjson.write_sections (fun r => Rec.title r)
            (fun d f => d ++ u "/" ++ f) (u "json") (u "doc")
            [ Ndjson.mkSection (u "A") 1 [u "x"];
              Ndjson.mkSection (u "B") 2 [u "y"] ]).
Proof.
  apply (X_parts_hold_every_record1 (fun r => Rec.title r)
           (fun d f => d ++ u "/" ++ f) (u "json") (u "doc")).
  intros a b. unfold Ndjson.output_path.
  intros E%app_inv_head%app_inv_head%app_inv_head%app_inv_head%app_inv_tail.
  by apply str_of_int_inj.
Defined.

(* ===================================================================== *)
(** * Further properties of the fine-tuning transformation                *)
(* ===================================================================== *)

Section TransformFacts.

Import Minimax.

Variable json_loads : str -> Minimax.exn + Json.value.
Variable json_dumps : Json.value -> Minimax.exn + str.
Variable py_repr : Json.value -> str.

Abbreviation transform := (transform_lines json_loads json_dumps py_repr).
Abbreviation converts' := (converts json_loads json_dumps py_repr).
Abbreviation fails' := (fails json_loads json_dumps py_repr).

(** A blank line is skipped. *)
Lemma transform_blank (line : str) (rest : list str) :
  strip line = [] -> transform (line :: rest) = transform rest.
Proof. intros H. cbn [transform_lines]. by rewrite H. Qed.

(** A line that is converted gives one chunk, and the loop goes on. *)
Lemma transform_converts (line chunk : str) (rest : list str) :
  strip line <> [] ->
  converts' line chunk ->
  transform (line :: rest)
  = (chunk :: fst (transform rest), snd (transform rest)).
Proof.
  intros NB (record & fr & text & L & F & D & E & ->).
  cbn [transform_lines].
  destruct (strip line) eqn:S; [done|]. cbn [truthy negb].
  rewrite L, F, D, E. by destruct (transform rest).
Qed.

(** A line on which a step raises ends the loop. *)
Lemma transform_fails (line : str) (rest : list str) (e : exn) :
  strip line <> [] ->
  fails' line e ->
  transform (line :: rest) = ([], Some e).
Proof.
  intros NB H. unfold fails in H. cbn [transform_lines].
  destruct (strip line) eqn:S; [done|]. cbn [truthy negb].
  destruct H as [L|[(record & L & F)|[(record & fr & L & F & D)
                |(record & fr & text & L & F & D & E & ->)]]].
  - by rewrite L.
  - by rewrite L, F.
  - by rewrite L, F, D.
  - by rewrite L, F, D, E.
Qed.

(** A non-blank line is converted or fails. *)
Lemma line_cases (line : str) :
  (exists chunk, converts' line chunk) \/ (exists e, fails' line e).
Proof.
  unfold converts, fails.
  destruct (json_loads (strip line)) as [e|record] eqn:L; [right; eauto|].
  destruct (finetuning_record py_repr record) as [e|fr] eqn:F.
  { right. exists e. right. left. eauto. }
  destruct (json_dumps fr) as [e|text] eqn:D.
  { right. exists e. right. right. left. eauto. }
  destruct (File.encodable (text ++ [LF])) eqn:E.
  - left. exists (text ++ [LF]), record, fr, text. done.
  - right. exists UnicodeEncodeError. right. right. right.
    exists record, fr, text. done.
Qed.

(** The loop over a list in two pieces: when the first piece ends
    without exception, its output is followed by that of the second. *)
Lemma transform_app (pre rest : list str) (out : list str) :
  transform pre = (out, None) ->
  transform (pre ++ rest)
  = (out ++ fst (transform rest), snd (transform rest)).
Proof.
  revert out. induction pre as [|line pre IH]; intros out H.
  - cbn [transform_lines] in H. injection H as <-.
    cbn [app]. by destruct (transform rest).
  - cbn [app]. destruct (decide (strip line = [])) as [S|S].
    + rewrite transform_blank in * by done. by apply IH.
    + destruct (line_cases line) as [[chunk C]|[e F]].
      * rewrite (transform_converts line chunk) in * by done.
        destruct (transform pre) as [o [e|]] eqn:T; [done|].
        cbn [fst snd] in H. injection H as <-.
        by rewrite (IH o eq_refl).
      * rewrite (transform_fails line _ e) in H by done. done.
Qed.

(** The loop over lines that are all converted. *)
Lemma transform_all (lines : list str) :
  Forall (fun line : str => strip line <> [] ->
                            exists chunk, converts' line chunk) lines ->
  exists out : list str,
    transform lines = (out, None)
    /\ Forall2 converts'
               (List.filter (fun line : str => truthy (strip line)) lines) out.
Proof.
  induction 1 as [|line lines H _ IH].
  - exists []. split; [done | constructor].
  - destruct IH as (out & T & F).
    destruct (decide (strip line = [])) as [S|S].
    + exists out. rewrite transform_blank by done.
      cbn [List.filter]. rewrite S. cbn [truthy]. done.
    + destruct (H S) as (chunk & C).
      exists (chunk :: out). split.
      * rewrite (transform_converts line chunk) by done. by rewrite T.
      * cbn [List.filter].
        destruct (strip line) as [|c r] eqn:E; [done|]. cbn [truthy].
        by constructor.
Qed.

End TransformFacts.

(** X11.  When every non-blank line of the input is converted (it is
    parsed, its fine-tuning record is built and serialized, and the
    text can be encoded), the loop ends without exception and writes one
    chunk per non-blank input line, in the order of the input: the k-th
    chunk is the serialized fine-tuning record of the k-th non-blank
    line, followed by a line feed.  Blank lines give no output. *)
Theorem X_one_output_per_line
    (json_loads : str -> Minimax.exn + Json.value)
    (json_dumps : Json.value -> Minimax.exn + str)
    (py_repr : Json.value -> str) (lines : list str) :
  Forall (fun line : str =>
            strip line <> [] ->
            exists chunk, converts json_loads json_dumps py_repr line chunk)
         lines ->
  exists out : list str,
    Minimax.transform_lines json_loads json_dumps py_repr lines = (out, None)
    /\ Forall2 (converts json_loads json_dumps py_repr)
               (List.filter (fun line : str => truthy (strip line)) lines) out.
Proof. apply transform_all. Qed.

Lemma X_one_output_per_line_witness :
  exists out : list str,
    Minimax.transform_lines example_loads example_dumps (fun _ => [])
      [example_line ++ [LF]; u " " ++ [LF]; example_line ++ [LF]]
    = (out, None)
    /\ Forall2 (converts example_loads example_dumps (fun _ => []))
               (List.filter (fun line : str => truthy (strip line))
                  [example_line ++ [LF]; u " " ++ [LF]; example_line ++ [LF]])
               out.
Proof.
  apply (X_one_output_per_line example_loads example_dumps (fun _ => [])
           [example_line ++ [LF]; u " " ++ [LF]; example_line ++ [LF]]).
  assert (converts example_loads example_dumps (fun _ => [])
            (example_line ++ [LF]) (example_text ++ [LF])) as C.
  { eexists _, _, _. repeat split; vm_compute; reflexivity. }
  apply Forall_cons; split; [by eauto|].
  apply Forall_cons; split; [|apply Forall_cons; split; [by eauto|constructor]].
  intros H. exfalso. apply H. vm_compute. reflexivity.
Defined.

(** X12.  The loop stops at the first line on which a step raises: when
    the lines before it were converted without exception, the chunks
    written for them are kept, nothing is written for that line or for a
    later one, and the exception is the one raised, that of
    [json.loads] (JSONDecodeError, ValueError, ...), of the record
    access (KeyError, TypeError), of [json.dumps], or UnicodeEncodeError
    when the serialized text cannot be encoded. *)
Theorem X_first_bad_line_stops
    (json_loads : str -> Minimax.exn + Json.value)
    (json_dumps : Json.value -> Minimax.exn + str)
    (py_repr : Json.value -> str)
    (pre rest : list str) (line : str) (out : list str) (e : Minimax.exn) :
  Minimax.transform_lines json_loads json_dumps py_repr pre = (out, None) ->
  strip line <> [] ->
  fails json_loads json_dumps py_repr line e ->
  Minimax.transform_lines json_loads json_dumps py_repr (pre ++ line :: rest)
  = (out, Some e).
Proof.
  intros T NB Bad.
  rewrite (transform_app _ _ _ _ _ out T).
  rewrite (transform_fails _ _ _ line rest e NB Bad). cbn [fst snd].
  by rewrite app_nil_r.
Qed.

Lemma X_first_bad_line_stops_witness :
  Minimax.transform_lines example_loads example_dumps (fun _ => [])
    ([example_line ++ [LF]; u " " ++ [LF]]
     ++ (u "{" ++ [LF]) :: [example_line ++ [LF]])
  = ([example_text ++ [LF]], Some Minimax.JSONDecodeError).
Proof.
  apply (X_first_bad_line_stops example_loads example_dumps (fun _ => [])
           [example_line ++ [LF]; u " " ++ [LF]] [example_line ++ [LF]]
           (u "{" ++ [LF]) [example_text ++ [LF]] Minimax.JSONDecodeError).
  - vm_compute. reflexivity.
  - vm_compute. discriminate.
  - left. vm_compute. reflexivity.
Defined.

(** X13.  A record that is a dict without one of the keys title,
    heading_level, source_file, content raises KeyError for the first
    missing key in that order (the order in which the f-string and the
    messages read them); a record that is not a dict raises TypeError. *)
Theorem X_first_missing_key
    (py_repr : Json.value -> str) (items : list (str * Json.value))
    (found : list str) (key : str) (later : list str) :
  [u "title"; u "heading_level"; u "source_file"; u "content"]
  = found ++ key :: later ->
  Forall (fun k => is_Some (Json.lookup k items)) found ->
  Json.lookup key items = None ->
  Minimax.finetuning_record py_repr (Json.Object items)
  = inl (Minimax.KeyError key)
  /\ (forall record,
        (forall its, record <> Json.Object its) ->
        Minimax.finetuning_record py_repr record = inl Minimax.TypeError).
Proof.
  intros K F N. split.
  - unfold Minimax.finetuning_record, Minimax.getitem.
    destruct found as [|k1 found]; cbn [app] in K.
    { injection K as <- _. by rewrite N. }
    injection K as <- K. apply Forall_cons in F as [[v1 ->] F].
    destruct found as [|k2 found]; cbn [app] in K.
    { injection K as <- _. by rewrite N. }
    injection K as <- K. apply Forall_cons in F as [[v2 ->] F].
    destruct found as [|k3 found]; cbn [app] in K.
    { injection K as <- _. by rewrite N. }
    injection K as <- K. apply Forall_cons in F as [[v3 ->] F].
    destruct found as [|k4 found]; cbn [app] in K.
    { injection K as <- _. by rewrite N. }
    injection K as <- K. by destruct found.
  - intros record NO. destruct record; try done. by destruct (NO items0).
Qed.

Lemma X_first_missing_key_witness :
  Minimax.finetuning_record (fun _ => [])
    (Json.Object [(u "title", Json.Null); (u "content", Json.Null)])
  = inl (Minimax.KeyError (u "heading_level"))
  /\ (forall record,
        (forall its, record <> Json.Object its) ->
        Minimax.finetuning_record (fun _ => []) record = inl Minimax.TypeError).
Proof.
  apply (X_first_missing_key (fun _ => [])
           [(u "title", Json.Null); (u "content", Json.Null)]
           [u "title"] (u "heading_level") [u "source_file"; u "content"]).
  - reflexivity.
  - repeat constructor. vm_compute. eauto.
  - vm_compute. reflexivity.
Defined.

Section FineTuningPaths.

Import Minimax.

Lemma endswith_spec (p s : str) :
  endswith p s = true <-> exists a, s = a ++ p.
Proof.
  unfold endswith. rewrite startswith_spec. split.
  - intros [r E]. exists (rev r).
    apply (f_equal (@rev N)) in E.
    by rewrite rev_involutive, rev_app_distr, rev_involutive in E.
  - intros [a ->]. exists (rev a). by rewrite rev_app_distr.
Qed.

Lemma occurs_unfold (old s : str) :
  occurs old s
  = startswith old s || match s with [] => false | _ :: s' => occurs old s' end.
Proof. by destruct s. Qed.

Lemma occurs_inside (old a t : str) : occurs old (a ++ old ++ t) = true.
Proof.
  induction a as [|c a IH].
  - cbn [app]. by rewrite occurs_unfold, startswith_app.
  - cbn [app occurs]. rewrite IH. apply orb_true_r.
Qed.

(** A name that does not contain [.ndjson] is not the name of a
    fine-tuning file. *)
Lemma no_ndjson_not_finetuned (p : str) :
  occurs (u ".ndjson") p = false -> endswith finetuning_suffix p = false.
Proof.
  intros H. destruct (endswith finetuning_suffix p) eqn:E; [|done].
  apply endswith_spec in E as [a ->].
  assert (a ++ finetuning_suffix = (a ++ u "_finetuning") ++ u ".ndjson" ++ [])
    as E by (by rewrite <- app_assoc).
  rewrite E, occurs_inside in H. done.
Qed.

(** Replacing every [.ndjson] in a text that ends with [.ndjson] gives a
    text that ends with the replacement. *)
Lemma replace_suffix (new : str) (n : nat) : forall a : str,
  (length a <= n)%nat ->
  exists pre, replace (u ".ndjson") new (a ++ u ".ndjson") = pre ++ new.
Proof.
  assert (replace (u ".ndjson") new (u ".ndjson") = new) as Base.
  { rewrite <- (app_nil_r (u ".ndjson")) at 2.
    rewrite replace_here by done. by rewrite app_nil_r. }
  induction n as [|n IH]; intros a L.
  - destruct a; [|simpl in L; lia]. by exists [].
  - destruct a as [|c a]; [by exists []|].
    destruct (startswith (u ".ndjson") ((c :: a) ++ u ".ndjson")) eqn:SW.
    + destruct (le_lt_dec 7 (length (c :: a))) as [L7|L7].
      * rewrite startswith_app_l in SW by exact L7.
        apply startswith_spec in SW as [a' E]. rewrite E.
        rewrite <- app_assoc, replace_here by done.
        destruct (IH a') as [pre P].
        { apply (f_equal length) in E. rewrite length_app in E.
          simpl in E, L. lia. }
        exists (new ++ pre). by rewrite P, app_assoc.
      * pose proof (ndjson_no_overlap (c :: a) [] ltac:(done) L7) as NO.
        rewrite app_nil_r in NO. congruence.
    + cbn [app] in *. rewrite replace_next by done.
      destruct (IH a) as [pre P]; [simpl in L; lia|].
      exists (c :: pre). by rewrite P.
Qed.

Lemma output_path_suffix (p : str) :
  endswith (u ".ndjson") p = true ->
  endswith finetuning_suffix (output_path_of p) = true.
Proof.
  intros [a ->]%endswith_spec.
  destruct (replace_suffix finetuning_suffix (length a) a) as [pre P]; [lia|].
  unfold output_path_of. rewrite P. apply endswith_spec. eauto.
Qed.

Lemma before_last_extension (base : str) :
  before_last 46%N (base ++ u ".ndjson") = Some base.
Proof.
  induction base as [|x base IH]; [done|].
  cbn [app before_last]. by rewrite IH.
Qed.

End FineTuningPaths.

Section FineTuningFiles.

Import Minimax.

Variable json_loads : str -> Minimax.exn + Json.value.
Variable json_dumps : Json.value -> Minimax.exn + str.
Variable py_repr : Json.value -> str.

Lemma fold_write_chunks (path : str) (out : list str) :
  forall (c : File.chunks) (fs : gmap str File.chunks),
  fold_left (fun fs chunk => File.write path chunk fs) out (<[path := c]> fs)
  = <[path := c ++ out]> fs.
Proof.
  induction out as [|o out IH]; intros c fs; cbn [fold_left].
  - by rewrite app_nil_r.
  - unfold File.write at 2. rewrite alter_insert_eq, IH.
    by rewrite <- app_assoc.
Qed.

(** The files after one input file has been converted: only the output
    file is new or changed, and it holds what the loop wrote. *)
Lemma process_file_fs (w : world) (p : str) (c : File.chunks) :
  fs w !! p = Some c ->
  let lines :=
    File.read_lines (if decide (output_path_of p = p) then [] else c) in
  process_file json_loads json_dumps py_repr w p
  = ({| fs := <[output_path_of p :=
                 fst (transform_lines json_loads json_dumps py_repr lines)]>
              (fs w);
        trace := trace w ++ block p (fst (transform_lines json_loads
                                            json_dumps py_repr lines)) |},
     snd (transform_lines json_loads json_dumps py_repr lines)).
Proof.
  intros E lines. unfold process_file. rewrite E.
  assert (default [] (File.open_w (output_path_of p) (fs w) !! p)
          = if decide (output_path_of p = p) then [] else c) as ->.
  { unfold File.open_w. rewrite lookup_insert.
    destruct (decide (output_path_of p = p)); [done|].
    exact (f_equal (default []) E). }
  subst lines.
  destruct (transform_lines _ _ _ _) as [out e]. cbn [fst snd].
  unfold File.open_w. f_equal. f_equal.
  exact (fold_write_chunks (output_path_of p) out [] (fs w)).
Qed.

Lemma process_file_frame (w : world) (p q : str) :
  output_path_of p <> q ->
  fs (fst (process_file json_loads json_dumps py_repr w p)) !! q = fs w !! q.
Proof.
  intros NE. destruct (fs w !! p) as [c|] eqn:E.
  - rewrite (process_file_fs w p c E). cbn [fst fs].
    by rewrite lookup_insert_ne.
  - unfold process_file. by rewrite E.
Qed.

Lemma process_files_frame (files : list str) (q : str) : forall w,
  Forall (fun p => output_path_of p <> q) files ->
  fs (fst (process_files json_loads json_dumps py_repr w files)) !! q
  = fs w !! q.
Proof.
  induction files as [|p files IH]; intros w F; [done|].
  apply Forall_cons in F as [NE F]. cbn [process_files].
  pose proof (process_file_frame w p q NE) as P.
  destruct (process_file _ _ _ w p) as [w' [e|]]; cbn [fst] in *; [done|].
  by rewrite IH.
Qed.

End FineTuningFiles.

Section PartNames.

Import Minimax.

Lemma digits_no_dot (d : Decimal.uint) :
  Forall (fun c => c <> 46%N) (u (NilEmpty.string_of_uint d)).
Proof.
  induction d; cbn [NilEmpty.string_of_uint]; [constructor|..];
    (apply Forall_cons; split; [by vm_compute | exact IHd]).
Qed.

Lemma str_of_int_no_dot (k : Z) : Forall (fun c => c <> 46%N) (str_of_int k).
Proof.
  unfold str_of_int. destruct (Z.to_int k) as [d|d];
    cbn [NilEmpty.string_of_int]; [apply digits_no_dot|].
  apply Forall_cons. split; [by vm_compute | apply digits_no_dot].
Qed.

Lemma no_dot_no_ndjson (t : str) :
  Forall (fun c => c <> 46%N) t -> occurs (u ".ndjson") t = false.
Proof.
  induction 1 as [|c t H _ IH]; [done|].
  rewrite occurs_unfold, IH, orb_false_r.
  change (u ".ndjson") with (46%N :: u "ndjson"). cbn [startswith].
  destruct (N.eqb_spec 46 c) as [<-|]; done.
Qed.

(** An occurrence of [.ndjson] cannot start in [base] and end in a text
    that starts with an underscore. *)
Lemma occurs_before_part (base s : str) :
  occurs (u ".ndjson") base = false ->
  occurs (u ".ndjson") (u "_part_" ++ s) = false ->
  occurs (u ".ndjson") (base ++ u "_part_" ++ s) = false.
Proof.
  induction base as [|c b IH]; intros H T; [done|].
  cbn [occurs] in H. apply orb_false_iff in H as [H1 H2].
  cbn [app]. rewrite occurs_unfold, IH, orb_false_r by done.
  destruct (le_lt_dec 7 (length (c :: b))) as [L|L].
  - change (c :: b ++ u "_part_" ++ s) with ((c :: b) ++ u "_part_" ++ s).
    by rewrite startswith_app_l.
  - clear IH H1 H2 T.
    destruct b as [|x2 [|x3 [|x4 [|x5 [|x6 [|x7 x]]]]]];
      [ | | | | | | simpl in L; lia];
      cbn [app u List.map list_ascii_of_string startswith];
      repeat match goal with
             | |- context [(?a =? ?b)%N] =>
                 lazymatch b with
                 | N_of_ascii _ => fail
                 | code _ => fail
                 | _ => destruct (a =? b)%N
                 end
             end; reflexivity.
Qed.

Lemma part_stem_no_ndjson (base : str) (k : Z) :
  occurs (u ".ndjson") base = false ->
  occurs (u ".ndjson") (base ++ u "_part_" ++ str_of_int k) = false.
Proof.
  intros H. apply occurs_before_part; [done|].
  apply no_dot_no_ndjson, Forall_app. split; [|apply str_of_int_no_dot].
  repeat (apply Forall_cons; split; [by vm_compute|]). constructor.
Qed.

Lemma output_path_of_part (base : str) (k : Z) :
  occurs (u ".ndjson") base = false ->
  output_path_of (part_path (base ++ u ".ndjson") k)
  = base ++ u "_part_" ++ str_of_int k ++ finetuning_suffix.
Proof.
  intros H. rewrite part_path_extension by done. unfold output_path_of.
  pose proof (replace_extension finetuning_suffix _
                (part_stem_no_ndjson base k H)) as R.
  rewrite <- !app_assoc in R. exact R.
Qed.

End PartNames.

(** X14.  The output path of an input whose name ends with [.ndjson]
    ends with [_finetuning.ndjson]; so an input that is not itself a
    fine-tuning file is never its own output file. *)
Theorem X_outputs_are_finetuning_files (p : str) :
  endswith (u ".ndjson") p = true ->
  endswith Minimax.finetuning_suffix (Minimax.output_path_of p) = true
  /\ (endswith Minimax.finetuning_suffix p = false ->
      Minimax.output_path_of p <> p).
Proof.
  intros H. pose proof (output_path_suffix p H) as S. split; [done|].
  intros NF E. rewrite E in S. congruence.
Qed.

Lemma X_outputs_are_finetuning_files_witness :
  endswith Minimax.finetuning_suffix
    (Minimax.output_path_of (u "a.ndjson.bak_part_2.ndjson")) = true
  /\ (endswith Minimax.finetuning_suffix (u "a.ndjson.bak_part_2.ndjson")
      = false ->
      Minimax.output_path_of (u "a.ndjson.bak_part_2.ndjson")
      <> u "a.ndjson.bak_part_2.ndjson").
Proof.
  apply (X_outputs_are_finetuning_files (u "a.ndjson.bak_part_2.ndjson")).
  reflexivity.
Defined.

(** X15.  An input file whose name does not contain [.ndjson], when no
    part file is found: its output path is the input path itself, so
    opening the output truncates the input before a line is read.  The
    run ends without exception, nothing is converted and the input file
    is left empty. *)
Theorem X_input_without_ndjson_is_emptied
    (json_loads : str -> Minimax.exn + Json.value)
    (json_dumps : Json.value -> Minimax.exn + str)
    (glob : str -> list str) (py_repr : Json.value -> str)
    (w : Minimax.world) (input_file output_file : str) (c : File.chunks) :
  Minimax.part_files glob input_file = [] ->
  occurs (u ".ndjson") input_file = false ->
  Minimax.fs w !! input_file = Some c ->
  Minimax.convert_ndjson_to_finetuning json_loads json_dumps glob py_repr
    w input_file output_file
  = ({| Minimax.fs := <[input_file := []]> (Minimax.fs w);
        Minimax.trace :=
          Minimax.trace w
          ++ [Minimax.OpenRead input_file; Minimax.OpenWrite input_file;
              Minimax.CloseWrite input_file; Minimax.CloseRead input_file] |},
     None).
Proof.
  intros PF NO E.
  unfold Minimax.convert_ndjson_to_finetuning, Minimax.input_files.
  rewrite PF. cbn [truthy negb].
  rewrite (no_ndjson_not_finetuned _ NO). cbn [Minimax.process_files].
  rewrite (process_file_fs _ _ _ w input_file c E).
  assert (Minimax.output_path_of input_file = input_file) as ->
    by (by apply replace_absent).
  unfold block.
  assert (Minimax.output_path_of input_file = input_file) as ->
    by (by apply replace_absent).
  destruct (decide (input_file = input_file)); [|done].
  reflexivity.
Qed.

Lemma X_input_without_ndjson_is_emptied_witness :
  let w := {| Minimax.fs := {[ u "data.json" := [u "{}"] ]};
              Minimax.trace := [] |} in
  Minimax.convert_ndjson_to_finetuning loads_nothing dumps_nothing
    (fun _ => []) (fun _ => []) w (u "data.json") (u "out.ndjson")
  = ({| Minimax.fs := <[u "data.json" := []]> (Minimax.fs w);
        Minimax.trace :=
          Minimax.trace w
          ++ [Minimax.OpenRead (u "data.json");
              Minimax.OpenWrite (u "data.json");
              Minimax.CloseWrite (u "data.json");
              Minimax.CloseRead (u "data.json")] |},
     None).
Proof.
  intros w.
  apply (X_input_without_ndjson_is_emptied loads_nothing dumps_nothing
           (fun _ => []) (fun _ => []) w
           (u "data.json") (u "out.ndjson") [u "{}"]).
  - reflexivity.
  - reflexivity.
  - apply lookup_singleton_eq.
Defined.

(** X16.  Converting a list of input files creates or changes only their
    output files: every other path holds after the run what it held
    before, also when the run stops with an exception. *)
Theorem X_only_output_files_change
    (json_loads : str -> Minimax.exn + Json.value)
    (json_dumps : Json.value -> Minimax.exn + str)
    (py_repr : Json.value -> str)
    (w : Minimax.world) (input_files : list str) (q : str) :
  Forall (fun p => Minimax.output_path_of p <> q) input_files ->
  Minimax.fs (fst (Minimax.process_files json_loads json_dumps py_repr
                     w input_files)) !! q
  = Minimax.fs w !! q.
Proof. apply process_files_frame. Qed.

Lemma X_only_output_files_change_witness :
  let w := {| Minimax.fs := {[ u "a_part_1.ndjson" := [u "x"] ]};
              Minimax.trace := [] |} in
  Minimax.fs (fst (Minimax.process_files loads_nothing dumps_nothing
                     (fun _ => []) w [u "a_part_1.ndjson"]))
    !! u "a_part_1.ndjson"
  = Minimax.fs w !! u "a_part_1.ndjson".
Proof.
  intros w.
  apply (X_only_output_files_change loads_nothing dumps_nothing
           (fun _ => []) w [u "a_part_1.ndjson"] (u "a_part_1.ndjson")).
  repeat constructor. vm_compute. discriminate.
Defined.

(** X17.  A run on an input file named [*.ndjson], the part files found
    being named [*.ndjson] as the pattern says, creates or changes only
    files whose name ends with [_finetuning.ndjson]: the input file, the
    part files and every other file are left as they were. *)
Theorem X_only_finetuning_files_change
    (json_loads : str -> Minimax.exn + Json.value)
    (json_dumps : Json.value -> Minimax.exn + str)
    (glob : str -> list str) (py_repr : Json.value -> str)
    (w : Minimax.world) (input_file output_file : str) (q : str) :
  (forall f,
      In f (glob (Minimax.base_path input_file ++ u "_part_*.ndjson")) ->
      endswith (u ".ndjson") f = true) ->
  endswith (u ".ndjson") input_file = true ->
  endswith Minimax.finetuning_suffix q = false ->
  Minimax.fs (fst (Minimax.convert_ndjson_to_finetuning json_loads json_dumps
                     glob py_repr w input_file output_file)) !! q
  = Minimax.fs w !! q.
Proof.
  intros G I Q. unfold Minimax.convert_ndjson_to_finetuning.
  destruct (Minimax.input_files glob input_file) as [files|] eqn:F; [|done].
  apply process_files_frame, List.Forall_forall. intros p P E.
  assert (endswith (u ".ndjson") p = true) as N.
  { unfold Minimax.input_files in F.
    destruct (truthy (Minimax.part_files glob input_file)); cbn [negb] in F.
    - injection F as <-. unfold Minimax.part_files in P.
      apply filter_In in P as [P _]. apply G.
      by apply (Permutation_in _ (sorted_perm _)).
    - destruct (endswith Minimax.finetuning_suffix input_file); [done|].
      injection F as <-. by destruct P as [<-|[]]. }
  apply output_path_suffix in N. rewrite E in N. congruence.
Qed.

Lemma X_only_finetuning_files_change_witness :
  let w := {| Minimax.fs := {[ u "a.ndjson" := [u "x"] ]};
              Minimax.trace := [] |} in
  Minimax.fs (fst (Minimax.convert_ndjson_to_finetuning loads_nothing
                     dumps_nothing (fun _ => []) (fun _ => [])
                     w (u "a.ndjson") (u "b.ndjson"))) !! u "a.ndjson"
  = Minimax.fs w !! u "a.ndjson".
Proof.
  intros w.
  apply (X_only_finetuning_files_change loads_nothing dumps_nothing
           (fun _ => []) (fun _ => []) w (u "a.ndjson") (u "b.ndjson")
           (u "a.ndjson")).
  - intros f [].
  - reflexivity.
  - reflexivity.
Defined.

(** X18.  The run does not depend on the order in which [glob] lists the
    part files: two listings of the same files give the same inputs in
    the same order, hence the same result. *)
Theorem X_glob_order_is_irrelevant
    (json_loads : str -> Minimax.exn + Json.value)
    (json_dumps : Json.value -> Minimax.exn + str)
    (glob glob' : str -> list str) (py_repr : Json.value -> str)
    (w : Minimax.world) (input_file output_file : str) :
  glob (Minimax.base_path input_file ++ u "_part_*.ndjson")
  ≡ₚ glob' (Minimax.base_path input_file ++ u "_part_*.ndjson") ->
  Minimax.input_files glob input_file = Minimax.input_files glob' input_file
  /\ Minimax.convert_ndjson_to_finetuning json_loads json_dumps glob py_repr
       w input_file output_file
     = Minimax.convert_ndjson_to_finetuning json_loads json_dumps glob' py_repr
         w input_file output_file.
Proof.
  intros P.
  assert (Minimax.part_files glob input_file
          = Minimax.part_files glob' input_file) as E.
  { unfold Minimax.part_files. f_equal.
    apply sorted_of_perm; [|apply sorted_StronglySorted].
    by rewrite sorted_perm. }
  assert (Minimax.input_files glob input_file
          = Minimax.input_files glob' input_file) as I.
  { unfold Minimax.input_files. by rewrite E. }
  split; [done|]. unfold Minimax.convert_ndjson_to_finetuning. by rewrite I.
Qed.

Lemma X_glob_order_is_irrelevant_witness :
  let w := {| Minimax.fs := ∅; Minimax.trace := [] |} in
  Minimax.input_files (fun _ => [u "a_part_2.ndjson"; u "a_part_1.ndjson"])
    (u "a.ndjson")
  = Minimax.input_files (fun _ => [u "a_part_1.ndjson"; u "a_part_2.ndjson"])
      (u "a.ndjson")
  /\ Minimax.convert_ndjson_to_finetuning loads_nothing dumps_nothing
       (fun _ => [u "a_part_2.ndjson"; u "a_part_1.ndjson"]) (fun _ => [])
       w (u "a.ndjson") (u "b.ndjson")
     = Minimax.convert_ndjson_to_finetuning loads_nothing dumps_nothing
         (fun _ => [u "a_part_1.ndjson"; u "a_part_2.ndjson"]) (fun _ => [])
         w (u "a.ndjson") (u "b.ndjson").
Proof.
  intros w.
  apply (X_glob_order_is_irrelevant loads_nothing dumps_nothing
           (fun _ => [u "a_part_2.ndjson"; u "a_part_1.ndjson"])
           (fun _ => [u "a_part_1.ndjson"; u "a_part_2.ndjson"])
           (fun _ => []) w (u "a.ndjson") (u "b.ndjson")).
  apply perm_swap.
Defined.

(** X19.  The names of a run on [base.ndjson], [base] not containing
    [.ndjson]: the writer names part [k] [base_part_<k>.ndjson]; the
    transformer, given [base.ndjson], looks for [base_part_*.ndjson] (the
    stem is the text before the last dot); and the output file of part
    [k] is [base_part_<k>_finetuning.ndjson]. *)
Theorem X_names_of_a_run (base : str) (k : Z) :
  occurs (u ".ndjson") base = false ->
  Minimax.part_path (base ++ u ".ndjson") k
  = base ++ u "_part_" ++ str_of_int k ++ u ".ndjson"
  /\ Minimax.base_path (base ++ u ".ndjson") ++ u "_part_*.ndjson"
     = base ++ u "_part_*.ndjson"
  /\ Minimax.output_path_of (Minimax.part_path (base ++ u ".ndjson") k)
     = base ++ u "_part_" ++ str_of_int k ++ u "_finetuning.ndjson".
Proof.
  intros H. split; [by apply part_path_extension|]. split.
  - unfold Minimax.base_path. by rewrite before_last_extension.
  - by apply output_path_of_part.
Qed.

Lemma X_names_of_a_run_witness :
  Minimax.part_path (u "out/guide" ++ u ".ndjson") 12
  = u "out/guide" ++ u "_part_" ++ str_of_int 12 ++ u ".ndjson"
  /\ Minimax.base_path (u "out/guide" ++ u ".ndjson") ++ u "_part_*.ndjson"
     = u "out/guide" ++ u "_part_*.ndjson"
  /\ Minimax.output_path_of (Minimax.part_path (u "out/guide" ++ u ".ndjson") 12)
     = u "out/guide" ++ u "_part_" ++ str_of_int 12 ++ u "_finetuning.ndjson".
Proof.
  apply (X_names_of_a_run (u "out/guide") 12). reflexivity.
Defined.

Section ReadBack.

Lemma universal_newlines_id (s : str) :
  Forall (fun c => c <> File.CR) s -> File.universal_newlines s = s.
Proof.
  induction 1 as [|c s H _ IH]; [done|]. cbn [File.universal_newlines].
  destruct (N.eqb_spec c File.CR); [done|]. by rewrite IH.
Qed.

Lemma iter_lines_line (r t : str) :
  Forall (fun c => c <> LF) r ->
  File.iter_lines ((r ++ [LF]) ++ t) = (r ++ [LF]) :: File.iter_lines t.
Proof.
  induction 1 as [|c r H _ IH]; [done|].
  cbn [app File.iter_lines] in *.
  destruct (N.eqb_spec c LF); [done|]. by rewrite IH.
Qed.

(** Lines written with their line feed are read back as they were
    written, when no line holds a line break of its own. *)
Lemma read_lines_written (records : list str) :
  Forall (Forall (fun c => c <> LF /\ c <> File.CR)) records ->
  File.read_lines (List.map (fun r => r ++ [LF]) records)
  = List.map (fun r => r ++ [LF]) records.
Proof.
  intros F. unfold File.read_lines. rewrite universal_newlines_id.
  - induction F as [|r records H _ IH]; [done|].
    cbn [List.map concat]. rewrite iter_lines_line, IH; [done|].
    eapply Forall_impl; [exact H|]. by intros c [? ?].
  - induction F as [|r records H _ IH]; [constructor|].
    cbn [List.map concat]. rewrite !Forall_app. split; [split|done].
    + eapply Forall_impl; [exact H|]. by intros c [? ?].
    + by constructor.
Qed.

End ReadBack.

Section ConvertWritten.

Import Minimax.

Variable json_loads : str -> Minimax.exn + Json.value.
Variable json_dumps : Json.value -> Minimax.exn + str.
Variable py_repr : Json.value -> str.

(** The loop over lines that are all converted, none being blank. *)
Lemma transform_records (lines : list str) :
  Forall (fun line : str =>
            strip line <> []
            /\ exists chunk, converts json_loads json_dumps py_repr line chunk)
         lines ->
  exists out : list str,
    transform_lines json_loads json_dumps py_repr lines = (out, None)
    /\ Forall2 (converts json_loads json_dumps py_repr) lines out.
Proof.
  induction 1 as [|line lines (NB & chunk & C) _ (out & T & F)].
  - by exists [].
  - exists (chunk :: out). split.
    + rewrite (transform_converts _ _ _ line chunk) by done. by rewrite T.
    + by constructor.
Qed.

(** One part file written by the shard writer. *)
Lemma process_file_written (w : world) (p : str) (records : list str) :
  fs w !! p = Some (List.map (fun r => r ++ [LF]) records) ->
  output_path_of p <> p ->
  Forall (record_line json_loads json_dumps py_repr) records ->
  exists out : list str,
    process_file json_loads json_dumps py_repr w p
    = ({| fs := <[output_path_of p := out]> (fs w);
          trace := trace w ++ block p out |}, None)
    /\ Forall2 (fun r chunk =>
                  converts json_loads json_dumps py_repr (r ++ [LF]) chunk)
               records out.
Proof.
  intros E NE F.
  destruct (transform_records (List.map (fun r => r ++ [LF]) records))
    as (out & T & F2).
  { apply List.Forall_map. eapply Forall_impl; [exact F|].
    by intros r (_ & ? & ?). }
  exists out. split.
  - rewrite (process_file_fs _ _ _ w p _ E).
    destruct (decide (output_path_of p = p)); [done|].
    rewrite read_lines_written, T; [done|].
    eapply Forall_impl; [exact F|]. by intros r (? & _).
  - clear -F2. revert out F2.
    induction records as [|r records IH]; intros out F2;
      inversion F2; subst; constructor; eauto.
Qed.

End ConvertWritten.

(** X20.  Lines written each with its line feed, none holding a line
    feed or a carriage return of its own (as the lines [json.dumps]
    gives), are read back by the iteration over the file exactly as they
    were written: the same lines in the same order, each with its line
    feed. *)
Theorem X_written_lines_are_read_back (records : list str) :
  Forall (Forall (fun c => c <> LF /\ c <> File.CR)) records ->
  File.read_lines (List.map (fun r => r ++ [LF]) records)
  = List.map (fun r => r ++ [LF]) records.
Proof. apply read_lines_written. Qed.

Lemma X_written_lines_are_read_back_witness :
  File.read_lines (List.map (fun r => r ++ [LF]) [u "{}"; []; u "[1]"])
  = List.map (fun r => r ++ [LF]) [u "{}"; []; u "[1]"].
Proof.
  apply (X_written_lines_are_read_back [u "{}"; []; u "[1]"]).
  repeat constructor; by vm_compute.
Defined.

(** X21.  Converting a file that holds one record per line, written as
    the shard writer writes them, every line being converted (parsed,
    its fine-tuning record built and serialized to a text that can be
    encoded), whose output path is another path: the run of that file
    ends without exception, the output file holds exactly one chunk per
    record of the input, in the same order, each the serialized
    fine-tuning record of that input record, and no other file changes
    (the input file is as it was). *)
Theorem X_written_part_is_converted
    (json_loads : str -> Minimax.exn + Json.value)
    (json_dumps : Json.value -> Minimax.exn + str)
    (py_repr : Json.value -> str)
    (w : Minimax.world) (p : str) (records : list str) :
  Minimax.fs w !! p = Some (List.map (fun r => r ++ [LF]) records) ->
  Minimax.output_path_of p <> p ->
  Forall (record_line json_loads json_dumps py_repr) records ->
  exists out : list str,
    Minimax.process_file json_loads json_dumps py_repr w p
    = ({| Minimax.fs := <[Minimax.output_path_of p := out]> (Minimax.fs w);
          Minimax.trace := Minimax.trace w ++ block p out |}, None)
    /\ Forall2 (fun r chunk =>
                  converts json_loads json_dumps py_repr (r ++ [LF]) chunk)
               records out
    /\ <[Minimax.output_path_of p := out]> (Minimax.fs w) !! p
       = Some (List.map (fun r => r ++ [LF]) records).
Proof.
  intros E NE F.
  destruct (process_file_written json_loads json_dumps py_repr w p records)
    as (out & P & C); [done..|].
  exists out. split; [done|]. split; [done|].
  rewrite lookup_insert_ne by done. exact E.
Qed.

Lemma X_written_part_is_converted_witness :
  let w := {| Minimax.fs := {[ u "a.ndjson" :=
                                 List.map (fun r => r ++ [LF])
                                          [example_line; example_line] ]};
              Minimax.trace := [] |} in
  exists out : list str,
    Minimax.process_file example_loads example_dumps (fun _ => [])
      w (u "a.ndjson")
    = ({| Minimax.fs :=
            <[Minimax.output_path_of (u "a.ndjson") := out]> (Minimax.fs w);
          Minimax.trace := Minimax.trace w ++ block (u "a.ndjson") out |},
       None)
    /\ Forall2 (fun r chunk =>
                  converts example_loads example_dumps (fun _ => [])
                           (r ++ [LF]) chunk)
               [example_line; example_line] out
    /\ <[Minimax.output_path_of (u "a.ndjson") := out]> (Minimax.fs w)
         !! u "a.ndjson"
       = Some (List.map (fun r => r ++ [LF]) [example_line; example_line]).
Proof.
  intros w.
  apply (X_written_part_is_converted example_loads example_dumps
           (fun _ => []) w (u "a.ndjson") [example_line; example_line]).
  - apply lookup_singleton_eq.
  - vm_compute. discriminate.
  - assert (record_line example_loads example_dumps (fun _ => [])
              example_line) as RL.
    { split; [apply (bool_decide_unpack _); by vm_compute|].
      split; [vm_compute; discriminate|].
      eexists _, _, _, _. repeat split; vm_compute; reflexivity. }
    apply Forall_cons; split; [exact RL|].
    apply Forall_cons; split; [exact RL|constructor].
Defined.

Section SamePath.

Import Minimax.

Variable json_dumps : Rec.record -> str.
Variables (output_file : str) (max_file_size : Z).

Hypothesis same_path : forall k, part_path output_file k = output_file.

Lemma inv_same_path_step (st : wstate) (s : section) (done : list str) :
  inv_same_path max_file_size output_file st done ->
  inv_same_path max_file_size output_file
    (write_step json_dumps output_file max_file_size st s)
    (done ++ [json_dumps (record_of s) ++ [LF]]).
Proof.
  unfold inv_same_path, write_step, is_open, close_part, open_part.
  set (line := json_dumps (record_of s) ++ [LF]).
  destruct (current_output st) as [q|] eqn:O.
  - intros (-> & lost & cur & D & NE & Fs & Sz & Lost).
    destruct (max_file_size <? current_file_size st + utf8_len line) eqn:B;
      cbn [andb current_output current_file_size files part_num];
      rewrite ?O; cbn [current_output current_file_size files part_num].
    + apply Z.ltb_lt in B. rewrite same_path. split; [done|].
      exists done, [line]. split; [done|]. split; [done|]. split.
      * unfold File.write, File.open_w.
        by rewrite Fs, insert_insert_eq, alter_insert_eq.
      * split; [by rewrite bytes_single|]. right.
        rewrite D, !bytes_app, bytes_single.
        pose proof (bytes_nonneg lost). lia.
    + split; [done|]. exists lost, (cur ++ [line]).
      split; [by rewrite D, app_assoc|].
      split; [by destruct cur|]. split.
      * unfold File.write. by rewrite Fs, alter_insert_eq.
      * split; [by rewrite bytes_snoc, Sz|].
        destruct Lost as [->|Lost]; [by left|right].
        rewrite bytes_snoc. pose proof (utf8_len_nonneg line). lia.
  - intros (Fs & -> & Sz).
    rewrite andb_false_r.
    cbn [current_output current_file_size files part_num]. rewrite O.
    cbn [current_output current_file_size files part_num].
    rewrite same_path. split; [done|].
    exists [], [line]. split; [done|]. split; [done|]. split.
    + unfold File.write, File.open_w. by rewrite Fs, alter_insert_eq.
    + split; [|by left]. rewrite Sz, bytes_single. lia.
Qed.

Lemma inv_same_path_fold (sections : list section) : forall st done,
  inv_same_path max_file_size output_file st done ->
  inv_same_path max_file_size output_file
    (fold_left (write_step json_dumps output_file max_file_size) sections st)
    (done ++ lines2 json_dumps sections).
Proof.
  induction sections as [|s sections IH]; intros st done I.
  - cbn. by rewrite app_nil_r.
  - cbn [fold_left lines2 List.map].
    change (done ++ ?x :: List.map ?f sections)
      with (done ++ [x] ++ List.map f sections).
    rewrite app_assoc. apply IH. by apply inv_same_path_step.
Qed.

End SamePath.

(** X22.  Second script's writer with an output file whose name does not
    contain [.ndjson]: every part gets the path of the output file
    itself, each new part truncating the one before.  After a run with
    at least one section the only file is the output file and it holds
    the lines of the last part only, the last of all the lines; lines
    are lost only when the lines together exceed the budget. *)
Theorem X_parts_share_the_output_file
    (json_dumps : Rec.record -> str) (output_file : str) (max_file_size : Z)
    (sections : list Minimax.section) :
  occurs (u ".ndjson") output_file = false ->
  sections <> [] ->
  (forall k, Minimax.part_path output_file k = output_file)
  /\ exists lost kept : list str,
       lines2 json_dumps sections = lost ++ kept
       /\ kept <> []
       /\ Minimax.files (Minimax.write_sections json_dumps output_file
                           max_file_size sections)
          = {[ output_file := kept ]}
       /\ (lost = []
           \/ max_file_size < File.bytes (lines2 json_dumps sections)).
Proof.
  intros NO NE.
  assert (forall k, Minimax.part_path output_file k = output_file) as Same.
  { intros k. by apply replace_absent. }
  split; [done|].
  pose proof (inv_same_path_fold json_dumps output_file max_file_size Same
                sections
                {| Minimax.record_count := 0; Minimax.current_file_size := 0;
                   Minimax.part_num := 1; Minimax.current_output := None;
                   Minimax.files := ∅ |} []) as I.
  unfold inv_same_path in I. fold (Minimax.write_sections json_dumps
    output_file max_file_size sections) in I.
  cbn [app] in I. specialize (I ltac:(done)).
  destruct (Minimax.current_output _) as [q|].
  - destruct I as (_ & lost & kept & D & K & Fs & _ & Lost).
    exists lost, kept. rewrite Fs, insert_empty. done.
  - destruct I as (_ & D & _). destruct sections; [done|]. done.
Qed.

Lemma X_parts_share_the_output_file_witness :
  let sections :=
    [ Minimax.mkSection 0 1 (u "A") (u "x") 1;
      Minimax.mkSection 1 2 (u "B") (u "y") 1 ] in
  (forall k, Minimax.part_path (u "out.json") k = u "out.json")
  /\ exists lost kept : list str,
       lines2 (fun r => Rec.title r) sections = lost ++ kept
       /\ kept <> []
       /\ Minimax.files (Minimax.write_sections (fun r => Rec.title r)
                           (u "out.json") 2 sections)
          = {[ u "out.json" := kept ]}
       /\ (lost = []
           \/ 2 < File.bytes (lines2 (fun r => Rec.title r) sections)).
Proof.
  intros sections.
  apply (X_parts_share_the_output_file (fun r => Rec.title r) (u "out.json")
           2 sections).
  - reflexivity.
  - discriminate.
Defined.

Section RecordIds.

Lemma repeat_zero_digits (k : nat) (d : Decimal.uint) :
  List.repeat 48%N k ++ u (NilEmpty.string_of_uint d)
  = u (NilEmpty.string_of_uint (Nat.iter k Decimal.D0 d)).
Proof. induction k as [|k IH]; [done|]. cbn. f_equal. exact IH. Qed.

Lemma of_uint_zeros (k : nat) (d : Decimal.uint) :
  Z.of_uint (Nat.iter k Decimal.D0 d) = Z.of_uint d.
Proof. induction k as [|k IH]; [done|]. exact IH. Qed.

Lemma to_int_nonneg (a : Z) :
  0 <= a -> exists d, Z.to_int a = Decimal.Pos d /\ Z.of_uint d = a.
Proof.
  intros H. pose proof (DecimalZ.of_to a) as E.
  destruct a as [|p|p]; [| |lia]; eexists; (split; [reflexivity|exact E]).
Qed.

(** [format(n, '03d')] tells the non-negative integers apart. *)
Lemma pad3_inj (a b : Z) : 0 <= a -> 0 <= b -> pad3 a = pad3 b -> a = b.
Proof.
  intros (da & Ea & <-)%to_int_nonneg (db & Eb & <-)%to_int_nonneg.
  unfold pad3, str_of_int. rewrite Ea, Eb. cbn [NilEmpty.string_of_int].
  rewrite !repeat_zero_digits. intros E%u_inj.
  assert (Some (Nat.iter (3 - length (u (NilEmpty.string_of_uint da)))
                  Decimal.D0 da)
          = Some (Nat.iter (3 - length (u (NilEmpty.string_of_uint db)))
                    Decimal.D0 db)) as [= D]
    by (by rewrite <- !NilEmpty.usu, E).
  apply (f_equal Z.of_uint) in D. by rewrite !of_uint_zeros in D.
Qed.

Lemma indices_nonneg (n : nat) : Forall (fun i => 0 <= i) (indices n).
Proof.
  unfold indices. apply List.Forall_map, List.Forall_forall. intros; lia.
Qed.

Lemma indices_NoDup (n : nat) : NoDup (indices n).
Proof.
  unfold indices. apply (NoDup_fmap_2 Z.of_nat), NoDup_seq.
Qed.

End RecordIds.

(** X23.  The record ids of a run are pairwise distinct.  In the first
    script the ids of two records with different indices differ; in the
    second script the ids of the sections returned for a document,
    [konva-minimax-guide_] followed by the index in at least three
    digits, are all different (also from index 1000 on, where the id
    has more digits). *)
Theorem X_record_ids_are_unique (file_name content : str) :
  (forall (i j : Z) (s s' : Ndjson.section),
      Rec.id (Ndjson.json_record file_name i s)
      = Rec.id (Ndjson.json_record file_name j s') -> i = j)
  /\ NoDup (List.map (fun s => Rec.id (Minimax.record_of s))
              (Minimax.split_markdown_into_sections content)).
Proof.
  split.
  - intros i j s s'. cbn [Rec.id Ndjson.json_record].
    intros E%app_inv_head%app_inv_head. by apply str_of_int_inj.
  - unfold Minimax.split_markdown_into_sections.
    destruct (split2_result (split_lines content)) as (secs & -> & M & _).
    assert (List.map (fun s => Rec.id (Minimax.record_of s))
              (List.map Minimax.clean secs)
            = List.map (fun i => u "konva-minimax-guide_" ++ pad3 i)
                (indices (length secs))) as ->.
    { rewrite <- M, !map_map. done. }
    apply NoDup_fmap_2_strong; [|apply indices_NoDup].
    intros x y X Y E%app_inv_head.
    pose proof (indices_nonneg (length secs)) as NN.
    rewrite Forall_forall in NN.
    apply pad3_inj; [by apply NN|by apply NN|done].
Qed.

Section FilledParts2.

Import Minimax.

Variable json_dumps : Rec.record -> str.
Variables (output_file : str) (max_file_size : Z).
Hypothesis names_differ :
  forall a b, part_path output_file a = part_path output_file b -> a = b.

Lemma inv_filled2_step (st : wstate) (s : section) :
  inv_filled2 (part_path output_file) max_file_size st ->
  inv_filled2 (part_path output_file) max_file_size
    (write_step json_dumps output_file max_file_size st s).
Proof.
  intros I. unfold inv_filled2 in I. unfold write_step, is_open.
  set (line := json_dumps (record_of s) ++ [LF]).
  destruct (current_output st) as [p|] eqn:O.
  - destruct I as (m & c & N & -> & L & NE & Sz & D & T).
    destruct (max_file_size <? current_file_size st + utf8_len line) eqn:B;
      cbn [andb].
    + apply Z.ltb_lt in B.
      unfold close_part, open_part, inv_filled2, File.open_w;
        cbn [current_output files current_file_size part_num record_count].
      rewrite N, write_insert.
      replace (Z.of_nat (S m) + 1) with (Z.of_nat (S (S m))) by lia.
      exists (S m), [line]. split; [done|]. split; [done|].
      split; [apply lookup_insert_eq|]. split; [done|].
      split; [by rewrite bytes_single|]. split.
      * intros q [<-|[_ (k & Hk & ->)%D]]%lookup_insert_is_Some;
          [exists (S (S m)) | exists k]; (split; [lia | done]).
      * intros k Hk. destruct (decide (k = S m)) as [->|NK].
        -- exists c, line, []. split; [|split].
           ++ rewrite lookup_insert_ne; [exact L|].
              intros E%names_differ. lia.
           ++ apply lookup_insert_eq.
           ++ by rewrite <- Sz.
        -- destruct (T k ltac:(lia)) as (ck & first & rest & K1 & K2 & K3).
           exists ck, first, rest. split; [|split; [|done]].
           ++ rewrite lookup_insert_ne; [exact K1|].
              intros E%names_differ. lia.
           ++ rewrite lookup_insert_ne; [exact K2|].
              intros E%names_differ. lia.
    + rewrite O. unfold inv_filled2.
      cbn [current_output files current_file_size part_num].
      rewrite O, (write_lookup _ _ c) by done.
      exists m, (c ++ [line]). split; [done|]. split; [done|].
      split; [apply lookup_insert_eq|].
      split; [by destruct c|]. split; [by rewrite bytes_snoc, Sz|]. split.
      * intros q [<-|[_ H]]%lookup_insert_is_Some; [|by apply D].
        exists (S m). split; [lia | done].
      * intros k Hk.
        destruct (T k Hk) as (ck & first & rest & K1 & K2 & K3).
        exists ck, first.
        destruct (decide (k = m)) as [->|NK].
        -- exists (rest ++ [line]). split; [|split; [|done]].
           ++ rewrite lookup_insert_ne; [exact K1|].
              intros E%names_differ. lia.
           ++ assert (Some c = Some (first :: rest)) as [= ->]
                by exact (eq_trans (eq_sym L) K2).
              apply lookup_insert_eq.
        -- exists rest. split; [|split; [|done]].
           ++ rewrite lookup_insert_ne; [exact K1|].
              intros E%names_differ. lia.
           ++ rewrite lookup_insert_ne; [exact K2|].
              intros E%names_differ. lia.
  - destruct I as (N & E & Sz). rewrite andb_false_r, O.
    unfold open_part, inv_filled2, File.open_w;
      cbn [current_output files current_file_size part_num record_count].
    rewrite N, E, write_insert. change 1 with (Z.of_nat 1).
    exists 0%nat, [line]. split; [done|]. split; [done|].
    split; [apply lookup_insert_eq|]. split; [done|].
    split; [rewrite Sz, bytes_single; lia|]. split.
    + intros q [<-|[_ H]]%lookup_insert_is_Some.
      * exists 1%nat. split; [lia | done].
      * rewrite lookup_empty in H. by destruct H.
    + intros k Hk. lia.
Qed.

Lemma inv_filled2_fold (rest : list section) : forall st,
  inv_filled2 (part_path output_file) max_file_size st ->
  inv_filled2 (part_path output_file) max_file_size
    (fold_left (write_step json_dumps output_file max_file_size) rest st).
Proof.
  induction rest as [|s rest IH]; intros st I; cbn [fold_left]; [done|].
  by apply IH, inv_filled2_step.
Qed.

Lemma filled2_result (sections : list section) (k : nat)
      (ck cn : File.chunks) :
  (1 <= k)%nat ->
  files (write_sections json_dumps output_file max_file_size sections)
    !! part_path output_file (Z.of_nat k) = Some ck ->
  files (write_sections json_dumps output_file max_file_size sections)
    !! part_path output_file (Z.of_nat (S k)) = Some cn ->
  exists (first : str) (rest : File.chunks),
    cn = first :: rest /\ max_file_size < File.bytes ck + utf8_len first.
Proof.
  intros Hk. unfold write_sections.
  pose proof (inv_filled2_fold sections
                {| record_count := 0; current_file_size := 0; part_num := 1;
                   current_output := None; files := ∅ |}) as I.
  specialize (I ltac:(by unfold inv_filled2)).
  unfold inv_filled2 in I.
  destruct (current_output _) as [p|].
  - destruct I as (m & c & _ & _ & _ & _ & _ & D & T). intros K1 K2.
    destruct (D (part_path output_file (Z.of_nat (S k))))
      as (j & Hj & E%names_differ); [by rewrite K2|].
    destruct (T k ltac:(lia)) as (ck' & first & rest & T1 & T2 & T3).
    exists first, rest.
    assert (Some ck = Some ck') as [= ->] by exact (eq_trans (eq_sym K1) T1).
    assert (Some cn = Some (first :: rest)) as [= ->]
      by exact (eq_trans (eq_sym K2) T2).
    done.
  - destruct I as (_ & -> & _). intros K1. by rewrite lookup_empty in K1.
Qed.

End FilledParts2.

(** X24.  Second script's writer, when different part numbers give
    different file names: a part is closed only when the next line does
    not fit.  For two consecutive parts of the result, the size of the
    first plus the size of the first line of the second exceeds the
    budget (and the second is not empty). *)
Theorem X_parts_are_filled
    (json_dumps : Rec.record -> str) (output_file : str) (max_file_size : Z)
    (sections : list Minimax.section) (k : nat) (ck cn : File.chunks) :
  (forall a b, Minimax.part_path output_file a = Minimax.part_path output_file b
               -> a = b) ->
  (1 <= k)%nat ->
  Minimax.files (Minimax.write_sections json_dumps output_file max_file_size
                   sections)
    !! Minimax.part_path output_file (Z.of_nat k) = Some ck ->
  Minimax.files (Minimax.write_sections json_dumps output_file max_file_size
                   sections)
    !! Minimax.part_path output_file (Z.of_nat (S k)) = Some cn ->
  exists (first : str) (rest : File.chunks),
    cn = first :: rest /\ max_file_size < File.bytes ck + utf8_len first.
Proof. intros H. by apply filled2_result. Qed.

Lemma X_parts_are_filled_witness :
  exists (first : str) (rest : File.chunks),
    [u "B" ++ [LF]] = first :: rest
    /\ 3 < File.bytes [u "A" ++ [LF]] + utf8_len first.
Proof.
  apply (X_parts_are_filled (fun r => Rec.title r) (u "out.ndjson") 3
           [ Minimax.mkSection 0 1 (u "A") (u "x") 1;
             Minimax.mkSection 1 2 (u "B") (u "y") 1 ] 1).
  - intros a b. apply (part_path_inj (u "out")). reflexivity.
  - lia.
  - vm_compute. reflexivity.
  - vm_compute. reflexivity.
Defined.

Section Blocks2.

Import Minimax.

(** What the end of the function makes of a loop state. *)
Abbreviation finish2 secs cur :=
  (List.filter (fun s => 0 <? content_length s)
     (List.map clean (fst (save secs cur)))).

Lemma fold_preamble (pre : list str) (secs : list section) (index : Z) :
  Forall (fun l => heading_match l = None) pre ->
  fold_left step pre (secs, None, index) = (secs, None, index).
Proof.
  induction 1 as [|l pre H _ IH]; [done|].
  cbn [fold_left step]. by rewrite H.
Qed.

Lemma fold_body (b : list str) : forall (secs : list section) (cur : section)
    (index : Z),
  Forall (fun l => heading_match l = None) b ->
  fold_left step b (secs, Some cur, index)
  = (secs,
     Some {| section_index := section_index cur;
             heading_level := heading_level cur;
             title := title cur;
             content := content cur ++ block_text b;
             content_length := content_length cur |},
     index).
Proof.
  unfold block_text.
  induction b as [|l b IH]; intros secs cur index F.
  - cbn. rewrite app_nil_r. by destruct cur.
  - apply Forall_cons in F as [H F].
    cbn [fold_left step]. rewrite H, IH by done.
    cbn [section_index heading_level title content content_length
         List.map concat].
    by rewrite <- !app_assoc.
Qed.

Lemma step2_on_heading (secs : list section) (cur : option section) (index : Z)
      (h g1 g2 : str) :
  heading_match h = Some (g1, g2) ->
  step (secs, cur, index) h
  = (fst (save secs cur),
     Some {| section_index := if snd (save secs cur) then index + 1 else index;
             heading_level := Z.of_nat (length g1);
             title := strip g2;
             content := [];
             content_length := 0 |},
     if snd (save secs cur) then index + 1 else index).
Proof. intros M. unfold step. rewrite M. by destruct (save secs cur). Qed.

(** The end of the function on a state with an open section. *)
Lemma finish2_open (secs : list section) (cur : section) :
  finish2 secs (Some cur)
  = List.filter (fun s => 0 <? content_length s) (List.map clean secs)
    ++ (if truthy (strip (content cur)) then [clean cur] else [])
  /\ snd (save secs (Some cur)) = truthy (strip (content cur)).
Proof.
  unfold save, clean.
  destruct (strip (content cur)) as [|c r] eqn:E; cbn [truthy fst snd].
  - by rewrite app_nil_r.
  - split; [|done]. rewrite List.map_app, List.filter_app. f_equal.
    cbn [List.map List.filter content_length]. rewrite E.
    destruct (Z.ltb_spec 0 (Z.of_nat (length (c :: r)))) as [_|L]; [done|].
    cbn [length] in L. lia.
Qed.

Lemma fold_blocks (blocks : list (str * list str)) :
  Forall (fun hb => heading_match (fst hb) <> None
                    /\ Forall (fun l => heading_match l = None) (snd hb))
         blocks ->
  forall (secs : list section) (cur : option section) (index : Z),
  (let '(secs', cur', _) :=
     fold_left step (lines_of_blocks blocks) (secs, cur, index) in
   finish2 secs' cur')
  = finish2 secs cur
    ++ sections_of_blocks2 (if snd (save secs cur) then index + 1 else index)
         blocks.
Proof.
  induction 1 as [|[h b] blocks [Hh Hb] _ IH]; intros secs cur index.
  - cbn. by rewrite app_nil_r.
  - cbn [fst snd] in Hh, Hb.
    cbn [lines_of_blocks flat_map fst snd app fold_left].
    rewrite fold_left_app.
    destruct (heading_match h) as [[g1 g2]|] eqn:M; [|done].
    rewrite (step2_on_heading _ _ _ h g1 g2 M), fold_body by done.
    fold (lines_of_blocks blocks). rewrite IH.
    match goal with
    | |- context [save ?s (Some ?c)] =>
        destruct (finish2_open s c) as [-> ->]
    end.
    cbn [sections_of_blocks2 content app]. rewrite M. unfold body2, clean.
    cbn [section_index heading_level title content content_length app].
    rewrite <- app_assoc. f_equal.
    by destruct (strip (block_text b)).
Qed.

(** Every list of lines is a preamble without heading followed by
    blocks. *)
Lemma lines_decompose (lines : list str) :
  exists (pre : list str) (blocks : list (str * list str)),
    lines = pre ++ lines_of_blocks blocks
    /\ Forall (fun l => heading_match l = None) pre
    /\ Forall (fun hb => heading_match (fst hb) <> None
                         /\ Forall (fun l => heading_match l = None) (snd hb))
              blocks.
Proof.
  induction lines as [|l lines (pre & blocks & -> & P & B)].
  - exists [], []. by repeat constructor.
  - destruct (heading_match l) as [g|] eqn:M.
    + exists [], ((l, pre) :: blocks). split; [done|]. split; [constructor|].
      constructor; [|done]. cbn [fst snd]. split; [by rewrite M | done].
    + exists (l :: pre), blocks. split; [done|]. split; [|done].
      by constructor.
Qed.

End Blocks2.

(** X25.  What the second script's splitter returns, block by block.
    A document is a preamble without heading line followed by blocks, a
    block being a heading line and the lines after it up to the next
    heading.  The result has one section for every block whose lines,
    joined with line feeds and stripped, are not empty, in the order of
    the document, numbered from 0: its level is the number of hashes of
    the heading, its title the stripped heading text, its content the
    stripped text of the block.  The preamble and the blocks without
    text give no section. *)
Theorem X_sections_of_the_blocks
    (pre : list str) (blocks : list (str * list str)) :
  Forall (fun l => Minimax.heading_match l = None) pre ->
  Forall (fun hb => Minimax.heading_match (fst hb) <> None
                    /\ Forall (fun l => Minimax.heading_match l = None)
                              (snd hb)) blocks ->
  Minimax.split_lines_into_sections (pre ++ lines_of_blocks blocks)
  = sections_of_blocks2 0 blocks.
Proof.
  intros P B. unfold Minimax.split_lines_into_sections.
  rewrite fold_left_app, fold_preamble by done.
  exact (fold_blocks blocks B [] None 0).
Qed.

Lemma X_sections_of_the_blocks_witness :
  Minimax.split_lines_into_sections
    ([u "intro"]
     ++ lines_of_blocks [(u "# A", [u ""; u "text"; u ""]);
                         (u "## B", [u " "]);
                         (u "### C", [u "more"])])
  = sections_of_blocks2 0 [(u "# A", [u ""; u "text"; u ""]);
                           (u "## B", [u " "]);
                           (u "### C", [u "more"])].
Proof.
  apply (X_sections_of_the_blocks [u "intro"]
           [(u "# A", [u ""; u "text"; u ""]);
            (u "## B", [u " "]);
            (u "### C", [u "more"])]).
  - repeat constructor.
  - repeat constructor; by vm_compute.
Defined.

Section Blocks1.

Import Ndjson.

Lemma append_if_app (c : bool) (secs : list section) (cur : section) :
  append_if c secs cur = secs ++ append_if c [] cur.
Proof. destruct c; cbn [append_if app]; [done | by rewrite app_nil_r]. Qed.

Lemma fold1_body (b : list str) : forall (secs : list section) (cur : section),
  Forall (fun l => is_heading1 l = false) b ->
  fold_left step b (secs, cur)
  = (secs, {| title := title cur; level := level cur;
              content := content cur ++ b |}).
Proof.
  induction b as [|l b IH]; intros secs cur F.
  - cbn. rewrite app_nil_r. by destruct cur.
  - apply Forall_cons in F as [H F]. cbn [fold_left].
    rewrite step_content, IH by done. unfold add_line.
    cbn [title level content]. by rewrite <- app_assoc.
Qed.

Lemma fold1_blocks (blocks : list (nat * str * list str)) :
  Forall (fun khb => hash_heading (fst (fst khb)) (snd (fst khb))
                     /\ Forall (fun l => is_heading1 l = false) (snd khb))
         blocks ->
  forall (secs : list section) (cur : section),
  (let '(secs', cur') :=
     fold_left step (lines_of_blocks1 blocks) (secs, cur) in
   append_if (content_or_titled cur') secs' cur')
  = secs ++ sections_of_blocks1 cur blocks.
Proof.
  induction 1 as [|[[k h] b] blocks [Hh Hb] _ IH]; intros secs cur.
  - cbn [lines_of_blocks1 flat_map fold_left sections_of_blocks1].
    apply append_if_app.
  - cbn [fst snd] in Hh, Hb.
    cbn [lines_of_blocks1 flat_map fst snd app fold_left].
    rewrite fold_left_app, (step_heading k) by done.
    rewrite fold1_body by done. fold (lines_of_blocks1 blocks).
    rewrite IH. unfold opened. cbn [title level content app].
    cbn [sections_of_blocks1]. rewrite app_assoc. f_equal.
    apply append_if_app.
Qed.

End Blocks1.

(** X26.  What the first script's splitter returns, block by block.  A
    document is a run of lines without heading followed by blocks, a
    block being a heading line of level [k] and the lines after it up to
    the next heading.  The candidates are the section "Introduction" of
    level 0 with the lines before the first heading, then one section
    per block with the title of its heading, its level and its lines as
    they are.  A candidate is kept according to the heading that follows
    it: before a level-2 or level-3 heading when it has lines, before a
    level-1 heading or at the end when it has lines or is not titled
    "Introduction".  The result lists the kept candidates in order. *)
Theorem X_sections_of_the_blocks1
    (intro : list str) (blocks : list (nat * str * list str)) :
  Forall (fun l => is_heading1 l = false) intro ->
  Forall (fun khb => hash_heading (fst (fst khb)) (snd (fst khb))
                     /\ Forall (fun l => is_heading1 l = false) (snd khb))
         blocks ->
  Ndjson.split_lines_into_sections (intro ++ lines_of_blocks1 blocks)
  = sections_of_blocks1
      {| Ndjson.title := Ndjson.Introduction; Ndjson.level := 0;
         Ndjson.content := intro |} blocks.
Proof.
  intros I B. unfold Ndjson.split_lines_into_sections.
  rewrite fold_left_app, fold1_body by done.
  exact (fold1_blocks blocks B [] _).
Qed.

Lemma X_sections_of_the_blocks1_witness :
  Ndjson.split_lines_into_sections
    ([u "intro"]
     ++ lines_of_blocks1 [(1%nat, u "# A", []);
                          (2%nat, u "## B", [u "text"; u ""]);
                          (1%nat, u "# C", [])])
  = sections_of_blocks1
      {| Ndjson.title := Ndjson.Introduction; Ndjson.level := 0;
         Ndjson.content := [u "intro"] |}
      [(1%nat, u "# A", []);
       (2%nat, u "## B", [u "text"; u ""]);
       (1%nat, u "# C", [])].
Proof.
  apply (X_sections_of_the_blocks1 [u "intro"]
           [(1%nat, u "# A", []);
            (2%nat, u "## B", [u "text"; u ""]);
            (1%nat, u "# C", [])]).
  - repeat constructor.
  - repeat constructor; try lia;
      (by eexists; vm_compute; reflexivity) || by vm_compute.
Defined.

Section ConvertParts.

Import Minimax.

Variable json_loads : str -> Minimax.exn + Json.value.
Variable json_dumps : Json.value -> Minimax.exn + str.
Variable py_repr : Json.value -> str.

Lemma process_files_written (records : str -> list str) (files : list str) :
  forall w : world,
  Forall (fun p => endswith (u ".ndjson") p = true
                   /\ endswith finetuning_suffix p = false
                   /\ fs w !! p = Some (List.map (fun r => r ++ [LF]) (records p))
                   /\ Forall (record_line json_loads json_dumps py_repr)
                             (records p))
         files ->
  NoDup (List.map output_path_of files) ->
  exists w' : world,
    process_files json_loads json_dumps py_repr w files = (w', None)
    /\ (forall p, p ∈ files ->
          exists out,
            fs w' !! output_path_of p = Some out
            /\ Forall2 (fun r chunk =>
                          converts json_loads json_dumps py_repr
                                   (r ++ [LF]) chunk)
                       (records p) out)
    /\ (forall q, endswith finetuning_suffix q = false ->
                  fs w' !! q = fs w !! q).
Proof.
  induction files as [|p files IH]; intros w F ND.
  - exists w. split; [done|]. split; [|done]. by intros p H%elem_of_nil.
  - apply Forall_cons in F as [(N & NF & E & R) F].
    apply NoDup_cons in ND as [Fresh ND].
    pose proof (output_path_suffix p N) as S.
    destruct (process_file_written json_loads json_dumps py_repr
                w p (records p) E) as (out & P & C);
      [congruence | done |].
    set (w1 := {| fs := <[output_path_of p := out]> (fs w);
                  trace := trace w ++ block p out |}) in P.
    destruct (IH w1) as (w' & PF & Outs & Frame); [|done|].
    { eapply Forall_impl; [exact F|]. intros p' (N' & NF' & E' & R').
      split; [done|]. split; [done|]. split; [|done].
      unfold w1. cbn [fs]. rewrite lookup_insert_ne; [exact E'|].
      intros Q. rewrite <- Q in NF'. congruence. }
    exists w'. split; [|split].
    + cbn [process_files]. by rewrite P.
    + intros p' [->|H]%elem_of_cons; [|by apply Outs].
      exists out. split; [|done].
      pose proof (process_files_frame json_loads json_dumps py_repr files
                    (output_path_of p) w1) as Fr.
      rewrite PF in Fr. cbn [fst] in Fr.
      etrans; [apply Fr|].
      * apply Forall_forall. intros p' I Q. apply Fresh.
        rewrite <- Q. by apply (list_elem_of_fmap_2 output_path_of).
      * unfold w1. cbn [fs]. apply lookup_insert_eq.
    + intros q Q. etrans; [exact (Frame q Q)|]. unfold w1. cbn [fs].
      apply lookup_insert_ne. intros <-. congruence.
Qed.

End ConvertParts.

(** X27.  A whole run on part files written by the shard writer.  When
    every input file of the run is named [*.ndjson], holds one record
    per line, every line being converted (parsed, its fine-tuning record
    built and serialized to a text that can be encoded), and the inputs
    have different output paths, the run ends without exception; every
    input has its output file, which holds exactly one chunk per record
    of the input, in the same order, each the serialized fine-tuning
    record of that record; and no file other than the
    [_finetuning.ndjson] files is created or changed. *)
Theorem X_every_part_is_converted
    (json_loads : str -> Minimax.exn + Json.value)
    (json_dumps : Json.value -> Minimax.exn + str)
    (glob : str -> list str) (py_repr : Json.value -> str)
    (w : Minimax.world) (input_file output_file : str)
    (files : list str) (records : str -> list str) :
  Minimax.input_files glob input_file = Some files ->
  Forall (fun p =>
            endswith (u ".ndjson") p = true
            /\ Minimax.fs w !! p
               = Some (List.map (fun r => r ++ [LF]) (records p))
            /\ Forall (record_line json_loads json_dumps py_repr) (records p))
         files ->
  NoDup (List.map Minimax.output_path_of files) ->
  exists w' : Minimax.world,
    Minimax.convert_ndjson_to_finetuning json_loads json_dumps glob py_repr
      w input_file output_file = (w', None)
    /\ (forall p, p ∈ files ->
          exists out,
            Minimax.fs w' !! Minimax.output_path_of p = Some out
            /\ Forall2 (fun r chunk =>
                          converts json_loads json_dumps py_repr
                                   (r ++ [LF]) chunk)
                       (records p) out)
    /\ (forall q, endswith Minimax.finetuning_suffix q = false ->
                  Minimax.fs w' !! q = Minimax.fs w !! q).
Proof.
  intros I F ND. unfold Minimax.convert_ndjson_to_finetuning. rewrite I.
  apply (process_files_written json_loads json_dumps py_repr records);
    [|done].
  pose proof (input_files_not_finetuned glob input_file files I) as NF.
  rewrite Forall_forall in F, NF. apply Forall_forall. intros p H.
  destruct (F p H) as (? & ? & ?). split; [done|]. split; [|done].
  by apply NF.
Qed.

Lemma X_every_part_is_converted_witness :
  let files := [u "a_part_1.ndjson"; u "a_part_2.ndjson"] in
  let w := {| Minimax.fs := {[ u "a_part_1.ndjson" := [example_line ++ [LF]];
                               u "a_part_2.ndjson" := [example_line ++ [LF]] ]};
              Minimax.trace := [] |} in
  exists w' : Minimax.world,
    Minimax.convert_ndjson_to_finetuning example_loads example_dumps
      (fun _ => files) (fun _ => [])
      w (u "a.ndjson") (u "a_finetuning.ndjson") = (w', None)
    /\ (forall p, p ∈ files ->
          exists out,
            Minimax.fs w' !! Minimax.output_path_of p = Some out
            /\ Forall2 (fun r chunk =>
                          converts example_loads example_dumps (fun _ => [])
                                   (r ++ [LF]) chunk)
                       [example_line] out)
    /\ (forall q, endswith Minimax.finetuning_suffix q = false ->
                  Minimax.fs w' !! q = Minimax.fs w !! q).
Proof.
  intros files w.
  apply (X_every_part_is_converted example_loads example_dumps
           (fun _ => files) (fun _ => []) w (u "a.ndjson")
           (u "a_finetuning.ndjson") files (fun _ => [example_line])).
  - reflexivity.
  - assert (record_line example_loads example_dumps (fun _ => [])
              example_line) as RL.
    { split; [apply (bool_decide_unpack _); by vm_compute|].
      split; [vm_compute; discriminate|].
      eexists _, _, _, _. repeat split; vm_compute; reflexivity. }
    apply Forall_cons. split; [|apply Forall_cons; split; [|constructor]].
    + split; [reflexivity|]. split; [vm_compute; reflexivity|].
      apply Forall_cons. split; [exact RL | constructor].
    + split; [reflexivity|]. split; [vm_compute; reflexivity|].
      apply Forall_cons. split; [exact RL | constructor].
  - apply (bool_decide_unpack _). by vm_compute.
Defined.


(* ===================================================================== *)
(** * The fine-tuning record of a line, and the order of the shards      *)
(* ===================================================================== *)

(** C7 (amended).  A record with the keys [title], [heading_level],
    [source_file] and [content] has the fine-tuning record whose
    [messages] is the list of the three entries system, user, assistant,
    in that order; the system text is "Section: " + title + "\nLevel: H"
    + heading_level + "\nSource: " + source_file (each value as [str()]
    writes it: a string as it is, an integer in decimal), the user
    content is the record's [content] itself, and the assistant text is
    the fixed acknowledgement.  When [json.dumps] serializes it to a
    text that can be encoded, a non-blank line holding the record gives
    exactly one chunk, that text with a line feed, at its place: after
    the chunks of the lines before it and before those of the lines
    after it, in the loop and in the output file.  When the text cannot
    be encoded (it holds a surrogate) the run stops there with
    UnicodeEncodeError and nothing is written for the line. *)
Theorem C7_finetuning_record
    (json_loads : str -> Minimax.exn + Json.value)
    (json_dumps : Json.value -> Minimax.exn + str)
    (py_repr : Json.value -> str)
    (items : list (str * Json.value))
    (title heading_level source_file content : Json.value) :
  Json.lookup (u "title") items = Some title ->
  Json.lookup (u "heading_level") items = Some heading_level ->
  Json.lookup (u "source_file") items = Some source_file ->
  Json.lookup (u "content") items = Some content ->
  let finetuning_record :=
    Json.Object
      [(u "messages",
        Json.Array
          [ Json.Object
              [(u "role", Json.String (u "system"));
               (u "content",
                Json.String
                  (u "Section: " ++ Minimax.format_value py_repr title
                   ++ LF :: u "Level: H"
                   ++ Minimax.format_value py_repr heading_level
                   ++ LF :: u "Source: "
                   ++ Minimax.format_value py_repr source_file))];
            Json.Object
              [(u "role", Json.String (u "user")); (u "content", content)];
            Json.Object
              [(u "role", Json.String (u "assistant"));
               (u "content",
                Json.String
                  (u "This documentation has been reviewed and is ready for reference."))] ])] in
  let transform := Minimax.transform_lines json_loads json_dumps py_repr in
  Minimax.finetuning_record py_repr (Json.Object items) = inr finetuning_record
  /\ (forall (pre rest : list str) (line text : str) (out : list str),
         transform pre = (out, None) ->
         strip line <> [] ->
         json_loads (strip line) = inr (Json.Object items) ->
         json_dumps finetuning_record = inr text ->
         File.encodable (text ++ [LF]) = true ->
         transform (pre ++ line :: rest)
         = (out ++ (text ++ [LF]) :: fst (transform rest),
            snd (transform rest)))
  /\ (forall (w : Minimax.world) (p : str) (c : File.chunks)
             (pre rest : list str) (line text : str) (out : list str),
         Minimax.fs w !! p = Some c ->
         Minimax.output_path_of p <> p ->
         File.read_lines c = pre ++ line :: rest ->
         transform pre = (out, None) ->
         strip line <> [] ->
         json_loads (strip line) = inr (Json.Object items) ->
         json_dumps finetuning_record = inr text ->
         File.encodable (text ++ [LF]) = true ->
         Minimax.fs (fst (Minimax.process_file json_loads json_dumps py_repr
                            w p)) !! Minimax.output_path_of p
         = Some (out ++ (text ++ [LF]) :: fst (transform rest))
         /\ snd (Minimax.process_file json_loads json_dumps py_repr w p)
            = snd (transform rest))
  /\ (forall (pre rest : list str) (line text : str) (out : list str),
         transform pre = (out, None) ->
         strip line <> [] ->
         json_loads (strip line) = inr (Json.Object items) ->
         json_dumps finetuning_record = inr text ->
         File.encodable (text ++ [LF]) = false ->
         transform (pre ++ line :: rest)
         = (out, Some Minimax.UnicodeEncodeError))
  /\ (forall s : str, Minimax.format_value py_repr (Json.String s) = s)
  /\ (forall n : Z, Minimax.format_value py_repr (Json.Int n) = str_of_int n).
Proof.
  intros Ht Hl Hs Hc fr transform.
  assert (Minimax.finetuning_record py_repr (Json.Object items) = inr fr) as E.
  { unfold Minimax.finetuning_record, Minimax.getitem.
    rewrite Ht, Hl, Hs, Hc. done. }
  assert (forall (pre rest : list str) (line text : str) (out : list str),
             transform pre = (out, None) ->
             strip line <> [] ->
             json_loads (strip line) = inr (Json.Object items) ->
             json_dumps fr = inr text ->
             File.encodable (text ++ [LF]) = true ->
             transform (pre ++ line :: rest)
             = (out ++ (text ++ [LF]) :: fst (transform rest),
                snd (transform rest))) as Loop.
  { intros pre rest line text out T NB L D Enc. unfold transform.
    rewrite (transform_app _ _ _ _ _ out T).
    rewrite (transform_converts _ _ _ line (text ++ [LF])); [done|done|].
    by exists (Json.Object items), fr, text. }
  split; [done|]. split; [exact Loop|]. split; [|split; [|done]].
  - intros w p c pre rest line text out F NE R T NB L D Enc.
    rewrite (process_file_fs _ _ _ w p c F).
    destruct (decide (Minimax.output_path_of p = p)); [done|].
    cbn [fst snd Minimax.fs]. rewrite R.
    fold transform. rewrite (Loop pre rest line text out) by done.
    cbn [fst snd]. split; [apply lookup_insert_eq | done].
  - intros pre rest line text out T NB L D Enc. unfold transform.
    rewrite (transform_app _ _ _ _ _ out T).
    rewrite (transform_fails _ _ _ line rest Minimax.UnicodeEncodeError);
      [cbn [fst snd]; by rewrite app_nil_r | done |].
    right. right. right. by exists (Json.Object items), fr, text.
Qed.

(** The example of the specification in a part file of two lines: the
    record with title "Intro", level 1, source "doc" and content "Hi"
    has the fine-tuning record of the example, and the output file gets
    its text once for each line. *)
Lemma C7_witness :
  let w := {| Minimax.fs := {[ u "doc_part_1.ndjson" :=
                                 [example_line ++ [LF]; example_line ++ [LF]] ]};
              Minimax.trace := [] |} in
  Minimax.finetuning_record (fun _ => []) example_record
  = inr (Json.Object
      [(u "messages",
        Json.Array
          [ Json.Object
              [(u "role", Json.String (u "system"));
               (u "content",
                Json.String (u "Section: Intro" ++ LF :: u "Level: H1"
                             ++ LF :: u "Source: doc"))];
            Json.Object
              [(u "role", Json.String (u "user"));
               (u "content", Json.String (u "Hi"))];
            Json.Object
              [(u "role", Json.String (u "assistant"));
               (u "content",
                Json.String
                  (u "This documentation has been reviewed and is ready for reference."))] ])])
  /\ Minimax.fs (fst (Minimax.process_file example_loads example_dumps
                        (fun _ => []) w (u "doc_part_1.ndjson")))
       !! u "doc_part_1_finetuning.ndjson"
     = Some [example_text ++ [LF]; example_text ++ [LF]].
Proof.
  intros w.
  pose proof (C7_finetuning_record example_loads example_dumps (fun _ => [])
                [(u "title", Json.String (u "Intro"));
                 (u "heading_level", Json.Int 1);
                 (u "source_file", Json.String (u "doc"));
                 (u "content", Json.String (u "Hi"))]
                (Json.String (u "Intro")) (Json.Int 1) (Json.String (u "doc"))
                (Json.String (u "Hi")) eq_refl eq_refl eq_refl eq_refl) as H.
  cbv zeta in H. destruct H as (H1 & _ & H3 & _). split; [exact H1|].
  refine (proj1 (H3 w (u "doc_part_1.ndjson")
                   [example_line ++ [LF]; example_line ++ [LF]]
                   [example_line ++ [LF]] [] (example_line ++ [LF])
                   example_text [example_text ++ [LF]] _ _ _ _ _ _ _ _)).
  - apply lookup_singleton_eq.
  - vm_compute. discriminate.
  - vm_compute. reflexivity.
  - vm_compute. reflexivity.
  - vm_compute. discriminate.
  - vm_compute. reflexivity.
  - reflexivity.
  - vm_compute. reflexivity.
Defined.

(** A record with the four keys for which no record is emitted: the
    title is a lone surrogate, the write of the serialized text raises
    UnicodeEncodeError, and the output file is left empty. *)
Lemma C7_counterexample :
  let w := {| Minimax.fs := {[ u "doc_part_1.ndjson" :=
                                 [surrogate_line ++ [LF]] ]};
              Minimax.trace := [] |} in
  surrogate_loads (strip (surrogate_line ++ [LF])) = inr surrogate_record
  /\ (exists fr, Minimax.finetuning_record (fun _ => []) surrogate_record
                 = inr fr)
  /\ snd (Minimax.process_file surrogate_loads surrogate_dumps (fun _ => [])
            w (u "doc_part_1.ndjson"))
     = Some Minimax.UnicodeEncodeError
  /\ Minimax.fs (fst (Minimax.process_file surrogate_loads surrogate_dumps
                        (fun _ => []) w (u "doc_part_1.ndjson")))
       !! u "doc_part_1_finetuning.ndjson"
     = Some [].
Proof.
  intros w. split; [by vm_compute|]. split; [eexists; by vm_compute|].
  split; by vm_compute.
Qed.

Section ShardOrderFacts.

Lemma filter_perm (f : str -> bool) (l l' : list str) :
  l ≡ₚ l' -> List.filter f l ≡ₚ List.filter f l'.
Proof.
  induction 1 as [|x l l' _ IH|x y l|l l' l'' _ IH1 _ IH2]; cbn [List.filter].
  - done.
  - destruct (f x); [by constructor | done].
  - destruct (f x), (f y); try done. apply perm_swap.
  - by etrans.
Qed.

Lemma filter_none (f : str -> bool) (l : list str) :
  Forall (fun x => f x = false) l -> List.filter f l = [].
Proof. induction 1 as [|x l E _ IH]; simpl; [done|]. by rewrite E. Qed.

Lemma startswith_app_same (a b c : str) :
  startswith (a ++ b) (a ++ c) = startswith b c.
Proof.
  induction a as [|x a IH]; cbn [app startswith]; [done|].
  by rewrite N.eqb_refl.
Qed.

(** The characters of [str(n)] are digits, after a minus sign for a
    negative [n]. *)
Lemma digits_chars (d : Decimal.uint) :
  Forall (fun c => (48 <= c <= 57)%N) (u (NilEmpty.string_of_uint d)).
Proof.
  induction d; cbn [NilEmpty.string_of_uint]; [constructor|..];
    (apply Forall_cons; split; [by vm_compute | exact IHd]).
Qed.

Lemma str_of_int_chars (k : Z) :
  Forall (fun c => (48 <= c <= 57)%N \/ c = 45%N) (str_of_int k).
Proof.
  unfold str_of_int. destruct (Z.to_int k) as [d|d];
    cbn [NilEmpty.string_of_int].
  - eapply Forall_impl; [apply digits_chars|]. by left.
  - apply Forall_cons. split; [by right|].
    eapply Forall_impl; [apply digits_chars|]. by left.
Qed.

(** No part name carries the fine-tuning suffix, whatever its number:
    the character before [.ndjson] is a digit and not the [g] of
    [_finetuning]. *)
Lemma part_name_not_finetuned (base : str) (k : nat) :
  endswith Minimax.finetuning_suffix (part_name base k) = false.
Proof.
  unfold endswith, part_name, Minimax.finetuning_suffix.
  rewrite !rev_app_distr.
  change (rev (u "_finetuning.ndjson"))
    with (rev (u ".ndjson") ++ rev (u "_finetuning")).
  rewrite <- !app_assoc, startswith_app_same.
  pose proof (str_of_int_chars (Z.of_nat k)) as C.
  apply Forall_rev in C.
  destruct (rev (str_of_int (Z.of_nat k))) as [|d ds]; [done|].
  apply Forall_cons in C as [C _].
  change (rev (u "_finetuning")) with (103%N :: rev (u "_finetunin")).
  cbn [app startswith].
  destruct (N.eqb_spec 103 d) as [<-|]; [|done].
  destruct C as [C|C]; [lia | done].
Qed.

Lemma part_names_not_finetuned_all (base : str) (n : nat) :
  Forall (fun f => negb (endswith Minimax.finetuning_suffix f) = true)
         (List.map (part_name base) (seq 1 n)).
Proof.
  apply List.Forall_map, List.Forall_forall. intros k _.
  by rewrite part_name_not_finetuned.
Qed.

(** As strings, the name of part 10 comes before that of part 2. *)
Lemma part_2_after_10 (base : str) :
  str_leb (part_name base 2) (part_name base 10) = false.
Proof. unfold part_name. by rewrite str_leb_app_l. Qed.

Variable glob : str -> list str.
Variable input_file : str.

Abbreviation base_of := (Minimax.base_path input_file).

(** A directory that holds the part files 1 to [n] and, from an earlier
    run, files carrying the fine-tuning suffix: the part files of the run
    are the part files 1 to [n], in some order. *)
Lemma part_files_perm (n : nat) (others : list str) :
  Forall (fun f => endswith Minimax.finetuning_suffix f = true) others ->
  glob (base_of ++ u "_part_*.ndjson")
    ≡ₚ List.map (part_name base_of) (seq 1 n) ++ others ->
  Minimax.part_files glob input_file
    ≡ₚ List.map (part_name base_of) (seq 1 n).
Proof.
  intros O P. unfold Minimax.part_files.
  etrans; [apply filter_perm; etrans; [apply sorted_perm | exact P]|].
  rewrite List.filter_app.
  rewrite (filter_all _ _ (part_names_not_finetuned_all base_of n)).
  rewrite filter_none; [by rewrite app_nil_r|].
  eapply Forall_impl; [exact O|]. simpl. by intros f ->.
Qed.

Lemma part_files_sorted :
  StronglySorted str_le (Minimax.part_files glob input_file).
Proof.
  unfold Minimax.part_files.
  apply filter_StronglySorted, sorted_StronglySorted.
Qed.

#[local] Instance str_le_anti : AntiSymm (=) str_le.
Proof. intros a b. apply str_leb_antisym. Qed.

Lemma part_files_upto_9 (n : nat) (others : list str) :
  (n <= 9)%nat ->
  Forall (fun f => endswith Minimax.finetuning_suffix f = true) others ->
  glob (base_of ++ u "_part_*.ndjson")
    ≡ₚ List.map (part_name base_of) (seq 1 n) ++ others ->
  Minimax.part_files glob input_file
  = List.map (part_name base_of) (seq 1 n).
Proof.
  intros Hn O P. apply (StronglySorted_unique str_le).
  - apply part_files_sorted.
  - by apply part_names_sorted.
  - by apply (part_files_perm n others).
Qed.

Lemma part_files_from_10 (n : nat) (others : list str) :
  (10 <= n)%nat ->
  Forall (fun f => endswith Minimax.finetuning_suffix f = true) others ->
  glob (base_of ++ u "_part_*.ndjson")
    ≡ₚ List.map (part_name base_of) (seq 1 n) ++ others ->
  Minimax.part_files glob input_file
  <> List.map (part_name base_of) (seq 1 n)
  /\ exists l1 l2 l3,
       Minimax.part_files glob input_file
       = l1 ++ part_name base_of 10 :: l2 ++ part_name base_of 2 :: l3.
Proof.
  intros Hn O P.
  pose proof (part_files_perm n others O P) as Perm.
  pose proof part_files_sorted as Sorted.
  pose proof (part_2_after_10 base_of) as Gt.
  assert (forall k, (1 <= k <= n)%nat ->
            part_name base_of k ∈ Minimax.part_files glob input_file) as In.
  { intros k Hk. rewrite Perm. apply (list_elem_of_fmap_2 (part_name base_of)).
    apply elem_of_seq. lia. }
  assert (exists l1 l2 l3,
             Minimax.part_files glob input_file
             = l1 ++ part_name base_of 10 :: l2 ++ part_name base_of 2 :: l3)
    as Pos.
  { destruct (list_elem_of_split _ _ (In 2%nat ltac:(lia))) as (a & b & E).
    pose proof (In 10%nat ltac:(lia)) as I10. rewrite E in I10, Sorted.
    apply elem_of_app in I10 as [I10|I10].
    - destruct (list_elem_of_split _ _ I10) as (a1 & a2 & ->).
      exists a1, a2, b. by rewrite E, <- app_assoc.
    - apply StronglySorted_app_1_r, StronglySorted_inv in Sorted as [_ F].
      apply elem_of_cons in I10 as [I10|I10].
      + rewrite I10, str_leb_refl in Gt. done.
      + rewrite Forall_forall in F. specialize (F _ I10).
        unfold str_le in F. congruence. }
  split; [|done].
  intros E. rewrite E in Sorted.
  assert (seq 1 n = [1; 2; 3; 4; 5; 6; 7; 8; 9]%nat ++ 10%nat :: seq 11 (n - 10))
    as S.
  { replace n with (9 + S (n - 10))%nat at 1 by lia.
    rewrite seq_app. by cbn [seq Nat.add]. }
  rewrite S, List.map_app in Sorted. cbn [List.map app] in Sorted.
  apply StronglySorted_inv in Sorted as [Sorted _].
  apply StronglySorted_inv in Sorted as [_ F].
  rewrite Forall_forall in F.
  specialize (F (part_name base_of 10)). unfold str_le in F.
  rewrite F in Gt; [done|].
  do 7 (apply elem_of_cons; right). apply elem_of_cons. by left.
Qed.

End ShardOrderFacts.

(** C8.  What the code does: every input file is processed in full,
    from its opening to its closing, before the next one is opened, in
    the order of the list of input files; the part files are taken in
    ascending order of their names as strings ([sorted] on the paths).
    In a directory that holds the parts 1 to [n], with or without the
    outputs of an earlier run, this is the order of the shard numbers
    when [n] is at most nine; for every [n] from ten on it is not: part
    10 is processed before part 2.  With ten parts the order is 1, 10, 2,
    3, ..., 9. *)
Theorem C8_processing_order :
  (forall (json_loads : str -> Minimax.exn + Json.value)
          (json_dumps : Json.value -> Minimax.exn + str)
          (py_repr : Json.value -> str)
          (w : Minimax.world) (files : list str),
      exists ps outs,
        ps `prefix_of` files /\ length outs = length ps
        /\ Minimax.trace
             (fst (Minimax.process_files json_loads json_dumps py_repr w files))
           = Minimax.trace w ++ blocks ps outs
        /\ (snd (Minimax.process_files json_loads json_dumps py_repr w files)
            = None -> ps = files))
  /\
  (forall (glob : str -> list str) (input_file : str),
      StronglySorted str_le (Minimax.part_files glob input_file)
      /\ (Minimax.part_files glob input_file <> [] ->
          Minimax.input_files glob input_file
          = Some (Minimax.part_files glob input_file)))
  /\
  (forall (glob : str -> list str) (input_file : str) (n : nat)
          (others : list str),
      (n <= 9)%nat ->
      Forall (fun f => endswith Minimax.finetuning_suffix f = true) others ->
      glob (Minimax.base_path input_file ++ u "_part_*.ndjson")
        ≡ₚ List.map (part_name (Minimax.base_path input_file)) (seq 1 n)
           ++ others ->
      Minimax.part_files glob input_file
      = List.map (part_name (Minimax.base_path input_file)) (seq 1 n))
  /\
  (forall (glob : str -> list str) (input_file : str) (n : nat)
          (others : list str),
      (10 <= n)%nat ->
      Forall (fun f => endswith Minimax.finetuning_suffix f = true) others ->
      glob (Minimax.base_path input_file ++ u "_part_*.ndjson")
        ≡ₚ List.map (part_name (Minimax.base_path input_file)) (seq 1 n)
           ++ others ->
      Minimax.input_files glob input_file
      = Some (Minimax.part_files glob input_file)
      /\ Minimax.part_files glob input_file
         <> List.map (part_name (Minimax.base_path input_file)) (seq 1 n)
      /\ exists l1 l2 l3,
           Minimax.part_files glob input_file
           = l1 ++ part_name (Minimax.base_path input_file) 10
                :: l2 ++ part_name (Minimax.base_path input_file) 2 :: l3)
  /\
  Minimax.input_files
    (fun _ => List.map (part_name (u "out/guide")) (seq 1 10))
    (u "out/guide.ndjson")
  = Some [ u "out/guide_part_1.ndjson"; u "out/guide_part_10.ndjson";
           u "out/guide_part_2.ndjson"; u "out/guide_part_3.ndjson";
           u "out/guide_part_4.ndjson"; u "out/guide_part_5.ndjson";
           u "out/guide_part_6.ndjson"; u "out/guide_part_7.ndjson";
           u "out/guide_part_8.ndjson"; u "out/guide_part_9.ndjson" ].
Proof.
  split; [|split; [|split; [|split]]].
  - intros. apply process_files_trace.
  - intros glob input_file. split; [apply part_files_sorted|].
    intros H. unfold Minimax.input_files.
    by destruct (Minimax.part_files glob input_file).
  - intros glob input_file n others. apply part_files_upto_9.
  - intros glob input_file n others Hn O P.
    destruct (part_files_from_10 glob input_file n others Hn O P)
      as (NE & l1 & l2 & l3 & E).
    split; [|split; [done | by exists l1, l2, l3]].
    unfold Minimax.input_files. rewrite E. by destruct l1.
  - by vm_compute.
Qed.
